(** * A shallow embedding of the speech-to-text recorder (src/App.tsx)

    The component [App] keeps its data in React state cells and refs and talks
    to the browser (MediaRecorder, Web Audio, timers, localStorage) and to a
    remote backend.  The embedding keeps that shape:

    - the state cells are the record [State]; a render's closures capture one
      value of it, so every handler takes the [State] it was created in as its
      first argument and writes through setters into the live [World];
    - refs, timers, the two stores, the toasts and the console are the rest of
      the [World];
    - a handler is a computation in a state-and-exception monad [M], with
      [try_catch] and [try_finally] for the source's [try] blocks;
    - whatever the outside decides (does the network call fail, what does the
      clock say, which samples does the analyser deliver) is read from an
      explicit record [Outside] that the handler receives.

    A handler runs to completion: what other events could do between an
    [await] and its continuation is not modelled.  JavaScript numbers that
    hold counts of seconds are modelled as [Z], which is exact for safe
    integers; the audio level is a rational, which is exact for the 128-bin
    buffer the code allocates.  Strings are byte strings. *)

From Stdlib Require Import ZArith QArith Qminmax Ascii String List Sorted Lia.
From Stdlib.Strings Require Import Byte.
From stdpp Require Import base option list strings gmap pretty.

#[local] Set Warnings "-register-all".

Local Open Scope string_scope.
Local Open Scope list_scope.
Local Open Scope Z_scope.

(** * Part I: the embedding *)

(** ** JavaScript string helpers *)

Module Js.

(** [Number.prototype.toString] on an integer: decimal digits, a leading
    minus sign for negative values. *)
Definition Number_toString (n : Z) : string := pretty n.

(** Copies of [pad] cut to [n] characters: the filler that [padStart] puts
    in front.  [fuel] bounds the number of copies. *)
Fixpoint filler (fuel : nat) (n : nat) (pad : string) : string :=
  match fuel with
  | O => ""
  | S fuel' =>
      if (n <=? String.length pad)%nat then String.substring 0 n pad
      else pad +:+ filler fuel' (n - String.length pad) pad
  end.

(** [String.prototype.padStart(targetLength, padString)]: the string itself
    when it is long enough or the pad is empty, else filled on the left. *)
Definition padStart (targetLength : nat) (padString : string) (s : string) : string :=
  if (targetLength <=? String.length s)%nat then s
  else if String.eqb padString "" then s
  else filler targetLength (targetLength - String.length s) padString +:+ s.

(** [String.prototype.substr(start, length)] for non-negative arguments. *)
Definition substr (start len : nat) (s : string) : string :=
  String.substring start len s.

(** [String.prototype.split(sep)] for a one-character separator. *)
Fixpoint split_go (sep : ascii) (cur : string) (s : string) : list string :=
  match s with
  | EmptyString => [String.rev cur]
  | String c s' =>
      if Ascii.eqb c sep then String.rev cur :: split_go sep "" s'
      else split_go sep (String c cur) s'
  end.

Definition split (sep : ascii) (s : string) : list string := split_go sep "" s.

(** The double quote character, code 34. *)
Definition dquote : ascii := "034"%char.

End Js.

(** ** Dates

    A [Date] object holds a time value in milliseconds since the epoch, or
    is the Invalid Date. *)

Inductive Date : Type :=
  | ValidDate (ms : Z)
  | InvalidDate.

Module JsDate.

Definition msPerDay : Z := 86400000.

(** Year, month (1-12) and day (1-31) of a day number counted from the
    epoch, in the proleptic Gregorian calendar. *)
Definition civil_from_days (days : Z) : Z * Z * Z :=
  let z := days + 719468 in
  let era := z / 146097 in
  let doe := z - era * 146097 in
  let yoe := (doe - doe / 1460 + doe / 36524 - doe / 146096) / 365 in
  let y := yoe + era * 400 in
  let doy := doe - (365 * yoe + yoe / 4 - yoe / 100) in
  let mp := (5 * doy + 2) / 153 in
  let d := doy - (153 * mp + 2) / 5 + 1 in
  let m := if mp <? 10 then mp + 3 else mp - 9 in
  (if m <=? 2 then y + 1 else y, m, d).

Definition days_from_civil (y m d : Z) : Z :=
  let y' := if m <=? 2 then y - 1 else y in
  let era := y' / 400 in
  let yoe := y' - era * 400 in
  let doy := (153 * (if 2 <? m then m - 3 else m + 9) + 2) / 5 + d - 1 in
  let doe := yoe * 365 + yoe / 4 - yoe / 100 + doy in
  era * 146097 + doe - 719468.

Definition pad (n : nat) (v : Z) : string :=
  Js.padStart n "0" (Js.Number_toString v).

(** [Date.prototype.toISOString] of a time value: four-digit years between 0
    and 9999, the signed six-digit form outside. *)
Definition toISOString (ms : Z) : string :=
  let days := ms / msPerDay in
  let t := ms mod msPerDay in
  let '(y, m, d) := civil_from_days days in
  let year :=
    if (0 <=? y) && (y <=? 9999) then pad 4 y
    else (if y <? 0 then "-" else "+") +:+ pad 6 (Z.abs y) in
  year +:+ "-" +:+ pad 2 m +:+ "-" +:+ pad 2 d +:+ "T"
    +:+ pad 2 (t / 3600000) +:+ ":" +:+ pad 2 (t / 60000 mod 60) +:+ ":"
    +:+ pad 2 (t / 1000 mod 60) +:+ "." +:+ pad 3 (t mod 1000) +:+ "Z".

Definition digit_val (c : ascii) : option Z :=
  let n := Z.of_N (N_of_ascii c) in
  if (48 <=? n) && (n <=? 57) then Some (n - 48) else None.

(** The value of a run of decimal digits; [None] when a character is not a
    digit or the run is empty. *)
Fixpoint digits_val (acc : Z) (s : string) : option Z :=
  match s with
  | EmptyString => Some acc
  | String c s' =>
      match digit_val c with
      | Some d => digits_val (10 * acc + d) s'
      | None => None
      end
  end.

Definition number_at (start len : nat) (s : string) : option Z :=
  let t := String.substring start len s in
  if (String.length t =? len)%nat then digits_val 0 t else None.

Definition char_at (i : nat) (c : ascii) (s : string) : bool :=
  match String.get i s with
  | Some c' => Ascii.eqb c c'
  | None => false
  end.

(** [new Date(string)] on the format that [toISOString] writes,
    [YYYY-MM-DDTHH:mm:ss.sssZ], where 24:00:00.000 is the end of the day.
    The model covers this one format: the shorter ISO forms, the forms with
    an offset or in local time and whatever else a browser reads are outside
    it, and there [InvalidDate] does not tell what [new Date] gives.  The
    properties below speak of timestamps on text of this format only. *)
Definition parse (s : string) : Date :=
  if (String.length s =? 24)%nat
     && char_at 4 "-" s && char_at 7 "-" s && char_at 10 "T" s
     && char_at 13 ":" s && char_at 16 ":" s && char_at 19 "." s
     && char_at 23 "Z" s
  then
    match number_at 0 4 s, number_at 5 2 s, number_at 8 2 s,
          number_at 11 2 s, number_at 14 2 s, number_at 17 2 s,
          number_at 20 3 s with
    | Some y, Some m, Some d, Some hh, Some mm, Some ss, Some mmm =>
        if (1 <=? m) && (m <=? 12) && (1 <=? d) && (d <=? 31)
           && ((hh <=? 23) || ((hh =? 24) && (mm =? 0) && (ss =? 0) && (mmm =? 0)))
           && (mm <=? 59) && (ss <=? 59)
        then ValidDate (days_from_civil y m d * msPerDay
                        + hh * 3600000 + mm * 60000 + ss * 1000 + mmm)
        else InvalidDate
    | _, _, _, _, _, _, _ => InvalidDate
    end
  else InvalidDate.

End JsDate.

(** ** JSON

    The values that [JSON.parse] returns and [JSON.stringify] writes.
    Numbers are integers: the application stores only counts of seconds. *)

Module JSON.

Inductive value : Type :=
  | Null
  | Bool (b : bool)
  | Num (n : Z)
  | Str (s : string)
  | Arr (items : list value)
  | Obj (members : list (string * value)).

Definition hex_digit (n : N) : ascii :=
  if (n <? 10)%N then ascii_of_N (48 + n) else ascii_of_N (87 + n).

(** One character inside a JSON string literal. *)
Definition escape_char (c : ascii) : string :=
  let n := N_of_ascii c in
  if Ascii.eqb c Js.dquote then String "\" (String Js.dquote "")
  else if Ascii.eqb c "\" then "\\"
  else if (n =? 8)%N then "\b"
  else if (n =? 12)%N then "\f"
  else if (n =? 10)%N then "\n"
  else if (n =? 13)%N then "\r"
  else if (n =? 9)%N then "\t"
  else if (n <? 32)%N then
    "\u00" +:+ String (hex_digit (n / 16)) (String (hex_digit (n mod 16)) "")
  else String c "".

Fixpoint escape (s : string) : string :=
  match s with
  | EmptyString => ""
  | String c s' => escape_char c +:+ escape s'
  end.

Definition quote (s : string) : string :=
  String Js.dquote (escape s) +:+ String Js.dquote "".

Definition join (sep : string) (l : list string) : string := String.concat sep l.

Fixpoint stringify (v : value) : string :=
  match v with
  | Null => "null"
  | Bool true => "true"
  | Bool false => "false"
  | Num n => Js.Number_toString n
  | Str s => quote s
  | Arr items => "[" +:+ join "," (List.map stringify items) +:+ "]"
  | Obj members =>
      "{" +:+ join "," (List.map (fun kv => quote (fst kv) +:+ ":" +:+ stringify (snd kv))
                                 members) +:+ "}"
  end.

(** *** Parsing *)

Definition is_ws (c : ascii) : bool :=
  let n := N_of_ascii c in
  (n =? 32)%N || (n =? 9)%N || (n =? 10)%N || (n =? 13)%N.

Fixpoint skip_ws (s : string) : string :=
  match s with
  | String c s' => if is_ws c then skip_ws s' else s
  | EmptyString => s
  end.

Definition hex_val (c : ascii) : option N :=
  let n := N_of_ascii c in
  if (48 <=? n)%N && (n <=? 57)%N then Some (n - 48)%N
  else if (97 <=? n)%N && (n <=? 102)%N then Some (n - 87)%N
  else if (65 <=? n)%N && (n <=? 70)%N then Some (n - 55)%N
  else None.

(** The UTF-8 bytes of a code point of the basic plane. *)
Definition utf8 (cp : N) : string :=
  if (cp <? 128)%N then String (ascii_of_N cp) ""
  else if (cp <? 2048)%N then
    String (ascii_of_N (192 + cp / 64)) (String (ascii_of_N (128 + cp mod 64)) "")
  else
    String (ascii_of_N (224 + cp / 4096))
      (String (ascii_of_N (128 + (cp / 64) mod 64))
         (String (ascii_of_N (128 + cp mod 64)) "")).

(** The body of a string literal, after the opening quote: the decoded
    text and what follows the closing quote. *)
Fixpoint parse_chars (s : string) : option (string * string) :=
  match s with
  | EmptyString => None
  | String c rest =>
      if Ascii.eqb c Js.dquote then Some ("", rest)
      else if Ascii.eqb c "\" then
        match rest with
        | String e rest' =>
            let simple (d : ascii) :=
              match parse_chars rest' with
              | Some (t, r) => Some (String d t, r)
              | None => None
              end in
            if Ascii.eqb e Js.dquote then simple Js.dquote
            else if Ascii.eqb e "\" then simple "\"%char
            else if Ascii.eqb e "/" then simple "/"%char
            else if Ascii.eqb e "b" then simple (ascii_of_N 8)
            else if Ascii.eqb e "f" then simple (ascii_of_N 12)
            else if Ascii.eqb e "n" then simple (ascii_of_N 10)
            else if Ascii.eqb e "r" then simple (ascii_of_N 13)
            else if Ascii.eqb e "t" then simple (ascii_of_N 9)
            else if Ascii.eqb e "u" then
              match rest' with
              | String h1 (String h2 (String h3 (String h4 rest4))) =>
                  match hex_val h1, hex_val h2, hex_val h3, hex_val h4,
                        parse_chars rest4 with
                  | Some a, Some b, Some c', Some d, Some (t, r) =>
                      Some (utf8 (((a * 16 + b) * 16 + c') * 16 + d)%N +:+ t, r)
                  | _, _, _, _, _ => None
                  end
              | _ => None
              end
            else None
        | EmptyString => None
        end
      else if (N_of_ascii c <? 32)%N then None
      else
        match parse_chars rest with
        | Some (t, r) => Some (String c t, r)
        | None => None
        end
  end.

(** A run of digits: its value, how many there were, and the rest. *)
Fixpoint parse_digits (acc : Z) (count : nat) (s : string) : Z * nat * string :=
  match s with
  | String c s' =>
      match JsDate.digit_val c with
      | Some d => parse_digits (10 * acc + d) (S count) s'
      | None => (acc, count, s)
      end
  | EmptyString => (acc, count, s)
  end.

(** An integer literal; a leading zero stands alone.  The numbers of the
    model are the integers ([Num] holds a [Z]): a literal with a fraction or
    an exponent, which [JSON.parse] reads, is outside the model and gives
    [None] here. *)
Definition parse_number (s : string) : option (Z * string) :=
  let '(neg, body) :=
    match s with
    | String "-" s' => (true, s')
    | _ => (false, s)
    end in
  let '(n, count, rest) := parse_digits 0 0 body in
  let leading_zero :=
    match body with
    | String "0" _ => (1 <? count)%nat
    | _ => false
    end in
  let continues :=
    match rest with
    | String c _ => Ascii.eqb c "." || Ascii.eqb c "e" || Ascii.eqb c "E"
    | EmptyString => false
    end in
  if (count =? 0)%nat || leading_zero || continues then None
  else Some (if neg then - n else n, rest).

Definition expect (lit : string) (v : value) (s : string) : option (value * string) :=
  if String.prefix lit s
  then Some (v, String.substring (String.length lit) (String.length s) s)
  else None.

Fixpoint parse_value (fuel : nat) (s : string) : option (value * string) :=
  match fuel with
  | O => None
  | S fuel' =>
      match skip_ws s with
      | EmptyString => None
      | String c rest as s0 =>
          if Ascii.eqb c "[" then
            match skip_ws rest with
            | String "]" rest' => Some (Arr [], rest')
            | _ =>
                match parse_elements fuel' rest with
                | Some (items, r) => Some (Arr items, r)
                | None => None
                end
            end
          else if Ascii.eqb c "{" then
            match skip_ws rest with
            | String "}" rest' => Some (Obj [], rest')
            | _ =>
                match parse_members fuel' rest with
                | Some (members, r) => Some (Obj members, r)
                | None => None
                end
            end
          else if Ascii.eqb c Js.dquote then
            match parse_chars rest with
            | Some (t, r) => Some (Str t, r)
            | None => None
            end
          else if Ascii.eqb c "n" then expect "null" Null s0
          else if Ascii.eqb c "t" then expect "true" (Bool true) s0
          else if Ascii.eqb c "f" then expect "false" (Bool false) s0
          else
            match parse_number s0 with
            | Some (n, r) => Some (Num n, r)
            | None => None
            end
      end
  end
with parse_elements (fuel : nat) (s : string) : option (list value * string) :=
  match fuel with
  | O => None
  | S fuel' =>
      match parse_value fuel' s with
      | Some (v, r) =>
          match skip_ws r with
          | String "," r' =>
              match parse_elements fuel' r' with
              | Some (vs, r'') => Some (v :: vs, r'')
              | None => None
              end
          | String "]" r' => Some ([v], r')
          | _ => None
          end
      | None => None
      end
  end
with parse_members (fuel : nat) (s : string) : option (list (string * value) * string) :=
  match fuel with
  | O => None
  | S fuel' =>
      match skip_ws s with
      | String c rest =>
          if Ascii.eqb c Js.dquote then
            match parse_chars rest with
            | Some (k, r) =>
                match skip_ws r with
                | String ":" r1 =>
                    match parse_value fuel' r1 with
                    | Some (v, r2) =>
                        match skip_ws r2 with
                        | String "," r3 =>
                            match parse_members fuel' r3 with
                            | Some (ms, r4) => Some ((k, v) :: ms, r4)
                            | None => None
                            end
                        | String "}" r3 => Some ([(k, v)], r3)
                        | _ => None
                        end
                    | None => None
                    end
                | _ => None
                end
            | None => None
            end
          else None
      | EmptyString => None
      end
  end.

(** [JSON.parse] on text whose numbers are integers, as in everything
    the page itself writes: there [None] stands for the SyntaxError it
    throws.  On text with a fraction or an exponent [None] only says that
    the text is outside the model. *)
Definition parse (s : string) : option value :=
  match parse_value (2 * String.length s + 2) s with
  | Some (v, rest) =>
      match skip_ws rest with
      | EmptyString => Some v
      | _ => None
      end
  | None => None
  end.

(** Property access on a parsed object: the last member of that name. *)
Fixpoint get (k : string) (members : list (string * value)) : option value :=
  match members with
  | [] => None
  | (k', v) :: rest =>
      match get k rest with
      | Some v' => Some v'
      | None => if String.eqb k k' then Some v else None
      end
  end.

End JSON.

(** ** The data model (App.tsx, lines 13-19 and 35-52) *)

(** [interface TranscriptionSession]. *)
Module Session.
Record t : Type := mk {
  id : string;
  text : string;
  timestamp : Date;
  language : string;
  duration : Z;
}.

Definition with_id (i : string) (s : t) : t :=
  {| id := i; text := text s; timestamp := timestamp s;
     language := language s; duration := duration s |}.
End Session.

Abbreviation TranscriptionSession := Session.t.

(** Lines 21-32. *)
Definition SUPPORTED_LANGUAGES : list (string * string) :=
  [("en", "English"); ("es", "Spanish"); ("fr", "French"); ("de", "German");
   ("it", "Italian"); ("pt", "Portuguese"); ("ru", "Russian"); ("ja", "Japanese");
   ("ko", "Korean"); ("zh", "Chinese")].

(** The authenticated user, as far as the component reads it. *)
Record User : Type := { uid : string; email : string }.

(** A value of the audio level cell: a number, or NaN (what [0 / 0]
    gives on an empty sample buffer). *)
Inductive Level : Type :=
  | Lvl (q : Q)
  | NaN.

(** The [useState] cells.  A render's closures see one [State]. *)
Record State : Type := {
  user : option User;
  loading : bool;
  isRecording : bool;
  isPaused : bool;
  transcriptionText : string;
  isTranscribing : bool;
  selectedLanguage : string;
  recordingDuration : Z;
  audioLevel : Level;
  sessions : list TranscriptionSession;
}.

Definition initialState : State :=
  {| user := None; loading := true; isRecording := false; isPaused := false;
     transcriptionText := ""; isTranscribing := false; selectedLanguage := "en";
     recordingDuration := 0; audioLevel := Lvl 0; sessions := [] |}.

Inductive RecordingState : Type := inactive | recording | paused.

(** The [MediaRecorder] object: its [state] attribute and the [State] that
    its [onstop] handler closed over when [startRecording] installed it. *)
Record MediaRecorder : Type := {
  mr_state : RecordingState;
  mr_onstop : State;
}.

Record MediaStream : Type := { tracksStopped : bool }.
Record AudioContext : Type := { closed : bool }.
Record AnalyserNode : Type := { fftSize : N }.

Definition frequencyBinCount (a : AnalyserNode) : N := (fftSize a / 2)%N.

Definition Blob : Type := list byte.

(** The [useRef] cells. *)
Record Refs : Type := {
  mediaRecorderRef : option MediaRecorder;
  audioChunksRef : list Blob;
  streamRef : option MediaStream;
  audioContextRef : option AudioContext;
  analyserRef : option AnalyserNode;
  animationFrameRef : option positive;
  durationIntervalRef : option positive;
}.

Definition initialRefs : Refs :=
  {| mediaRecorderRef := None; audioChunksRef := []; streamRef := None;
     audioContextRef := None; analyserRef := None; animationFrameRef := None;
     durationIntervalRef := None |}.

(** A row of the remote table [transcriptionSessions]. *)
Record DbRow : Type := {
  row_id : string;
  row_userId : string;
  row_text : string;
  row_language : string;
  row_duration : Z;
  row_createdAt : string;
}.

Inductive Toast : Type :=
  | ToastSuccess (msg : string)
  | ToastError (msg : string).

(** Requests that left the component for the backend. *)
Inductive Call : Type :=
  | CallList (userId : string)
  | CallCreate (userId text language : string) (duration : Z) (createdAt : string)
  | CallDelete (sessionId : string)
  | CallTranscribe (audio : option string) (language : string).

(** The browser and the backend: the handles of the running interval timers
    and of the pending animation frames (handles are positive, so a stored
    handle is always truthy), [localStorage], the remote table, and what the
    user and the developer console have been shown. *)
Record Browser : Type := {
  intervals : gset positive;
  frames : gset positive;
  nextHandle : positive;
  localStorage : gmap string string;
  remote : list DbRow;
  calls : list Call;
  toasts : list Toast;
  console : list string;
}.

Definition initialBrowser : Browser :=
  {| intervals := ∅; frames := ∅; nextHandle := 1%positive; localStorage := ∅;
     remote := []; calls := []; toasts := []; console := [] |}.

Record World : Type := {
  st : State;
  refs : Refs;
  env : Browser;
}.

Definition initialWorld : World :=
  {| st := initialState; refs := initialRefs; env := initialBrowser |}.

(** What the outside answers during one run of a handler. *)
Record Outside : Type := {
  now_id : Z;                     (* [Date.now()] inside the session id *)
  now_timestamp : Z;              (* [new Date()] of the session timestamp *)
  now_createdAt : Z;              (* [new Date()] of the row's createdAt *)
  random36 : string;              (* [Math.random().toString(36)] *)
  db_list_ok : bool;              (* the remote list call resolves *)
  db_create : option string;      (* the id of the created row, or a rejection *)
  db_delete_ok : bool;            (* the remote delete call resolves *)
  storage_ok : bool;              (* a localStorage access does not throw *)
  microphone : bool;              (* [getUserMedia] resolves *)
  mimeSupported : bool;           (* [new MediaRecorder] accepts the mime type *)
  reader : option string;         (* the data URL read, or [onerror] *)
  transcription : option string;  (* the recognized text, or a rejection *)
  spectrum : list byte;           (* what [getByteFrequencyData] delivers *)
}.

(** ** Field updates *)

Definition set_user v (s : State) : State :=
  {| user := v; loading := loading s; isRecording := isRecording s;
     isPaused := isPaused s; transcriptionText := transcriptionText s;
     isTranscribing := isTranscribing s; selectedLanguage := selectedLanguage s;
     recordingDuration := recordingDuration s; audioLevel := audioLevel s;
     sessions := sessions s |}.
Definition set_loading v (s : State) : State :=
  {| user := user s; loading := v; isRecording := isRecording s;
     isPaused := isPaused s; transcriptionText := transcriptionText s;
     isTranscribing := isTranscribing s; selectedLanguage := selectedLanguage s;
     recordingDuration := recordingDuration s; audioLevel := audioLevel s;
     sessions := sessions s |}.
Definition set_isRecording v (s : State) : State :=
  {| user := user s; loading := loading s; isRecording := v;
     isPaused := isPaused s; transcriptionText := transcriptionText s;
     isTranscribing := isTranscribing s; selectedLanguage := selectedLanguage s;
     recordingDuration := recordingDuration s; audioLevel := audioLevel s;
     sessions := sessions s |}.
Definition set_isPaused v (s : State) : State :=
  {| user := user s; loading := loading s; isRecording := isRecording s;
     isPaused := v; transcriptionText := transcriptionText s;
     isTranscribing := isTranscribing s; selectedLanguage := selectedLanguage s;
     recordingDuration := recordingDuration s; audioLevel := audioLevel s;
     sessions := sessions s |}.
Definition set_transcriptionText v (s : State) : State :=
  {| user := user s; loading := loading s; isRecording := isRecording s;
     isPaused := isPaused s; transcriptionText := v;
     isTranscribing := isTranscribing s; selectedLanguage := selectedLanguage s;
     recordingDuration := recordingDuration s; audioLevel := audioLevel s;
     sessions := sessions s |}.
Definition set_isTranscribing v (s : State) : State :=
  {| user := user s; loading := loading s; isRecording := isRecording s;
     isPaused := isPaused s; transcriptionText := transcriptionText s;
     isTranscribing := v; selectedLanguage := selectedLanguage s;
     recordingDuration := recordingDuration s; audioLevel := audioLevel s;
     sessions := sessions s |}.
Definition set_selectedLanguage v (s : State) : State :=
  {| user := user s; loading := loading s; isRecording := isRecording s;
     isPaused := isPaused s; transcriptionText := transcriptionText s;
     isTranscribing := isTranscribing s; selectedLanguage := v;
     recordingDuration := recordingDuration s; audioLevel := audioLevel s;
     sessions := sessions s |}.
Definition set_recordingDuration v (s : State) : State :=
  {| user := user s; loading := loading s; isRecording := isRecording s;
     isPaused := isPaused s; transcriptionText := transcriptionText s;
     isTranscribing := isTranscribing s; selectedLanguage := selectedLanguage s;
     recordingDuration := v; audioLevel := audioLevel s;
     sessions := sessions s |}.
Definition set_audioLevel v (s : State) : State :=
  {| user := user s; loading := loading s; isRecording := isRecording s;
     isPaused := isPaused s; transcriptionText := transcriptionText s;
     isTranscribing := isTranscribing s; selectedLanguage := selectedLanguage s;
     recordingDuration := recordingDuration s; audioLevel := v;
     sessions := sessions s |}.
Definition set_sessions v (s : State) : State :=
  {| user := user s; loading := loading s; isRecording := isRecording s;
     isPaused := isPaused s; transcriptionText := transcriptionText s;
     isTranscribing := isTranscribing s; selectedLanguage := selectedLanguage s;
     recordingDuration := recordingDuration s; audioLevel := audioLevel s;
     sessions := v |}.

Definition set_mediaRecorderRef v (r : Refs) : Refs :=
  {| mediaRecorderRef := v; audioChunksRef := audioChunksRef r;
     streamRef := streamRef r; audioContextRef := audioContextRef r;
     analyserRef := analyserRef r; animationFrameRef := animationFrameRef r;
     durationIntervalRef := durationIntervalRef r |}.
Definition set_audioChunksRef v (r : Refs) : Refs :=
  {| mediaRecorderRef := mediaRecorderRef r; audioChunksRef := v;
     streamRef := streamRef r; audioContextRef := audioContextRef r;
     analyserRef := analyserRef r; animationFrameRef := animationFrameRef r;
     durationIntervalRef := durationIntervalRef r |}.
Definition set_streamRef v (r : Refs) : Refs :=
  {| mediaRecorderRef := mediaRecorderRef r; audioChunksRef := audioChunksRef r;
     streamRef := v; audioContextRef := audioContextRef r;
     analyserRef := analyserRef r; animationFrameRef := animationFrameRef r;
     durationIntervalRef := durationIntervalRef r |}.
Definition set_audioContextRef v (r : Refs) : Refs :=
  {| mediaRecorderRef := mediaRecorderRef r; audioChunksRef := audioChunksRef r;
     streamRef := streamRef r; audioContextRef := v;
     analyserRef := analyserRef r; animationFrameRef := animationFrameRef r;
     durationIntervalRef := durationIntervalRef r |}.
Definition set_analyserRef v (r : Refs) : Refs :=
  {| mediaRecorderRef := mediaRecorderRef r; audioChunksRef := audioChunksRef r;
     streamRef := streamRef r; audioContextRef := audioContextRef r;
     analyserRef := v; animationFrameRef := animationFrameRef r;
     durationIntervalRef := durationIntervalRef r |}.
Definition set_animationFrameRef v (r : Refs) : Refs :=
  {| mediaRecorderRef := mediaRecorderRef r; audioChunksRef := audioChunksRef r;
     streamRef := streamRef r; audioContextRef := audioContextRef r;
     analyserRef := analyserRef r; animationFrameRef := v;
     durationIntervalRef := durationIntervalRef r |}.
Definition set_durationIntervalRef v (r : Refs) : Refs :=
  {| mediaRecorderRef := mediaRecorderRef r; audioChunksRef := audioChunksRef r;
     streamRef := streamRef r; audioContextRef := audioContextRef r;
     analyserRef := analyserRef r; animationFrameRef := animationFrameRef r;
     durationIntervalRef := v |}.

Definition set_intervals v (b : Browser) : Browser :=
  {| intervals := v; frames := frames b; nextHandle := nextHandle b;
     localStorage := localStorage b; remote := remote b; calls := calls b;
     toasts := toasts b; console := console b |}.
Definition set_frames v (b : Browser) : Browser :=
  {| intervals := intervals b; frames := v; nextHandle := nextHandle b;
     localStorage := localStorage b; remote := remote b; calls := calls b;
     toasts := toasts b; console := console b |}.
Definition set_nextHandle v (b : Browser) : Browser :=
  {| intervals := intervals b; frames := frames b; nextHandle := v;
     localStorage := localStorage b; remote := remote b; calls := calls b;
     toasts := toasts b; console := console b |}.
Definition set_localStorage v (b : Browser) : Browser :=
  {| intervals := intervals b; frames := frames b; nextHandle := nextHandle b;
     localStorage := v; remote := remote b; calls := calls b;
     toasts := toasts b; console := console b |}.
Definition set_remote v (b : Browser) : Browser :=
  {| intervals := intervals b; frames := frames b; nextHandle := nextHandle b;
     localStorage := localStorage b; remote := v; calls := calls b;
     toasts := toasts b; console := console b |}.
Definition set_calls v (b : Browser) : Browser :=
  {| intervals := intervals b; frames := frames b; nextHandle := nextHandle b;
     localStorage := localStorage b; remote := remote b; calls := v;
     toasts := toasts b; console := console b |}.
Definition set_toasts v (b : Browser) : Browser :=
  {| intervals := intervals b; frames := frames b; nextHandle := nextHandle b;
     localStorage := localStorage b; remote := remote b; calls := calls b;
     toasts := v; console := console b |}.
Definition set_console v (b : Browser) : Browser :=
  {| intervals := intervals b; frames := frames b; nextHandle := nextHandle b;
     localStorage := localStorage b; remote := remote b; calls := calls b;
     toasts := toasts b; console := v |}.

Definition upd_st (f : State -> State) (w : World) : World :=
  {| st := f (st w); refs := refs w; env := env w |}.
Definition upd_refs (f : Refs -> Refs) (w : World) : World :=
  {| st := st w; refs := f (refs w); env := env w |}.
Definition upd_env (f : Browser -> Browser) (w : World) : World :=
  {| st := st w; refs := refs w; env := f (env w) |}.

(** ** The monad of handlers: state and exceptions *)

Inductive Res (A : Type) : Type :=
  | Ok (a : A)
  | Throw (e : string).
Arguments Ok {A} a.
Arguments Throw {A} e.

Definition M (A : Type) : Type := World -> Res A * World.

Definition ret {A} (a : A) : M A := fun w => (Ok a, w).

Definition bind {A B} (m : M A) (k : A -> M B) : M B :=
  fun w =>
    match m w with
    | (Ok a, w') => k a w'
    | (Throw e, w') => (Throw e, w')
    end.

Definition throw {A} (e : string) : M A := fun w => (Throw e, w).

(** [try { body } catch (error) { handler }]. *)
Definition try_catch {A} (body : M A) (handler : string -> M A) : M A :=
  fun w =>
    match body w with
    | (Ok a, w') => (Ok a, w')
    | (Throw e, w') => handler e w'
    end.

(** [try { body } finally { final }]: [final] runs on both exits and the
    outcome of [body] stands unless [final] itself throws. *)
Definition try_finally {A} (body : M A) (final : M unit) : M A :=
  fun w =>
    match body w with
    | (r, w') =>
        match final w' with
        | (Ok _, w'') => (r, w'')
        | (Throw e, w'') => (Throw e, w'')
        end
    end.

Definition get_world : M World := fun w => (Ok w, w).
Definition modify (f : World -> World) : M unit := fun w => (Ok tt, f w).

(** The world a handler leaves behind. *)
Definition exec {A} (m : M A) (w : World) : World := snd (m w).

Declare Scope handler_scope.
Delimit Scope handler_scope with handler.
Notation "x <- c1 ;; c2" := (bind c1 (fun x => c2))
  (at level 100, c1 at next level, right associativity) : handler_scope.
Notation "c1 ;; c2" := (bind c1 (fun _ => c2))
  (at level 100, c2 at level 200, right associativity) : handler_scope.
Local Open Scope handler_scope.

(** ** State setters, notifications and the platform *)

Definition setUser v : M unit := modify (upd_st (set_user v)).
Definition setLoading v : M unit := modify (upd_st (set_loading v)).
Definition setIsRecording v : M unit := modify (upd_st (set_isRecording v)).
Definition setIsPaused v : M unit := modify (upd_st (set_isPaused v)).
Definition setTranscriptionText v : M unit := modify (upd_st (set_transcriptionText v)).
Definition setIsTranscribing v : M unit := modify (upd_st (set_isTranscribing v)).
Definition setSelectedLanguage v : M unit := modify (upd_st (set_selectedLanguage v)).
Definition setRecordingDuration v : M unit := modify (upd_st (set_recordingDuration v)).
Definition setAudioLevel v : M unit := modify (upd_st (set_audioLevel v)).
Definition setSessions v : M unit := modify (upd_st (set_sessions v)).

(** The updater forms, [setX(prev => f prev)], read the live cell. *)
Definition setSessions_fn (f : list TranscriptionSession -> list TranscriptionSession) : M unit :=
  modify (upd_st (fun s => set_sessions (f (sessions s)) s)).
Definition setRecordingDuration_fn (f : Z -> Z) : M unit :=
  modify (upd_st (fun s => set_recordingDuration (f (recordingDuration s)) s)).

Definition toast_success (msg : string) : M unit :=
  modify (upd_env (fun b => set_toasts (toasts b ++ [ToastSuccess msg]) b)).
Definition toast_error (msg : string) : M unit :=
  modify (upd_env (fun b => set_toasts (toasts b ++ [ToastError msg]) b)).
Definition console_error (msg : string) : M unit :=
  modify (upd_env (fun b => set_console (console b ++ [msg]) b)).

Definition log_call (c : Call) : M unit :=
  modify (upd_env (fun b => set_calls (calls b ++ [c]) b)).

(** [localStorage.getItem] and [localStorage.setItem]; either can throw
    (storage disabled, quota exceeded), which [storage_ok] decides. *)
Definition localStorage_getItem (o : Outside) (key : string) : M (option string) :=
  if storage_ok o then fun w => (Ok (localStorage (env w) !! key), w)
  else throw "SecurityError".

Definition localStorage_setItem (o : Outside) (key value : string) : M unit :=
  if storage_ok o
  then modify (upd_env (fun b => set_localStorage (<[key := value]> (localStorage b)) b))
  else throw "QuotaExceededError".

(** Timers and animation frames hand out fresh handles. *)
Definition fresh_handle : M positive :=
  fun w => let h := nextHandle (env w) in (Ok h, upd_env (set_nextHandle (Pos.succ h)) w).

Definition setInterval : M positive :=
  h <- fresh_handle;;
  modify (upd_env (fun b => set_intervals ({[h]} ∪ intervals b) b));;
  ret h.

Definition clearInterval (h : positive) : M unit :=
  modify (upd_env (fun b => set_intervals (intervals b ∖ {[h]}) b)).

Definition requestAnimationFrame : M positive :=
  h <- fresh_handle;;
  modify (upd_env (fun b => set_frames ({[h]} ∪ frames b) b));;
  ret h.

Definition cancelAnimationFrame (h : positive) : M unit :=
  modify (upd_env (fun b => set_frames (frames b ∖ {[h]}) b)).

(** The [MediaRecorder] methods on the object held by the ref.  [pause] and
    [resume] throw on an inactive recorder; [stop] leaves it inactive.  A
    recorder changes its state through these calls only: one that stops by
    itself because its tracks have ended is not modelled. *)
Definition with_recorder (f : MediaRecorder -> M unit) : M unit :=
  w <- get_world;;
  match mediaRecorderRef (refs w) with
  | Some mr => f mr
  | None => throw "TypeError: mediaRecorderRef.current is null"
  end.

Definition set_recorder_state (s : RecordingState) (mr : MediaRecorder) : M unit :=
  modify (upd_refs (set_mediaRecorderRef
                      (Some {| mr_state := s; mr_onstop := mr_onstop mr |}))).

Definition MediaRecorder_pause : M unit :=
  with_recorder (fun mr =>
    match mr_state mr with
    | inactive => throw "InvalidStateError"
    | _ => set_recorder_state paused mr
    end).

Definition MediaRecorder_resume : M unit :=
  with_recorder (fun mr =>
    match mr_state mr with
    | inactive => throw "InvalidStateError"
    | _ => set_recorder_state recording mr
    end).

Definition MediaRecorder_stop : M unit :=
  with_recorder (set_recorder_state inactive).

(** ** The remote table (blink.db.transcriptionSessions)

    A call is logged, then resolves or rejects as the outside decides; a
    rejected call leaves the table as it was. *)

Fixpoint insert_desc (r : DbRow) (l : list DbRow) : list DbRow :=
  match l with
  | [] => [r]
  | x :: l' =>
      if String.leb (row_createdAt x) (row_createdAt r) then r :: l
      else x :: insert_desc r l'
  end.

(** [where: { userId }, orderBy: { createdAt: 'desc' }, limit: 10]. *)
Definition query (userId : string) (rows : list DbRow) : list DbRow :=
  take 10 (fold_right insert_desc []
             (List.filter (fun r => String.eqb (row_userId r) userId) rows)).

Definition db_list (o : Outside) (userId : string) : M (list DbRow) :=
  log_call (CallList userId);;
  if db_list_ok o then fun w => (Ok (query userId (remote (env w))), w)
  else throw "NetworkError".

Definition db_create_row (o : Outside) (userId text language : string) (duration : Z)
    (createdAt : string) : M DbRow :=
  log_call (CallCreate userId text language duration createdAt);;
  match db_create o with
  | Some i =>
      let row := {| row_id := i; row_userId := userId; row_text := text;
                    row_language := language; row_duration := duration;
                    row_createdAt := createdAt |} in
      modify (upd_env (fun b => set_remote (remote b ++ [row]) b));;
      ret row
  | None => throw "NetworkError"
  end.

Definition db_delete (o : Outside) (sessionId : string) : M unit :=
  log_call (CallDelete sessionId);;
  if db_delete_ok o
  then modify (upd_env (fun b =>
         set_remote (List.filter (fun r => negb (String.eqb (row_id r) sessionId))
                                 (remote b)) b))
  else throw "NetworkError".

(** [blink.ai.transcribeAudio]. *)
Definition transcribeAudio (o : Outside) (audio : option string) (language : string)
    : M string :=
  log_call (CallTranscribe audio language);;
  match transcription o with
  | Some text => ret text
  | None => throw "TranscriptionError"
  end.

(** ** Sessions as JSON *)

(** What [JSON.stringify] sees of a session: the properties in the order of
    the object literal, the [Date] through its [toJSON]. *)
Definition session_toJSON (s : TranscriptionSession) : JSON.value :=
  JSON.Obj [("id", JSON.Str (Session.id s));
            ("text", JSON.Str (Session.text s));
            ("timestamp", match Session.timestamp s with
                          | ValidDate ms => JSON.Str (JsDate.toISOString ms)
                          | InvalidDate => JSON.Null
                          end);
            ("language", JSON.Str (Session.language s));
            ("duration", JSON.Num (Session.duration s))].

(** [JSON.stringify(sessions)]. *)
Definition JSON_stringify_sessions (l : list TranscriptionSession) : string :=
  JSON.stringify (JSON.Arr (List.map session_toJSON l)).

(** [new Date(session.timestamp)] on a parsed property. *)
Definition Date_of_property (v : option JSON.value) : Date :=
  match v with
  | Some (JSON.Str s) => JsDate.parse s
  | Some (JSON.Num n) => ValidDate n
  | Some JSON.Null => ValidDate 0
  | Some (JSON.Bool b) => ValidDate (if b then 1 else 0)
  | _ => InvalidDate
  end.

(** [{ ...session, timestamp: new Date(session.timestamp) }] as a session
    record.  A parsed element that is not an object with the four typed
    properties has no counterpart in [TranscriptionSession]. *)
Definition session_of_JSON (v : JSON.value) : option TranscriptionSession :=
  match v with
  | JSON.Obj ms =>
      match JSON.get "id" ms, JSON.get "text" ms, JSON.get "language" ms,
            JSON.get "duration" ms with
      | Some (JSON.Str i), Some (JSON.Str t), Some (JSON.Str l), Some (JSON.Num d) =>
          Some {| Session.id := i; Session.text := t;
                  Session.timestamp := Date_of_property (JSON.get "timestamp" ms);
                  Session.language := l; Session.duration := d |}
      | _, _, _, _ => None
      end
  | _ => None
  end.

Fixpoint sessions_of_JSON (items : list JSON.value) : option (list TranscriptionSession) :=
  match items with
  | [] => Some []
  | v :: rest =>
      match session_of_JSON v, sessions_of_JSON rest with
      | Some s, Some l => Some (s :: l)
      | _, _ => None
      end
  end.

(** [JSON.parse(stored)] followed by [sessions.map(...)]: a SyntaxError for
    text that is not JSON, a TypeError for a value without [map].  The list
    of the model holds typed sessions: an array with an element that is no
    object with the four typed properties (where the code would display an
    object that is no session) is outside the model, and the exception here
    marks that boundary; the text that the page itself writes is inside. *)
Definition parse_sessions (stored : string) : M (list TranscriptionSession) :=
  match JSON.parse stored with
  | None => throw "SyntaxError"
  | Some (JSON.Arr items) =>
      match sessions_of_JSON items with
      | Some l => ret l
      | None => throw "TypeError"
      end
  | Some _ => throw "TypeError: sessions.map is not a function"
  end.

(** ** The handlers of the component *)

(** [user.id]; a TypeError when [user] is null. *)
Definition user_id (cl : State) : M string :=
  match user cl with
  | Some u => ret (uid u)
  | None => throw "TypeError: user is null"
  end.

(** The key under which a user's sessions are kept in [localStorage]. *)
Definition storage_key (userId : string) : string :=
  "transcription_sessions_" +:+ userId.

(** Lines 63-76. *)
Definition loadSessionsFromLocalStorage (cl : State) (o : Outside) : M unit :=
  try_catch
    (userId <- user_id cl;;
     stored <- localStorage_getItem o (storage_key userId);;
     match stored with
     | Some text =>
         if String.eqb text "" then ret tt
         else (l <- parse_sessions text;; setSessions l)
     | None => ret tt
     end)
    (fun _ => console_error "Failed to load sessions from local storage:").

Definition session_of_row (r : DbRow) : TranscriptionSession :=
  {| Session.id := row_id r; Session.text := row_text r;
     Session.timestamp := JsDate.parse (row_createdAt r);
     Session.language := row_language r; Session.duration := row_duration r |}.

(** Lines 78-98. *)
Definition loadSessions (cl : State) (o : Outside) : M unit :=
  try_catch
    (userId <- user_id cl;;
     data <- db_list o userId;;
     setSessions (List.map session_of_row data))
    (fun _ =>
       console_error "Failed to load sessions from database:";;
       loadSessionsFromLocalStorage cl o).

(** Lines 100-106. *)
Definition saveSessionsToLocalStorage (cl : State) (o : Outside)
    (l : list TranscriptionSession) : M unit :=
  try_catch
    (userId <- user_id cl;;
     localStorage_setItem o (storage_key userId) (JSON_stringify_sessions l))
    (fun _ => console_error "Failed to save sessions to local storage:").

(** The effect of lines 109-113: sessions are loaded once a user is known. *)
Definition onUserChange (cl : State) (o : Outside) : M unit :=
  match user cl with
  | Some _ => loadSessions cl o
  | None => ret tt
  end.

(** The object literal of lines 116-122. *)
Definition newSession (cl : State) (o : Outside) (text : string) (duration : Z)
    : TranscriptionSession :=
  {| Session.id := "session_" +:+ Js.Number_toString (now_id o) +:+ "_"
                   +:+ Js.substr 2 9 (random36 o);
     Session.text := text;
     Session.timestamp := ValidDate (now_timestamp o);
     Session.language := selectedLanguage cl;
     Session.duration := duration |}.

(** Lines 115-147. *)
Definition saveSession (cl : State) (o : Outside) (text : string) (duration : Z)
    : M unit :=
  let newSession := newSession cl o text duration in
  try_catch
    (userId <- user_id cl;;
     dbSession <- db_create_row o userId text (selectedLanguage cl) duration
                    (JsDate.toISOString (now_createdAt o));;
     let newSession := Session.with_id (row_id dbSession) newSession in
     setSessions_fn (fun prev => newSession :: take 9 prev);;
     toast_success "Session saved!")
    (fun _ =>
       console_error "Failed to save session to database:";;
       let updatedSessions := newSession :: take 9 (sessions cl) in
       setSessions updatedSessions;;
       saveSessionsToLocalStorage cl o updatedSessions;;
       toast_success "Session saved locally!").

(** *** Audio level (lines 249-259) *)

(** [getByteFrequencyData] fills an array of [frequencyBinCount] bytes. *)
Definition getByteFrequencyData (a : AnalyserNode) (o : Outside) : list byte :=
  let n := N.to_nat (frequencyBinCount a) in
  take n (spectrum o ++ replicate n x00).

Definition sum_bytes (dataArray : list byte) : Z :=
  fold_left (fun sum value => sum + Z.of_N (Byte.to_N value)) dataArray 0.

(** [Math.min(100, (average / 128) * 100)], where [average] is the sum over
    the length; on the empty array the quotient is [0 / 0]. *)
Definition level_of (dataArray : list byte) : Level :=
  match dataArray with
  | [] => NaN
  | _ =>
      let average := (inject_Z (sum_bytes dataArray)
                      / inject_Z (Z.of_nat (length dataArray)))%Q in
      Lvl (Qmin 100 (average / 128 * 100))
  end.

Definition monitorAudioLevel (o : Outside) : M unit :=
  w <- get_world;;
  match analyserRef (refs w) with
  | Some analyser =>
      let dataArray := getByteFrequencyData analyser o in
      setAudioLevel (level_of dataArray);;
      h <- requestAnimationFrame;;
      modify (upd_refs (set_animationFrameRef (Some h)))
  | None => ret tt
  end.

(** *** Saving a finished recording (lines 261-299) *)

(** [reader.readAsDataURL(audioBlob)] behind the promise: the part of the
    data URL after the first comma, [undefined] when there is none; a
    rejection when the reader fails. *)
Definition readAsBase64 (o : Outside) (audioBlob : Blob) : M (option string) :=
  match reader o with
  | Some dataUrl => ret (Js.split "," dataUrl !! 1%nat)
  | None => throw "FileReader error"
  end.

Definition processRecording (cl : State) (o : Outside) : M unit :=
  w <- get_world;;
  if (length (audioChunksRef (refs w)) =? 0)%nat then ret tt
  else
    setIsTranscribing true;;
    try_finally
      (try_catch
         (let audioBlob : Blob := concat (audioChunksRef (refs w)) in
          base64Audio <- readAsBase64 o audioBlob;;
          text <- transcribeAudio o base64Audio (selectedLanguage cl);;
          setTranscriptionText text;;
          saveSession cl o text (recordingDuration cl);;
          toast_success "Transcription completed!")
         (fun _ =>
            console_error "Transcription failed:";;
            toast_error "Transcription failed. Please try again."))
      (setIsTranscribing false).

(** *** Recording controls (lines 149-247) *)

(** Lines 178-182, the recorder's [ondataavailable]. *)
Definition ondataavailable (data : Blob) : M unit :=
  if (0 <? length data)%nat
  then modify (upd_refs (fun r => set_audioChunksRef (audioChunksRef r ++ [data]) r))
  else ret tt.

(** Lines 184-186: [onstop] runs the [processRecording] of the render in
    which the recorder was created. *)
Definition onstop (o : Outside) : M unit :=
  with_recorder (fun mr => processRecording (mr_onstop mr) o).

(** Lines 194-196 and 235-237, one tick of a running interval. *)
Definition onInterval (h : positive) : M unit :=
  w <- get_world;;
  if decide (h ∈ intervals (env w))
  then setRecordingDuration_fn (fun prev => prev + 1)
  else ret tt.

(** A pending animation frame fires once and calls [monitorAudioLevel]. *)
Definition onAnimationFrame (h : positive) (o : Outside) : M unit :=
  w <- get_world;;
  if decide (h ∈ frames (env w))
  then cancelAnimationFrame h;; monitorAudioLevel o
  else ret tt.

(** Lines 149-203.  [startRecording] awaits [getUserMedia] before its first
    effect: this is the function from the moment the request settles
    ([microphone o] tells how), run in the world of that moment with the
    closure [cl] of the render in which the button was clicked. *)
Definition startRecording (cl : State) (o : Outside) : M unit :=
  try_catch
    ((if microphone o then ret tt else throw "NotAllowedError");;
     modify (upd_refs (set_streamRef (Some {| tracksStopped := false |})));;
     modify (upd_refs (set_audioChunksRef []));;
     modify (upd_refs (set_audioContextRef (Some {| closed := false |})));;
     modify (upd_refs (set_analyserRef (Some {| fftSize := 2048 |})));;
     modify (upd_refs (set_analyserRef (Some {| fftSize := 256 |})));;
     monitorAudioLevel o;;
     (if mimeSupported o then ret tt else throw "NotSupportedError");;
     modify (upd_refs (set_mediaRecorderRef
                         (Some {| mr_state := inactive; mr_onstop := cl |})));;
     with_recorder (set_recorder_state recording);;
     setIsRecording true;;
     setIsPaused false;;
     setRecordingDuration 0;;
     h <- setInterval;;
     modify (upd_refs (set_durationIntervalRef (Some h)));;
     toast_success "Recording started!")
    (fun _ =>
       console_error "Failed to start recording:";;
       toast_error "Failed to access microphone").

Definition stopRecording (cl : State) : M unit :=
  w <- get_world;;
  match mediaRecorderRef (refs w) with
  | Some _ =>
      if isRecording cl then
        MediaRecorder_stop;;
        setIsRecording false;;
        setIsPaused false;;
        r <- get_world;;
        match streamRef (refs r) with
        | Some _ => modify (upd_refs (set_streamRef (Some {| tracksStopped := true |})))
        | None => ret tt
        end;;
        match audioContextRef (refs r) with
        | Some _ => modify (upd_refs (set_audioContextRef (Some {| closed := true |})))
        | None => ret tt
        end;;
        match animationFrameRef (refs r) with
        | Some h => cancelAnimationFrame h
        | None => ret tt
        end;;
        match durationIntervalRef (refs r) with
        | Some h => clearInterval h
        | None => ret tt
        end;;
        setAudioLevel (Lvl 0)
      else ret tt
  | None => ret tt
  end.

Definition pauseRecording (cl : State) : M unit :=
  w <- get_world;;
  match mediaRecorderRef (refs w) with
  | Some _ =>
      if isRecording cl then
        if isPaused cl then
          MediaRecorder_resume;;
          setIsPaused false;;
          h <- setInterval;;
          modify (upd_refs (set_durationIntervalRef (Some h)))
        else
          MediaRecorder_pause;;
          setIsPaused true;;
          match durationIntervalRef (refs w) with
          | Some h => clearInterval h
          | None => ret tt
          end
      else ret tt
  | None => ret tt
  end.

(** *** Deleting a session (lines 323-339) *)

Definition without (sessionId : string) (l : list TranscriptionSession)
    : list TranscriptionSession :=
  List.filter (fun s => negb (String.eqb (Session.id s) sessionId)) l.

Definition deleteSession (cl : State) (o : Outside) (sessionId : string) : M unit :=
  try_catch
    (db_delete o sessionId;;
     let updatedSessions := without sessionId (sessions cl) in
     setSessions updatedSessions;;
     toast_success "Session deleted!")
    (fun _ =>
       console_error "Failed to delete session from database:";;
       let updatedSessions := without sessionId (sessions cl) in
       setSessions updatedSessions;;
       saveSessionsToLocalStorage cl o updatedSessions;;
       toast_success "Session deleted locally!").

(** *** Handlers as the page invokes them

    A button's [onClick] is the handler of the latest render, whose closure
    holds the current state cells. *)

Definition latest (h : State -> M unit) : M unit := fun w => h (st w) w.

(** A click on start whose microphone request settles before anything else
    happens. *)
Definition click_start (o : Outside) : M unit := latest (fun cl => startRecording cl o).
Definition click_pause : M unit := latest pauseRecording.
Definition click_stop : M unit := latest stopRecording.
Definition click_delete (o : Outside) (sessionId : string) : M unit :=
  latest (fun cl => deleteSession cl o sessionId).

(** *** formatDuration (lines 341-345)

    [Math.floor(seconds / 60)] is floor division and [%] is the remainder
    that takes the sign of the dividend.  Seconds are integers: this is the
    arithmetic of the code on the integers that a double holds exactly, up
    to [MAX_SAFE_INTEGER]. *)
Definition formatDuration (seconds : Z) : string :=
  let mins := seconds / 60 in
  let secs := Z.rem seconds 60 in
  Js.Number_toString mins +:+ ":" +:+ Js.padStart 2 "0" (Js.Number_toString secs).

(** [Number.MAX_SAFE_INTEGER], 2^53 - 1. *)
Definition MAX_SAFE_INTEGER : Z := 9007199254740991.

(** ** The page as a transition system

    Everything that can happen to the component is an [Event]; [step] runs
    the handler the page has installed for it.  An exception that escapes a
    handler leaves the effects made before it. *)

Inductive Event : Type :=
  | AuthChanged (u : option User) (isLoading : bool) (o : Outside)
  | SelectLanguage (code : string)
  | EditText (value : string)
  | ClickStart (o : Outside)
  | ClickPause
  | ClickStop
  | ClickDelete (o : Outside) (sessionId : string)
  | IntervalTick (h : positive)
  | AnimationFrame (h : positive) (o : Outside)
  | DataAvailable (data : Blob)
  | RecorderStopped (o : Outside).

Definition handler (e : Event) : M unit :=
  match e with
  | AuthChanged u isLoading o =>
      setUser u;; setLoading isLoading;; latest (fun cl => onUserChange cl o)
  | SelectLanguage code => setSelectedLanguage code
  | EditText value => setTranscriptionText value
  | ClickStart o => click_start o
  | ClickPause => click_pause
  | ClickStop => click_stop
  | ClickDelete o sessionId => click_delete o sessionId
  | IntervalTick h => onInterval h
  | AnimationFrame h o => onAnimationFrame h o
  | DataAvailable data => ondataavailable data
  | RecorderStopped o => onstop o
  end.

Definition step (e : Event) (w : World) : World := exec (handler e) w.

(** The controls exist only on the main page (lines 347-374): not while
    loading, and only for a signed-in user. *)
Definition page_shown (w : World) : bool :=
  negb (loading (st w)) && bool_decide (is_Some (user (st w))).

(** What the rendered page offers (lines 416-427, 458-486, 499, 549-561):
    the start button when not recording and not transcribing, pause and stop
    while recording, the supported languages, the text area once there is a
    text, a delete button per listed session.  Platform events are not
    gated. *)
Definition enabled (e : Event) (w : World) : bool :=
  match e with
  | SelectLanguage code =>
      page_shown w && existsb (String.eqb code) (List.map fst SUPPORTED_LANGUAGES)
  | EditText _ => page_shown w && negb (String.eqb (transcriptionText (st w)) "")
  | ClickStart _ =>
      page_shown w && negb (isRecording (st w)) && negb (isTranscribing (st w))
  | ClickPause | ClickStop => page_shown w && isRecording (st w)
  | ClickDelete _ sessionId =>
      page_shown w
      && existsb (String.eqb sessionId) (List.map Session.id (sessions (st w)))
  | AuthChanged _ _ _ | IntervalTick _ | AnimationFrame _ _ | DataAvailable _
  | RecorderStopped _ => true
  end.

(** The start button is on offer. *)
Definition start_offered (w : World) : bool :=
  page_shown w && negb (isRecording (st w)) && negb (isTranscribing (st w)).

(** The states the page can reach, with the microphone requests that have
    not settled yet.  A click on start only issues the request (line 151)
    and changes nothing, so the button stays on offer and can be clicked
    again; each request is kept with the render of its click and settles at
    some later moment, in any order, running [startRecording] from there in
    the world of that moment.  [ClickStart] is the special case of a request
    that settles before anything else happens. *)
Inductive reachable_with : list State -> World -> Prop :=
  | reachable_init : reachable_with [] initialWorld
  | reachable_step e w pending :
      reachable_with pending w -> enabled e w = true ->
      reachable_with pending (step e w)
  | reachable_click w pending :
      reachable_with pending w -> start_offered w = true ->
      reachable_with (pending ++ [st w]) w
  | reachable_settle cl o w before after :
      reachable_with (before ++ cl :: after) w ->
      reachable_with (before ++ after) (exec (startRecording cl o) w).

Definition reachable (w : World) : Prop := exists pending, reachable_with pending w.

(** ** Vocabulary of the properties *)

(** The recorder held by the ref agrees with the two flags. *)
Definition recorder_consistent (w : World) : Prop :=
  isRecording (st w) = true ->
  exists mr, mediaRecorderRef (refs w) = Some mr
             /\ mr_state mr = if isPaused (st w) then paused else recording.

(** The analyser held by the ref has the size that [startRecording] sets. *)
Definition analyser_sized (w : World) : Prop :=
  forall a, analyserRef (refs w) = Some a -> fftSize a = 256%N.

(** The timer whose handle the ref holds runs exactly while recording and
    not paused.  (Other timers may run: the ref holds the last handle
    only.) *)
Definition ticking (w : World) : Prop :=
  if isRecording (st w) && negb (isPaused (st w))
  then exists h, durationIntervalRef (refs w) = Some h /\ h ∈ intervals (env w)
  else forall h, durationIntervalRef (refs w) = Some h -> h ∉ intervals (env w).

(** A running timer that the ref does not hold, with a handle that has been
    given out. *)
Definition orphan_timer (h : positive) (w : World) : Prop :=
  h ∈ intervals (env w)
  /\ (h < nextHandle (env w))%positive
  /\ durationIntervalRef (refs w) <> Some h.

(** The states that can follow a state: after any events of the page and
    any microphone requests settling, in any order. *)
Inductive follows (w : World) : World -> Prop :=
  | follows_here : follows w w
  | follows_step e w' : follows w w' -> follows w (step e w')
  | follows_settle cl o w' : follows w w' -> follows w (exec (startRecording cl o) w').

(** A pending animation frame that the ref does not hold. *)
Definition orphan_frame (h : positive) (w : World) : Prop :=
  h ∈ frames (env w)
  /\ (h < nextHandle (env w))%positive
  /\ animationFrameRef (refs w) <> Some h.

(** What the timers depend on. *)
Definition timers (w : World) : option positive * gset positive * positive :=
  (durationIntervalRef (refs w), intervals (env w), nextHandle (env w)).

Definition invariant (w : World) : Prop :=
  recorder_consistent w /\ analyser_sized w /\ ticking w.

(** The decimal digit of a value below ten. *)
Definition digit (d : Z) : ascii := ascii_of_nat (48 + Z.to_nat d).

(** The two-digit, zero-padded rendering of a value below one hundred. *)
Definition two_digits (n : Z) : string :=
  String (digit (n / 10)) (String (digit (n mod 10)) "").

(** The time value of a date, when it has one. *)
Definition time_of (d : Date) : option Z :=
  match d with
  | ValidDate ms => Some ms
  | InvalidDate => None
  end.

(** [a] is at least as recent as [b]. *)
Definition not_older (a b : TranscriptionSession) : Prop :=
  match time_of (Session.timestamp a), time_of (Session.timestamp b) with
  | Some x, Some y => y <= x
  | _, _ => False
  end.

(** A list in most-recent-first order. *)
Definition recent_first (l : list TranscriptionSession) : Prop :=
  Sorted not_older l.

Definition ids (l : list TranscriptionSession) : list string :=
  List.map Session.id l.

(** What the level monitor owns: the analyser, the pending frame and the
    level it last wrote. *)
Definition monitoring (w : World) : option AnalyserNode * option positive * gset positive * Level :=
  (analyserRef (refs w), animationFrameRef (refs w), frames (env w), audioLevel (st w)).

(** Every change a handler makes to [localStorage] is a write of a
    serialized session list under [key]. *)
Definition writes_at (key : string) (before after : gmap string string) : Prop :=
  after = before \/ exists l, after = <[key := JSON_stringify_sessions l]> before.

(** The world with another content of [localStorage]. *)
Definition with_localStorage (ls : gmap string string) (w : World) : World :=
  upd_env (set_localStorage ls) w.

(** What the recording controls and the level monitor rely on. *)
Definition control (w : World)
    : bool * bool * option MediaRecorder * option AnalyserNode
      * option positive * gset positive :=
  (isRecording (st w), isPaused (st w), mediaRecorderRef (refs w), analyserRef (refs w),
   durationIntervalRef (refs w), intervals (env w)).

(** A level between 0 and 100. *)
Definition in_range (l : Level) : Prop :=
  exists q, l = Lvl q /\ (0 <= q)%Q /\ (q <= 100)%Q.

(** The world in which [saveSession] starts on the success path: the
    transcribing flag is up, the request is logged, the text is shown. *)
Definition transcribed (cl : State) (o : Outside) (text : string) (w : World) : World :=
  exec (setIsTranscribing true;;
        log_call (CallTranscribe (from_option (fun dataUrl => Js.split "," dataUrl !! 1%nat)
                                              None (reader o))
                                 (selectedLanguage cl));;
        setTranscriptionText text) w.

(** ** Sample data *)

Definition alice : User := {| uid := "u1"; email := "alice@example.org" |}.

(** Every outside call succeeds. *)
Definition online : Outside :=
  {| now_id := 1730543021123; now_timestamp := 1730543021123;
     now_createdAt := 1730543021124; random36 := "0.4fzyo82mvyr";
     db_list_ok := true; db_create := Some "row_1"; db_delete_ok := true;
     storage_ok := true; microphone := true; mimeSupported := true;
     reader := Some "data:audio/webm;base64,GkXfo59C";
     transcription := Some "hello world"; spectrum := [x80; xff; x00] |}.

(** The backend is unreachable; the browser works. *)
Definition offline : Outside :=
  {| now_id := 1730543021123; now_timestamp := 1730543021123;
     now_createdAt := 1730543021124; random36 := "0.4fzyo82mvyr";
     db_list_ok := false; db_create := None; db_delete_ok := false;
     storage_ok := true; microphone := true; mimeSupported := true;
     reader := Some "data:audio/webm;base64,GkXfo59C";
     transcription := None; spectrum := [x80; xff; x00] |}.

(** The backend is unreachable and [localStorage] throws. *)
Definition offline_full : Outside :=
  {| now_id := 1730543021123; now_timestamp := 1730543021123;
     now_createdAt := 1730543021124; random36 := "0.4fzyo82mvyr";
     db_list_ok := false; db_create := None; db_delete_ok := false;
     storage_ok := false; microphone := true; mimeSupported := true;
     reader := None; transcription := None; spectrum := [] |}.

Definition signedIn : State := set_user (Some alice) (set_loading false initialState).

(** The page after sign-in, with nothing stored anywhere. *)
Definition home : World := step (AuthChanged (Some alice) false online) initialWorld.

Definition older : TranscriptionSession :=
  {| Session.id := "row_0"; Session.text := "first note";
     Session.timestamp := ValidDate 1730000000000; Session.language := "en";
     Session.duration := 5 |}.

(** A signed-in page that shows one earlier session, also kept locally. *)
Definition home_with_history : World :=
  {| st := set_sessions [older] signedIn;
     refs := initialRefs;
     env := set_localStorage {[ storage_key "u1" := JSON_stringify_sessions [older] ]}
              initialBrowser |}.

(** A recording in progress: the page after a click on the start button. *)
Definition in_session : World := step (ClickStart online) home.

(** The same recording after five ticks of the duration timer, whose handle
    is 2 (the first animation frame took 1). *)
Definition five_seconds_in : World := Nat.iter 5 (step (IntervalTick 2)) in_session.

(** The recording of [five_seconds_in] delivered one chunk, was stopped, and
    its [onstop] has run with every outside call succeeding. *)
Definition finished : World :=
  step (RecorderStopped online)
    (step ClickStop (step (DataAvailable [x1a; x45; xdf; xa3]) five_seconds_in)).

(** Transcription works, the remote table does not. *)
Definition flaky : Outside :=
  {| now_id := 1730543099000; now_timestamp := 1730543099000;
     now_createdAt := 1730543099001; random36 := "0.k3j9x0a7q2";
     db_list_ok := false; db_create := None; db_delete_ok := false;
     storage_ok := true; microphone := true; mimeSupported := true;
     reader := Some "data:audio/webm;base64,GkXfo59C";
     transcription := Some "second note"; spectrum := [x10; x20] |}.

(** A session is deleted while a recording runs; the recording is then
    stopped and saved through the local fallback. *)
Definition deleted_while_recording : World :=
  step (RecorderStopped flaky)
    (step ClickStop
       (step (ClickDelete online "row_0")
          (step (DataAvailable [x1a; x45; xdf; xa3])
             (step (ClickStart online) home_with_history)))).

(** A session dated after the clock of [online], as a row saved from a
    device whose clock is ahead gives one. *)
Definition newer : TranscriptionSession :=
  {| Session.id := "row_9"; Session.text := "from the other device";
     Session.timestamp := ValidDate 1730550000000; Session.language := "en";
     Session.duration := 7 |}.

(** Ten earlier sessions, most recent first, a minute apart. *)
Definition ten_sessions : list TranscriptionSession :=
  List.map (fun k => {| Session.id := "old_" +:+ Js.Number_toString k;
                        Session.text := "note";
                        Session.timestamp := ValidDate (1730000000000 - 60000 * k);
                        Session.language := "en"; Session.duration := k |})
           [0; 1; 2; 3; 4; 5; 6; 7; 8; 9].

(** The start button of [home] clicked twice before the first microphone
    request was granted; then both are granted. *)
Definition double_start : World :=
  exec (startRecording (st home) online) (exec (startRecording (st home) online) home).

(** ** Traces *)

(** The world after a sequence of events, oldest first. *)
Definition run_events (es : list Event) (w : World) : World :=
  fold_left (fun w e => step e w) es w.

Definition is_start (e : Event) : bool :=
  match e with
  | ClickStart _ => true
  | _ => false
  end.

(** The chunks that [ondataavailable] keeps. *)
Definition kept_chunks (ds : list Blob) : list Blob :=
  List.filter (fun d => (0 <? length d)%nat) ds.

(** The render whose [processRecording] the recorder's [onstop] will run. *)
Definition onstop_render (w : World) : option State :=
  mr_onstop <$> mediaRecorderRef (refs w).

(** The microphone is refused. *)
Definition no_microphone : Outside :=
  {| now_id := 0; now_timestamp := 0; now_createdAt := 0; random36 := "0.1";
     db_list_ok := true; db_create := None; db_delete_ok := true; storage_ok := true;
     microphone := false; mimeSupported := true; reader := None;
     transcription := None; spectrum := [] |}.

(** The browser does not record "audio/webm;codecs=opus". *)
Definition no_recorder : Outside :=
  {| now_id := 0; now_timestamp := 0; now_createdAt := 0; random36 := "0.1";
     db_list_ok := true; db_create := None; db_delete_ok := true; storage_ok := true;
     microphone := true; mimeSupported := false; reader := None;
     transcription := None; spectrum := [] |}.

(** ** Vocabulary of the round trips *)

(** ** Fixed-width decimal fields *)

(** The text of [v] in exactly two, three and four decimal digits. *)
Definition fixed2 (v : Z) : string :=
  String (digit (v / 10)) (String (digit (v mod 10)) "").
Definition fixed3 (v : Z) : string :=
  String (digit (v / 100)) (fixed2 (v mod 100)).
Definition fixed4 (v : Z) : string :=
  String (digit (v / 1000)) (fixed3 (v mod 1000)).

(** Whether [f] holds of every integer from 0 up to [n], counting upwards. *)
Definition all_below (n : N) (f : Z -> bool) : bool :=
  fst (N.iter n (fun p => (fst p && f (snd p), snd p + 1)) (true, 0)).

(** For a day [doe] of a 400-year era: the year of the era, month and day
    that [civil_from_days] computes are in range, [days_from_civil] leads
    back to [doe], and the year is carried into the next one (January and
    February of year 399) exactly on the last 60 days. *)
Definition era_day_ok (doe : Z) : bool :=
  let yoe := (doe - doe / 1460 + doe / 36524 - doe / 146096) / 365 in
  let doy := doe - (365 * yoe + yoe / 4 - yoe / 100) in
  let mp := (5 * doy + 2) / 153 in
  let d := doy - (153 * mp + 2) / 5 + 1 in
  let m := if mp <? 10 then mp + 3 else mp - 9 in
  let doy' := (153 * (if 2 <? m then m - 3 else m + 9) + 2) / 5 + d - 1 in
  (0 <=? yoe) && (yoe <? 400) && (1 <=? m) && (m <=? 12) && (1 <=? d) && (d <=? 31)
  && (yoe * 365 + yoe / 4 - yoe / 100 + doy' =? doe)
  && Bool.eqb ((yoe =? 399) && (m <=? 2)) (146037 <=? doe).

(** The first and the last millisecond that [toISOString] writes with a
    four-digit year: 0000-01-01T00:00:00.000Z and 9999-12-31T23:59:59.999Z. *)
Definition min_four_digit_year : Z := -62167219200000.
Definition max_four_digit_year : Z := 253402300799999.

(** Where the text of a JSON value may end: at the end of the input or
    before a separator. *)
Definition at_delimiter (s : string) : bool :=
  match s with
  | EmptyString => true
  | String c _ => Ascii.eqb c "," || Ascii.eqb c "]" || Ascii.eqb c "}"
  end.

(** The characters with which [JSON.stringify] starts the text of a value. *)
Definition starts_value (c : ascii) : bool :=
  Ascii.eqb c "[" || Ascii.eqb c "{" || Ascii.eqb c Js.dquote || Ascii.eqb c "n"
  || Ascii.eqb c "t" || Ascii.eqb c "f" || Ascii.eqb c "-"
  || match JsDate.digit_val c with Some _ => true | None => false end.

(** The text [JSON.stringify] writes for one member of an object. *)
Definition member_text (kv : string * JSON.value) : string :=
  JSON.quote (fst kv) +:+ ":" +:+ JSON.stringify (snd kv).

(** A value whose text is read back, given fuel for its length, whatever
    separator follows. *)
Definition reads_back (v : JSON.value) : Prop :=
  forall fuel rest,
    (String.length (JSON.stringify v) < fuel)%nat ->
    at_delimiter rest = true ->
    JSON.parse_value fuel (JSON.stringify v +:+ rest) = Some (v, rest).

(** A session whose timestamp, when it is a time value at all, lies in the
    years that [toISOString] writes with four digits. *)
Definition in_four_digit_years (s : TranscriptionSession) : bool :=
  match Session.timestamp s with
  | ValidDate ms => (min_four_digit_year <=? ms) && (ms <=? max_four_digit_year)
  | InvalidDate => true
  end.

(** What a session looks like after it went through the local storage: an
    invalid date is written as [null] and read as the epoch. *)
Definition after_reload (s : TranscriptionSession) : TranscriptionSession :=
  match Session.timestamp s with
  | ValidDate _ => s
  | InvalidDate =>
      {| Session.id := Session.id s; Session.text := Session.text s;
         Session.timestamp := ValidDate 0;
         Session.language := Session.language s;
         Session.duration := Session.duration s |}
  end.

(** The [createdAt] of the row is the text that [toISOString] writes for
    the instant [ms], as [saveSession] writes it. *)
Definition createdAt_time (r : DbRow) (ms : Z) : Prop :=
  row_createdAt r = JsDate.toISOString ms
  /\ min_four_digit_year <= ms <= max_four_digit_year.

(** The session that [loadSessions] shows for the row that [saveSession]
    has created under the id [i]. *)
Definition as_reloaded_row (i : string) (createdAt : Z) (s : TranscriptionSession)
    : TranscriptionSession :=
  {| Session.id := i; Session.text := Session.text s;
     Session.timestamp := ValidDate createdAt;
     Session.language := Session.language s;
     Session.duration := Session.duration s |}.

(** * Part II: properties *)

(** ** Running handlers *)

Ltac run :=
  cbv beta iota zeta delta
    [exec bind ret throw try_catch try_finally modify get_world with_recorder
     set_recorder_state upd_st upd_refs upd_env
     saveSession saveSessionsToLocalStorage deleteSession loadSessions
     loadSessionsFromLocalStorage processRecording db_create_row db_delete db_list
     transcribeAudio readAsBase64 user_id localStorage_setItem localStorage_getItem
     log_call console_error toast_success toast_error
     setUser setLoading setSessions setSessions_fn setIsTranscribing
     setTranscriptionText setIsRecording setIsPaused setAudioLevel
     setSelectedLanguage setRecordingDuration setRecordingDuration_fn
     fresh_handle setInterval clearInterval requestAnimationFrame
     cancelAnimationFrame MediaRecorder_pause MediaRecorder_resume
     MediaRecorder_stop parse_sessions monitorAudioLevel
     step handler latest click_start click_pause click_stop click_delete onUserChange
     onInterval onAnimationFrame ondataavailable onstop
     startRecording stopRecording pauseRecording fst snd] in *;
  cbn [st refs env
       user loading isRecording isPaused transcriptionText isTranscribing
       selectedLanguage recordingDuration audioLevel sessions
       mediaRecorderRef audioChunksRef streamRef audioContextRef analyserRef
       animationFrameRef durationIntervalRef
       intervals frames nextHandle localStorage remote calls toasts console
       set_user set_loading set_isRecording set_isPaused set_transcriptionText
       set_isTranscribing set_selectedLanguage set_recordingDuration
       set_audioLevel set_sessions
       set_mediaRecorderRef set_audioChunksRef set_streamRef set_audioContextRef
       set_analyserRef set_animationFrameRef set_durationIntervalRef
       set_intervals set_frames set_nextHandle set_localStorage set_remote
       set_calls set_toasts set_console
       mr_state mr_onstop fst snd] in *.

(** [run], then use the equations at hand on the scrutinees that appear. *)
Ltac run_with_eqs :=
  run;
  repeat (match goal with
          | H : ?x = _ |- context [match ?x with _ => _ end] => rewrite H
          end; run).

Lemma exec_latest (h : State -> M unit) (w : World) :
  exec (latest h) w = exec (h (st w)) w.
Proof. reflexivity. Qed.

Lemma exec_bind {A B} (m : M A) (k : A -> M B) (w : World) :
  exec (bind m k) w =
    match m w with
    | (Ok a, w') => exec (k a) w'
    | (Throw _, w') => w'
    end.
Proof. unfold exec, bind. destruct (m w) as [[a|e] w']; reflexivity. Qed.

(** ** The platform model on examples *)

Example toISOString_epoch : JsDate.toISOString 0 = "1970-01-01T00:00:00.000Z".
Proof. vm_compute. reflexivity. Qed.

Example toISOString_before_epoch : JsDate.toISOString (-1) = "1969-12-31T23:59:59.999Z".
Proof. vm_compute. reflexivity. Qed.

Example Date_round_trip :
  JsDate.parse (JsDate.toISOString 1730543021123) = ValidDate 1730543021123.
Proof. vm_compute. reflexivity. Qed.

Example Date_parse_other : JsDate.parse "yesterday" = InvalidDate.
Proof. vm_compute. reflexivity. Qed.

Example JSON_round_trip :
  JSON.parse (JSON_stringify_sessions [older]) = Some (JSON.Arr [session_toJSON older])
  /\ sessions_of_JSON [session_toJSON older] = Some [older].
Proof. split; vm_compute; reflexivity. Qed.

Example JSON_parse_garbage : JSON.parse "[1,2" = None.
Proof. vm_compute. reflexivity. Qed.

Example split_data_url :
  Js.split "," "data:audio/webm;base64,GkXfo59C" !! 1%nat = Some "GkXfo59C".
Proof. vm_compute. reflexivity. Qed.

Example newSession_id :
  Session.id (newSession signedIn online "hello" 5) = "session_1730543021123_4fzyo82mv".
Proof. vm_compute. reflexivity. Qed.

(** The closure of [onstop] belongs to the render in which the recording
    was started: the session it saves carries the duration shown then, not
    the five seconds counted since. *)
Example onstop_uses_the_render_of_start :
  recordingDuration (st finished) = 5
  /\ Session.duration <$> head (sessions (st finished)) = Some 0
  /\ Session.text <$> head (sessions (st finished)) = Some "hello world"
  /\ toasts (env finished)
     = [ToastSuccess "Recording started!"; ToastSuccess "Session saved!";
        ToastSuccess "Transcription completed!"].
Proof. vm_compute. repeat split. Qed.

(** So does its session list: in the fallback branch the new list is built
    from the list of that render, and a session deleted during the recording
    comes back. *)
Example fallback_save_restores_deleted_session :
  ids (sessions (st (step (ClickDelete online "row_0")
                       (step (DataAvailable [x1a; x45; xdf; xa3])
                          (step (ClickStart online) home_with_history))))) = []
  /\ ids (sessions (st deleted_while_recording))
     = ["session_1730543099000_k3j9x0a7q"; "row_0"].
Proof. vm_compute. repeat split. Qed.

(** ** Empty recordings *)

(** C10. When no audio chunk has been buffered, [processRecording] returns at
    once and leaves the whole world as it was: no call to the transcription
    service is logged, no store and no notification changes, and the
    transcribing flag is never written. *)
Theorem processRecording_no_chunks (cl : State) (o : Outside) (w : World) :
  audioChunksRef (refs w) = [] ->
  processRecording cl o w = (Ok tt, w).
Proof.
  intros H. unfold processRecording, bind, get_world. rewrite H. reflexivity.
Qed.

Lemma processRecording_no_chunks_witness :
  processRecording initialState
    {| now_id := 0; now_timestamp := 0; now_createdAt := 0; random36 := "0.abc";
       db_list_ok := true; db_create := Some "r1"; db_delete_ok := true;
       storage_ok := true; microphone := true; mimeSupported := true;
       reader := Some "data:audio/webm;base64,AAAA"; transcription := Some "hi";
       spectrum := [] |}
    initialWorld
  = (Ok tt, initialWorld).
Proof. apply processRecording_no_chunks. reflexivity. Defined.

(** ** Saving a session *)

Lemma saveSessionsToLocalStorage_run (cl : State) (o : Outside)
    (l : list TranscriptionSession) (w : World) :
  saveSessionsToLocalStorage cl o l w =
    match user cl with
    | Some u =>
        if storage_ok o
        then (Ok tt, upd_env (fun b =>
                set_localStorage (<[storage_key (uid u) := JSON_stringify_sessions l]>
                                    (localStorage b)) b) w)
        else (Ok tt, upd_env (fun b =>
                set_console (console b ++ ["Failed to save sessions to local storage:"]) b) w)
    | None => (Ok tt, upd_env (fun b =>
                set_console (console b ++ ["Failed to save sessions to local storage:"]) b) w)
    end.
Proof.
  unfold saveSessionsToLocalStorage, user_id, localStorage_setItem, console_error.
  destruct (user cl) as [u|]; [destruct (storage_ok o)|]; reflexivity.
Qed.

Lemma length_cons_take9 {A} (x : A) (l : list A) : (length (x :: take 9 l) <= 10)%nat.
Proof. cbn [length]. rewrite length_take. lia. Qed.

Lemma Sorted_take {A} (R : A -> A -> Prop) (n : nat) (l : list A) :
  Sorted R l -> Sorted R (take n l).
Proof.
  intros H. revert n. induction H as [|a l Hs IH Hd]; intros [|n]; cbn; try constructor.
  - apply IH.
  - destruct Hd as [|b l' Hab]; destruct n; cbn; constructor. exact Hab.
Qed.

Lemma HdRel_take {A} (R : A -> A -> Prop) (a : A) (n : nat) (l : list A) :
  HdRel R a l -> HdRel R a (take n l).
Proof. intros [|b l' H]; destruct n; cbn; constructor. exact H. Qed.

(** The session list after [saveSession]: the new session, then the first
    nine of the list the branch started from. *)
Lemma saveSession_sessions (cl : State) (o : Outside) (text : string) (duration : Z)
    (w : World) :
  sessions (st (exec (saveSession cl o text duration) w)) =
    match user cl, db_create o with
    | Some _, Some i =>
        Session.with_id i (newSession cl o text duration) :: take 9 (sessions (st w))
    | _, _ => newSession cl o text duration :: take 9 (sessions cl)
    end.
Proof.
  run. destruct (user cl) as [u|]; [destruct (db_create o) as [i|]|];
    run; try destruct (storage_ok o); reflexivity.
Qed.

Lemma saveSession_localStorage (cl : State) (o : Outside) (text : string) (duration : Z)
    (w : World) :
  localStorage (env (exec (saveSession cl o text duration) w)) =
    match user cl, db_create o, storage_ok o with
    | Some u, None, true =>
        <[storage_key (uid u) :=
            JSON_stringify_sessions (newSession cl o text duration :: take 9 (sessions cl))]>
          (localStorage (env w))
    | _, _, _ => localStorage (env w)
    end.
Proof.
  run. destruct (user cl) as [u|]; [destruct (db_create o) as [i|]|];
    run; try destruct (storage_ok o); reflexivity.
Qed.

Lemma saveSession_toasts (cl : State) (o : Outside) (text : string) (duration : Z)
    (w : World) :
  toasts (env (exec (saveSession cl o text duration) w)) =
    toasts (env w) ++
      [ToastSuccess match user cl, db_create o with
                    | Some _, Some _ => "Session saved!"
                    | _, _ => "Session saved locally!"
                    end].
Proof.
  run. destruct (user cl) as [u|]; [destruct (db_create o) as [i|]|];
    run; try destruct (storage_ok o); reflexivity.
Qed.

Lemma saveSession_returns (cl : State) (o : Outside) (text : string) (duration : Z)
    (w : World) :
  fst (saveSession cl o text duration w) = Ok tt.
Proof.
  run. destruct (user cl) as [u|]; [destruct (db_create o) as [i|]|];
    run; try destruct (storage_ok o); reflexivity.
Qed.

Lemma saveSession_remote (cl : State) (o : Outside) (text : string) (duration : Z)
    (w : World) :
  remote (env (exec (saveSession cl o text duration) w)) =
    match user cl, db_create o with
    | Some u, Some i =>
        remote (env w) ++
          [{| row_id := i; row_userId := uid u; row_text := text;
              row_language := selectedLanguage cl; row_duration := duration;
              row_createdAt := JsDate.toISOString (now_createdAt o) |}]
    | _, _ => remote (env w)
    end.
Proof.
  run. destruct (user cl) as [u|]; [destruct (db_create o) as [i|]|];
    run; try destruct (storage_ok o); reflexivity.
Qed.

(** C1, as the specification words it: whenever the remote create fails, the
    record is in the local fallback storage of the user afterwards.  It fails
    when the write to [localStorage] throws as well: the handler logs the
    error, stores nothing, and still announces a local save. *)
Lemma saveSession_fallback_can_store_nothing :
  ~ (forall cl o text duration w u,
       user cl = Some u -> db_create o = None ->
       exists l,
         localStorage (env (exec (saveSession cl o text duration) w))
           !! storage_key (uid u) = Some (JSON_stringify_sessions l))
  /\ localStorage (env (exec (saveSession signedIn offline_full "hello" 5) home)) = ∅
  /\ toasts (env (exec (saveSession signedIn offline_full "hello" 5) home))
     = [ToastSuccess "Session saved locally!"].
Proof.
  split; [|split].
  - intros H.
    destruct (H signedIn offline_full "hello" 5 home alice eq_refl eq_refl) as [l Hl].
    rewrite saveSession_localStorage in Hl. cbn in Hl.
    rewrite lookup_empty in Hl. discriminate.
  - rewrite saveSession_localStorage. reflexivity.
  - rewrite saveSession_toasts. reflexivity.
Qed.

(** C1, amended.  When the remote create fails for a signed-in user,
    [saveSession] returns normally and the only notification is the success
    toast "Session saved locally!"; the remote table is unchanged; and, when
    the write to [localStorage] does not throw, the entry of the user's key
    becomes the serialized list headed by the record with the given text and
    duration and the selected language.  When the write throws, the storage
    is left as it was. *)
Theorem saveSession_fallback (cl : State) (o : Outside) (text : string) (duration : Z)
    (w : World) (u : User) :
  user cl = Some u ->
  db_create o = None ->
  let w' := exec (saveSession cl o text duration) w in
  let s := newSession cl o text duration in
  fst (saveSession cl o text duration w) = Ok tt
  /\ toasts (env w') = toasts (env w) ++ [ToastSuccess "Session saved locally!"]
  /\ remote (env w') = remote (env w)
  /\ Session.text s = text
  /\ Session.duration s = duration
  /\ Session.language s = selectedLanguage cl
  /\ (storage_ok o = true ->
      localStorage (env w') =
        <[storage_key (uid u) := JSON_stringify_sessions (s :: take 9 (sessions cl))]>
          (localStorage (env w)))
  /\ (storage_ok o = false -> localStorage (env w') = localStorage (env w)).
Proof.
  intros Hu Hc w' s. subst w' s.
  rewrite saveSession_returns, saveSession_toasts, saveSession_remote,
    saveSession_localStorage, Hu, Hc.
  repeat split; intros ->; reflexivity.
Qed.

Lemma saveSession_fallback_witness :
  localStorage (env (exec (saveSession signedIn offline "hello" 5) home))
    !! storage_key "u1"
  = Some (JSON_stringify_sessions [newSession signedIn offline "hello" 5]).
Proof.
  destruct (saveSession_fallback signedIn offline "hello" 5 home alice eq_refl eq_refl)
    as (_ & _ & _ & _ & _ & _ & H & _).
  rewrite (H eq_refl). apply lookup_insert_eq.
Defined.

(** C2, as the specification words it: after every save the displayed list
    is most-recent-first.  [saveSession] puts the new session in front and
    never sorts: when the list holds a session dated after the new one (a row
    saved from a device whose clock is ahead, or a clock that was set back),
    the result has the older session before the newer one. *)
Lemma saveSession_can_leave_unordered :
  ~ (forall cl o text duration w,
       recent_first (sessions (st (exec (saveSession cl o text duration) w))))
  /\ Session.timestamp <$> sessions (st (exec (saveSession signedIn online "hello" 5)
                                           (upd_st (set_sessions [newer]) home)))
     = [ValidDate 1730543021123; ValidDate 1730550000000].
Proof.
  assert (Hshown : Session.timestamp
                     <$> sessions (st (exec (saveSession signedIn online "hello" 5)
                                         (upd_st (set_sessions [newer]) home)))
                   = [ValidDate 1730543021123; ValidDate 1730550000000])
    by (vm_compute; reflexivity).
  split; [|exact Hshown].
  intros H. specialize (H signedIn online "hello" 5 (upd_st (set_sessions [newer]) home)).
  destruct (sessions (st (exec (saveSession signedIn online "hello" 5)
                            (upd_st (set_sessions [newer]) home))))
    as [|a [|b [|c l]]]; try discriminate Hshown.
  injection Hshown as Ha Hb.
  apply Sorted_inv in H as [_ Hhd]. apply HdRel_inv in Hhd.
  unfold not_older in Hhd. rewrite Ha, Hb in Hhd. cbn in Hhd. lia.
Qed.

(** C2, amended.  After every [saveSession], on the remote path and on the
    fallback path alike, the displayed list has at most ten sessions: the new
    session in front, followed by the first nine of the list the path started
    from (the live list after a remote save, the list of the calling render
    in the fallback) in their old order, so one more than before up to ten.
    The list is most-recent-first afterwards if that list was and its head is
    no more recent than the new session. *)
Theorem saveSession_keeps_ten (cl : State) (o : Outside) (text : string) (duration : Z)
    (w : World) :
  let w' := exec (saveSession cl o text duration) w in
  let base := match user cl, db_create o with
              | Some _, Some _ => sessions (st w)
              | _, _ => sessions cl
              end in
  (length (sessions (st w')) <= 10)%nat
  /\ length (sessions (st w')) = Nat.min 10 (S (length base))
  /\ exists s,
       sessions (st w') = s :: take 9 base
       /\ Session.text s = text
       /\ Session.duration s = duration
       /\ Session.language s = selectedLanguage cl
       /\ Session.timestamp s = ValidDate (now_timestamp o)
       /\ (recent_first base -> HdRel not_older s base -> recent_first (sessions (st w'))).
Proof.
  intros w' base. subst w' base.
  rewrite saveSession_sessions.
  destruct (user cl) as [u|]; [destruct (db_create o) as [i|]|];
    (split; [apply length_cons_take9|]);
    (split; [cbn [length]; rewrite length_take; lia|]);
    eexists; (split; [reflexivity|]); repeat split;
    intros Hs Hh; constructor; auto using Sorted_take, HdRel_take.
Qed.

Lemma saveSession_keeps_ten_witness :
  let w' := exec (saveSession signedIn online "hello" 5)
              (upd_st (set_sessions ten_sessions) home) in
  length (sessions (st w')) = 10%nat
  /\ ids (sessions (st w'))
     = ["row_1"; "old_0"; "old_1"; "old_2"; "old_3"; "old_4"; "old_5"; "old_6"; "old_7";
        "old_8"]
  /\ recent_first (sessions (st w')).
Proof.
  cbv zeta.
  destruct (saveSession_keeps_ten signedIn online "hello" 5
              (upd_st (set_sessions ten_sessions) home))
    as (_ & Hlen & s & Hs & _ & _ & _ & Ht & Hsorted).
  split; [rewrite Hlen; reflexivity|]. split; [vm_compute; reflexivity|].
  apply Hsorted.
  - unfold ten_sessions. cbn [List.map sessions st upd_st set_sessions].
    repeat constructor; unfold not_older; cbn; lia.
  - unfold ten_sessions. cbn [List.map sessions st upd_st set_sessions].
    constructor. unfold not_older. rewrite Ht. cbn. lia.
Defined.

(** ** Deleting a session *)

Lemma deleteSession_sessions (cl : State) (o : Outside) (sessionId : string) (w : World) :
  sessions (st (exec (deleteSession cl o sessionId) w)) = without sessionId (sessions cl).
Proof.
  run. destruct (db_delete_ok o); run;
    [|destruct (user cl) as [u|]; run; try destruct (storage_ok o)]; reflexivity.
Qed.

Lemma deleteSession_remote (cl : State) (o : Outside) (sessionId : string) (w : World) :
  remote (env (exec (deleteSession cl o sessionId) w)) =
    if db_delete_ok o
    then List.filter (fun r => negb (String.eqb (row_id r) sessionId)) (remote (env w))
    else remote (env w).
Proof.
  run. destruct (db_delete_ok o); run;
    [|destruct (user cl) as [u|]; run; try destruct (storage_ok o)]; reflexivity.
Qed.

Lemma deleteSession_localStorage (cl : State) (o : Outside) (sessionId : string)
    (w : World) :
  localStorage (env (exec (deleteSession cl o sessionId) w)) =
    match db_delete_ok o, user cl, storage_ok o with
    | false, Some u, true =>
        <[storage_key (uid u) := JSON_stringify_sessions (without sessionId (sessions cl))]>
          (localStorage (env w))
    | _, _, _ => localStorage (env w)
    end.
Proof.
  run. destruct (db_delete_ok o); run;
    [|destruct (user cl) as [u|]; run; try destruct (storage_ok o)]; reflexivity.
Qed.

Lemma deleteSession_toasts (cl : State) (o : Outside) (sessionId : string) (w : World) :
  toasts (env (exec (deleteSession cl o sessionId) w)) =
    toasts (env w) ++
      [ToastSuccess (if db_delete_ok o then "Session deleted!"
                     else "Session deleted locally!")].
Proof.
  run. destruct (db_delete_ok o); run;
    [|destruct (user cl) as [u|]; run; try destruct (storage_ok o)]; reflexivity.
Qed.

Lemma not_in_without (sessionId : string) (l : list TranscriptionSession) :
  ~ In sessionId (ids (without sessionId l)).
Proof.
  unfold ids, without. rewrite in_map_iff. intros (s & Hid & Hin).
  apply filter_In in Hin as [_ Hne]. rewrite Hid, String.eqb_refl in Hne.
  discriminate.
Qed.

Lemma not_in_filter_rows (sessionId : string) (rows : list DbRow) :
  ~ In sessionId
      (List.map row_id
         (List.filter (fun r => negb (String.eqb (row_id r) sessionId)) rows)).
Proof.
  rewrite in_map_iff. intros (r & Hid & Hin).
  apply filter_In in Hin as [_ Hne]. rewrite Hid, String.eqb_refl in Hne.
  discriminate.
Qed.

Lemma exec_click_delete (o : Outside) (sessionId : string) (w : World) :
  exec (click_delete o sessionId) w = exec (deleteSession (st w) o sessionId) w.
Proof. reflexivity. Qed.

(** The other sessions stay. *)
Lemma without_keeps (sessionId : string) (l : list TranscriptionSession)
    (s : TranscriptionSession) :
  In s l -> Session.id s <> sessionId -> In s (without sessionId l).
Proof.
  intros Hin Hne. apply filter_In. split; [exact Hin|].
  destruct (String.eqb_spec (Session.id s) sessionId); [contradiction|reflexivity].
Qed.

(** C3, as the specification words it: after [deleteSession] the session is
    gone from the list and from the store that the outcome of the remote
    delete selects.  It fails when the remote delete is rejected and the write
    to [localStorage] throws: the local entry still holds the session, and a
    later load from local storage shows it again. *)
Lemma deleteSession_can_leave_local_copy :
  ~ (forall w o sessionId u,
       user (st w) = Some u ->
       In sessionId (ids (sessions (st w))) ->
       let w' := exec (click_delete o sessionId) w in
       ~ In sessionId (ids (sessions (st w')))
       /\ if db_delete_ok o
          then ~ In sessionId (List.map row_id (remote (env w')))
          else localStorage (env w') !! storage_key (uid u)
               = Some (JSON_stringify_sessions (without sessionId (sessions (st w)))))
  /\ (let w' := exec (click_delete offline_full "row_0") home_with_history in
      In "row_0" (ids (sessions (st home_with_history)))
      /\ localStorage (env w') !! storage_key "u1" = Some (JSON_stringify_sessions [older])
      /\ toasts (env w') = [ToastSuccess "Session deleted locally!"]
      /\ sessions (st (exec (loadSessionsFromLocalStorage signedIn online) w')) = [older]).
Proof.
  split.
  - intros H.
    destruct (H home_with_history offline_full "row_0" alice eq_refl) as [_ Hl].
    { left. reflexivity. }
    cbn [db_delete_ok offline_full] in Hl.
    rewrite exec_click_delete, deleteSession_localStorage in Hl. cbn in Hl.
    rewrite lookup_singleton_eq in Hl. vm_compute in Hl. discriminate.
  - cbv zeta. rewrite exec_click_delete.
    split; [left; reflexivity|]. split; [|split].
    + rewrite deleteSession_localStorage. cbn. apply lookup_singleton_eq.
    + rewrite deleteSession_toasts. reflexivity.
    + vm_compute. reflexivity.
Qed.

(** C3, amended.  For a session shown in the list, a click on its delete
    button removes it from the in-memory list and keeps the other sessions;
    when the remote delete succeeds the row is gone from the remote table and
    the local storage is not touched; when the remote delete fails the remote
    table is unchanged and, provided the write to [localStorage] does not
    throw, the entry of the user's key becomes the serialized list without
    the session.  Either way the handler returns with a success toast. *)
Theorem deleteSession_removes (w : World) (o : Outside) (sessionId : string) (u : User) :
  user (st w) = Some u ->
  In sessionId (ids (sessions (st w))) ->
  let w' := exec (click_delete o sessionId) w in
  ~ In sessionId (ids (sessions (st w')))
  /\ (forall s, In s (sessions (st w)) -> Session.id s <> sessionId ->
                In s (sessions (st w')))
  /\ (db_delete_ok o = true ->
      ~ In sessionId (List.map row_id (remote (env w')))
      /\ localStorage (env w') = localStorage (env w)
      /\ toasts (env w') = toasts (env w) ++ [ToastSuccess "Session deleted!"])
  /\ (db_delete_ok o = false ->
      remote (env w') = remote (env w)
      /\ toasts (env w') = toasts (env w) ++ [ToastSuccess "Session deleted locally!"]
      /\ (storage_ok o = true ->
          localStorage (env w') =
            <[storage_key (uid u) :=
                JSON_stringify_sessions (without sessionId (sessions (st w)))]>
              (localStorage (env w))
          /\ ~ In sessionId (ids (without sessionId (sessions (st w)))))).
Proof.
  intros Hu Hin w'. subst w'. rewrite exec_click_delete.
  rewrite deleteSession_sessions, deleteSession_remote, deleteSession_localStorage,
    deleteSession_toasts, Hu.
  split; [apply not_in_without|].
  split; [intros s; apply without_keeps|].
  split; intros ->.
  - split; [apply not_in_filter_rows|]. split; reflexivity.
  - split; [reflexivity|]. split; [reflexivity|].
    intros ->. split; [reflexivity|apply not_in_without].
Qed.

Lemma deleteSession_removes_witness :
  let w' := exec (click_delete offline "row_0") home_with_history in
  sessions (st w') = []
  /\ localStorage (env w') !! storage_key "u1" = Some (JSON_stringify_sessions []).
Proof.
  cbv zeta.
  destruct (deleteSession_removes home_with_history offline "row_0" alice eq_refl)
    as (_ & _ & _ & Hoff).
  { left. reflexivity. }
  destruct (Hoff eq_refl) as (_ & _ & Hls).
  destruct (Hls eq_refl) as [Hls' _].
  split.
  - rewrite exec_click_delete, deleteSession_sessions. reflexivity.
  - rewrite Hls'. apply lookup_insert_eq.
Defined.

(** ** The local fallback storage *)

Lemma saveSessionsToLocalStorage_localStorage (cl : State) (o : Outside)
    (l : list TranscriptionSession) (w : World) :
  localStorage (env (exec (saveSessionsToLocalStorage cl o l) w)) =
    match user cl, storage_ok o with
    | Some u, true =>
        <[storage_key (uid u) := JSON_stringify_sessions l]> (localStorage (env w))
    | _, _ => localStorage (env w)
    end.
Proof.
  unfold exec. rewrite saveSessionsToLocalStorage_run.
  destruct (user cl) as [u|]; [destruct (storage_ok o)|]; reflexivity.
Qed.

(** Reading looks at one entry only: the outcome of the load is the same in
    any storage that agrees on the user's key, and the storage is not
    changed by it. *)
Lemma loadSessionsFromLocalStorage_reads_key (cl : State) (o : Outside) (w : World)
    (ls : gmap string string) (u : User) :
  user cl = Some u ->
  ls !! storage_key (uid u) = localStorage (env w) !! storage_key (uid u) ->
  loadSessionsFromLocalStorage cl o (with_localStorage ls w) =
    (fst (loadSessionsFromLocalStorage cl o w),
     with_localStorage ls (exec (loadSessionsFromLocalStorage cl o) w)).
Proof.
  intros Hu Hls. unfold with_localStorage. run. rewrite Hu. run.
  destruct (storage_ok o); run; [|reflexivity].
  rewrite Hls. destruct (localStorage (env w) !! storage_key (uid u)) as [text|]; run;
    [|reflexivity].
  destruct (String.eqb text ""); run; [reflexivity|].
  destruct (JSON.parse text) as [[| | | |items|]|]; run; try reflexivity.
  destruct (sessions_of_JSON items); reflexivity.
Qed.

Lemma loadSessions_localStorage (cl : State) (o : Outside) (w : World) :
  localStorage (env (exec (loadSessions cl o) w)) = localStorage (env w).
Proof.
  run. destruct (user cl) as [u|]; run.
  - destruct (db_list_ok o); run; [reflexivity|].
    destruct (storage_ok o); run; [|reflexivity].
    destruct (localStorage (env w) !! storage_key (uid u)) as [text|]; run;
      [|reflexivity].
    destruct (String.eqb text ""); run; [reflexivity|].
    destruct (JSON.parse text) as [[| | | |items|]|]; run; try reflexivity.
    destruct (sessions_of_JSON items); reflexivity.
  - reflexivity.
Qed.

(** C4, as the specification words it: the entry is kept under the key
    "sessions_<userId>".  After a local save for the user "u1" there is
    nothing under "sessions_u1"; the list is under
    "transcription_sessions_u1". *)
Lemma storage_key_is_not_sessions_prefix :
  ~ (forall cl o l w u,
       user cl = Some u -> storage_ok o = true ->
       localStorage (env (exec (saveSessionsToLocalStorage cl o l) w))
         !! ("sessions_" +:+ uid u) = Some (JSON_stringify_sessions l))
  /\ (let w' := exec (saveSessionsToLocalStorage signedIn offline [older]) home in
      localStorage (env w') !! "sessions_u1" = None
      /\ localStorage (env w') !! "transcription_sessions_u1"
         = Some (JSON_stringify_sessions [older])).
Proof.
  assert (Hne : storage_key "u1" <> "sessions_u1") by (vm_compute; discriminate).
  split.
  - intros H. specialize (H signedIn offline [older] home alice eq_refl eq_refl).
    rewrite saveSessionsToLocalStorage_localStorage in H. cbn in H.
    rewrite lookup_insert_ne in H by exact Hne.
    rewrite lookup_empty in H. discriminate.
  - cbv zeta. rewrite saveSessionsToLocalStorage_localStorage. cbn. split.
    + rewrite lookup_insert_ne by exact Hne. apply lookup_empty.
    + apply lookup_insert_eq.
Qed.

(** C4, amended.  For a user with identity [userId] the key of the local
    fallback storage is "transcription_sessions_<userId>".  A write stores
    the JSON text of the array of session records under that key and changes
    no other entry (and nothing at all when the storage throws); a read
    depends on the entry of that key only and changes nothing; and the
    handlers that save, delete and load sessions touch the storage through
    such writes only. *)
Theorem local_storage_key (cl : State) (o : Outside) (w : World) (u : User) :
  user cl = Some u ->
  let key := "transcription_sessions_" +:+ uid u in
  let ls := localStorage (env w) in
  (forall l,
     localStorage (env (exec (saveSessionsToLocalStorage cl o l) w)) =
       if storage_ok o then <[key := JSON_stringify_sessions l]> ls else ls)
  /\ (forall l, JSON_stringify_sessions l
                = JSON.stringify (JSON.Arr (List.map session_toJSON l)))
  /\ (forall ls', ls' !! key = ls !! key ->
        loadSessionsFromLocalStorage cl o (with_localStorage ls' w) =
          (fst (loadSessionsFromLocalStorage cl o w),
           with_localStorage ls' (exec (loadSessionsFromLocalStorage cl o) w)))
  /\ (forall text duration,
        writes_at key ls (localStorage (env (exec (saveSession cl o text duration) w))))
  /\ (forall sessionId,
        writes_at key ls (localStorage (env (exec (deleteSession cl o sessionId) w))))
  /\ localStorage (env (exec (loadSessions cl o) w)) = ls.
Proof.
  intros Hu key ls. subst key ls. fold (storage_key (uid u)).
  split; [|split; [|split; [|split; [|split]]]].
  - intros l. rewrite saveSessionsToLocalStorage_localStorage, Hu. reflexivity.
  - reflexivity.
  - intros ls' Hls. apply (loadSessionsFromLocalStorage_reads_key cl o w ls' u Hu Hls).
  - intros text duration. rewrite saveSession_localStorage, Hu.
    destruct (db_create o), (storage_ok o); try (left; reflexivity).
    right. eexists. reflexivity.
  - intros sessionId. rewrite deleteSession_localStorage, Hu.
    destruct (db_delete_ok o), (storage_ok o); try (left; reflexivity).
    right. eexists. reflexivity.
  - apply loadSessions_localStorage.
Qed.

Lemma local_storage_key_witness :
  localStorage (env (exec (saveSessionsToLocalStorage signedIn offline [older]) home))
    !! "transcription_sessions_u1"
  = Some (JSON_stringify_sessions [older]).
Proof.
  destruct (local_storage_key signedIn offline home alice eq_refl) as [H _].
  rewrite (H [older]). apply lookup_insert_eq.
Defined.

(** ** Processing a finished recording *)

Lemma processRecording_success (cl : State) (o : Outside) (w : World)
    (dataUrl text : string) :
  audioChunksRef (refs w) <> [] ->
  reader o = Some dataUrl ->
  transcription o = Some text ->
  processRecording cl o w =
    (Ok tt,
     exec (setIsTranscribing false)
       (exec (toast_success "Transcription completed!")
          (exec (saveSession cl o text (recordingDuration cl))
             (transcribed cl o text w)))).
Proof.
  intros Hc Hr Ht. unfold transcribed. run. rewrite Hr, Ht.
  destruct (audioChunksRef (refs w)) as [|c cs]; [contradiction|].
  cbn [length Nat.eqb from_option]. run.
  destruct (user cl) as [u|]; [destruct (db_create o) as [i|]|];
    run; try destruct (storage_ok o); reflexivity.
Qed.

Lemma processRecording_failure (cl : State) (o : Outside) (w : World) :
  audioChunksRef (refs w) <> [] ->
  reader o = None \/ transcription o = None ->
  processRecording cl o w =
    (Ok tt,
     exec (setIsTranscribing false)
       (exec (toast_error "Transcription failed. Please try again.")
          (exec (console_error "Transcription failed:")
             (exec (match reader o with
                    | Some dataUrl =>
                        log_call (CallTranscribe (Js.split "," dataUrl !! 1%nat)
                                                 (selectedLanguage cl))
                    | None => ret tt
                    end)
                (exec (setIsTranscribing true) w))))).
Proof.
  intros Hc Hf. run.
  destruct (audioChunksRef (refs w)) as [|c cs]; [contradiction|].
  cbn [length Nat.eqb]. run.
  destruct (reader o) as [dataUrl|]; run; [|reflexivity].
  destruct Hf as [Hf|Hf]; [discriminate|]. rewrite Hf. reflexivity.
Qed.

(** C5. For a finished recording with at least one buffered chunk,
    [processRecording] always returns normally with the transcribing flag
    down.  When encoding and transcription succeed, the returned text
    becomes the displayed text and [saveSession] is run with it, so the new
    session heads the list.  When the encoding or the transcription fails,
    the one notification is the error toast, the displayed text, the session
    list, the remote table and the local storage are as before, and no
    request other than the transcription itself has gone out. *)
Theorem processRecording_outcomes (cl : State) (o : Outside) (w : World) :
  audioChunksRef (refs w) <> [] ->
  let w' := exec (processRecording cl o) w in
  fst (processRecording cl o w) = Ok tt
  /\ isTranscribing (st w') = false
  /\ (forall dataUrl text,
        reader o = Some dataUrl -> transcription o = Some text ->
        transcriptionText (st w') = text
        /\ w' = exec (setIsTranscribing false)
                  (exec (toast_success "Transcription completed!")
                     (exec (saveSession cl o text (recordingDuration cl))
                        (transcribed cl o text w)))
        /\ exists s, head (sessions (st w')) = Some s
                     /\ Session.text s = text
                     /\ Session.duration s = recordingDuration cl
                     /\ Session.language s = selectedLanguage cl)
  /\ (reader o = None \/ transcription o = None ->
        toasts (env w') = toasts (env w)
                          ++ [ToastError "Transcription failed. Please try again."]
        /\ transcriptionText (st w') = transcriptionText (st w)
        /\ sessions (st w') = sessions (st w)
        /\ remote (env w') = remote (env w)
        /\ localStorage (env w') = localStorage (env w)
        /\ forall c, In c (calls (env w')) ->
                     In c (calls (env w)) \/ exists a l, c = CallTranscribe a l).
Proof.
  intros Hc w'. subst w'. unfold transcribed.
  destruct (audioChunksRef (refs w)) as [|c cs] eqn:Hchunks; [contradiction|]. clear Hc.
  run. rewrite Hchunks. cbn [length Nat.eqb]. run.
  destruct (reader o) as [dataUrl|]; run.
  - destruct (transcription o) as [text|]; run.
    + assert (Hleft : forall P : Prop, (Some dataUrl = None \/ Some text = None -> P))
        by (intros P [H|H]; discriminate).
      destruct (user cl) as [u|]; [destruct (db_create o) as [i|]|];
        run; try destruct (storage_ok o); run;
        (split; [reflexivity|]); (split; [reflexivity|]); (split; [|apply Hleft]);
        intros ? ? [= <-] [= <-]; cbn [from_option];
        (split; [reflexivity|]); (split; [reflexivity|]);
        eexists; (split; [reflexivity|]); repeat split.
    + split; [reflexivity|]. split; [reflexivity|].
      split; [intros ? ? _ [=]|]. intros _. repeat split.
      intros c' Hin. apply in_app_or in Hin as [Hin|[<-|[]]]; eauto.
  - split; [reflexivity|]. split; [reflexivity|].
    split; [intros ? ? [=]|]. intros _. repeat split. auto.
Qed.

Lemma processRecording_outcomes_witness :
  let w := upd_refs (set_audioChunksRef [[x01; x02]]) home in
  transcriptionText (st (exec (processRecording signedIn online) w)) = "hello world".
Proof.
  cbv zeta.
  destruct (processRecording_outcomes signedIn online
              (upd_refs (set_audioChunksRef [[x01; x02]]) home))
    as (_ & _ & Hs & _).
  { discriminate. }
  destruct (Hs _ _ eq_refl eq_refl) as [Ht _]. exact Ht.
Defined.

(** ** Reachable states *)

Lemma invariant_init : invariant initialWorld.
Proof.
  split; [intros H; discriminate|]. split; [intros a H; discriminate|].
  intros h H. discriminate.
Qed.

Lemma invariant_control (w w' : World) :
  control w' = control w -> invariant w -> invariant w'.
Proof.
  unfold control, invariant, recorder_consistent, analyser_sized, ticking.
  intros [= H1 H2 H3 H4 H5 H6]. rewrite H1, H2, H3, H4, H5, H6. tauto.
Qed.

Lemma control_loadSessionsFromLocalStorage (cl : State) (o : Outside) (w : World) :
  control (exec (loadSessionsFromLocalStorage cl o) w) = control w.
Proof.
  unfold control. run. destruct (user cl) as [u|]; run; [|reflexivity].
  destruct (storage_ok o); run; [|reflexivity].
  destruct (localStorage (env w) !! storage_key (uid u)) as [text|]; run; [|reflexivity].
  destruct (String.eqb text ""); run; [reflexivity|].
  destruct (JSON.parse text) as [[| | | |items|]|]; run; try reflexivity.
  destruct (sessions_of_JSON items); reflexivity.
Qed.

Lemma control_loadSessions (cl : State) (o : Outside) (w : World) :
  control (exec (loadSessions cl o) w) = control w.
Proof.
  unfold control. run. destruct (user cl) as [u|]; run; [|reflexivity].
  destruct (db_list_ok o); run; [reflexivity|].
  destruct (storage_ok o); run; [|reflexivity].
  destruct (localStorage (env w) !! storage_key (uid u)) as [text|]; run; [|reflexivity].
  destruct (String.eqb text ""); run; [reflexivity|].
  destruct (JSON.parse text) as [[| | | |items|]|]; run; try reflexivity.
  destruct (sessions_of_JSON items); reflexivity.
Qed.

Lemma control_deleteSession (cl : State) (o : Outside) (sessionId : string) (w : World) :
  control (exec (deleteSession cl o sessionId) w) = control w.
Proof.
  unfold control. run. destruct (db_delete_ok o); run;
    [|destruct (user cl) as [u|]; run; try destruct (storage_ok o)]; reflexivity.
Qed.

Lemma control_processRecording (cl : State) (o : Outside) (w : World) :
  control (exec (processRecording cl o) w) = control w.
Proof.
  unfold control. run.
  destruct (audioChunksRef (refs w)) as [|c cs]; cbn [length Nat.eqb]; run;
    [reflexivity|].
  destruct (reader o) as [dataUrl|]; run; [|reflexivity].
  destruct (transcription o) as [text|]; run; [|reflexivity].
  destruct (user cl) as [u|]; [destruct (db_create o) as [i|]|];
    run; try destruct (storage_ok o); reflexivity.
Qed.

Lemma control_monitorAudioLevel (o : Outside) (w : World) :
  control (exec (monitorAudioLevel o) w) = control w.
Proof.
  unfold control. run.
  destruct (analyserRef (refs w)) eqn:Ha; run; rewrite ?Ha; reflexivity.
Qed.

Lemma in_added (h : positive) (X : gset positive) : h ∈ {[h]} ∪ X.
Proof. apply elem_of_union. left. apply elem_of_singleton. reflexivity. Qed.

Lemma not_in_remove (X : gset positive) (h : positive) : h ∉ X ∖ {[h]}.
Proof.
  rewrite elem_of_difference, elem_of_singleton. intros [_ Hn]. apply Hn. reflexivity.
Qed.

(** What follows the [await] of [startRecording], in any world and for any
    render of the click: it fails and leaves the flags, the recorder and the
    timers alone, or it ends with a recording recorder and a running timer
    in the refs and both flags set, whatever was there before. *)
Lemma startRecording_invariant (cl : State) (o : Outside) (w : World) :
  invariant w -> invariant (exec (startRecording cl o) w).
Proof.
  unfold invariant, recorder_consistent, analyser_sized, ticking.
  intros (Hr & Ha & Ht). run.
  destruct (microphone o); run; [|auto].
  destruct (mimeSupported o); run.
  - split; [intros _; eexists; split; reflexivity|].
    split; [intros a [= <-]; reflexivity|].
    eexists. split; [reflexivity|]. apply in_added.
  - split; [exact Hr|]. split; [intros a [= <-]; reflexivity|exact Ht].
Qed.

Lemma pauseRecording_invariant (w : World) :
  invariant w -> invariant (exec click_pause w).
Proof.
  unfold invariant, recorder_consistent, analyser_sized, ticking.
  intros (Hr & Ha & Ht). run.
  destruct (mediaRecorderRef (refs w)) as [mr|] eqn:Hmr; run_with_eqs;
    [|rewrite Hmr; auto].
  destruct (isRecording (st w)) eqn:Hrec; run_with_eqs;
    [|split; [intros H; congruence|split; [exact Ha|rewrite Hrec; exact Ht]]].
  destruct (Hr eq_refl) as (mr' & [= <-] & Hstate).
  destruct (isPaused (st w)) eqn:Hp; run_with_eqs; cbn [andb negb] in Ht.
  - rewrite ?Hrec. cbn [andb negb].
    split; [intros _; eexists; split; reflexivity|]. split; [exact Ha|].
    eexists. split; [reflexivity|]. apply in_added.
  - destruct Ht as (h & Hh & Hin). rewrite Hh. run. rewrite ?Hrec. cbn [andb negb].
    split; [intros _; eexists; split; reflexivity|]. split; [exact Ha|].
    rewrite Hh. intros h' [= <-]. apply not_in_remove.
Qed.

Lemma stopRecording_invariant (w : World) :
  invariant w -> invariant (exec click_stop w).
Proof.
  unfold invariant, recorder_consistent, analyser_sized, ticking.
  intros (Hr & Ha & Ht). run.
  destruct (mediaRecorderRef (refs w)) as [mr|] eqn:Hmr; run_with_eqs;
    [|rewrite Hmr; auto].
  destruct (isRecording (st w)) eqn:Hrec; run_with_eqs;
    [|split; [intros H; congruence|split; [exact Ha|rewrite Hrec; exact Ht]]].
  destruct (streamRef (refs w)), (audioContextRef (refs w)), (animationFrameRef (refs w)),
    (durationIntervalRef (refs w)) as [hi|] eqn:Hd; run;
    (split; [intros H; discriminate|split; [exact Ha|]]);
    intros h Hh; rewrite ?Hd in Hh; try discriminate Hh;
    injection Hh as <-; apply not_in_remove.
Qed.

Lemma step_invariant (e : Event) (w : World) :
  enabled e w = true -> invariant w -> invariant (step e w).
Proof.
  intros Hen Hinv. destruct e.
  - revert Hinv. apply invariant_control.
    unfold step, handler.
    rewrite exec_bind. unfold setUser, modify. cbv beta iota.
    rewrite exec_bind. unfold setLoading, modify. cbv beta iota.
    rewrite exec_latest.
    unfold onUserChange. cbn [st upd_st user set_loading set_user].
    destruct u as [u|]; [rewrite control_loadSessions|]; reflexivity.
  - revert Hinv. apply invariant_control. unfold control. run. reflexivity.
  - revert Hinv. apply invariant_control. unfold control. run. reflexivity.
  - apply (startRecording_invariant (st w) o w Hinv).
  - apply pauseRecording_invariant, Hinv.
  - apply stopRecording_invariant, Hinv.
  - revert Hinv. apply invariant_control.
    unfold step, handler, click_delete. rewrite exec_latest.
    apply control_deleteSession.
  - revert Hinv. apply invariant_control. unfold control. run.
    destruct (decide (h ∈ intervals (env w))); reflexivity.
  - revert Hinv. apply invariant_control. unfold control. run.
    destruct (decide (h ∈ frames (env w))); run; [|reflexivity].
    destruct (analyserRef (refs w)) eqn:Ha; run; rewrite ?Ha; reflexivity.
  - revert Hinv. apply invariant_control. unfold control. run.
    destruct (0 <? length data)%nat; reflexivity.
  - revert Hinv. apply invariant_control. unfold step, handler, onstop, with_recorder.
    rewrite exec_bind. unfold get_world. cbv beta iota.
    destruct (mediaRecorderRef (refs w)) as [mr|]; [|reflexivity].
    apply control_processRecording.
Qed.

Lemma reachable_with_invariant (pending : list State) (w : World) :
  reachable_with pending w -> invariant w.
Proof.
  induction 1 as [|e w pending _ IH Hen|w pending _ IH _|cl o w before after _ IH].
  - apply invariant_init.
  - apply step_invariant; assumption.
  - exact IH.
  - apply startRecording_invariant, IH.
Qed.

(** Every state the page can reach satisfies the invariant. *)
Lemma reachable_invariant (w : World) : reachable w -> invariant w.
Proof. intros [pending H]. exact (reachable_with_invariant pending w H). Qed.

(** A sequence of events from a reachable state, each on offer when it
    happens, leads to a reachable state. *)
Lemma reachable_event (e : Event) (w : World) :
  reachable w -> enabled e w = true -> reachable (step e w).
Proof. intros [pending H] He. exists pending. apply reachable_step; assumption. Qed.

Lemma reachable_initialWorld : reachable initialWorld.
Proof. exists []. apply reachable_init. Qed.

(** Two clicks on start before either request settles: both run. *)
Lemma reachable_two_starts (w : World) (o1 o2 : Outside) :
  reachable w -> start_offered w = true ->
  reachable (exec (startRecording (st w) o2) (exec (startRecording (st w) o1) w)).
Proof.
  intros [pending H] Hoffer. exists (pending ++ []).
  apply (reachable_settle (st w) o2 _ pending []).
  apply (reachable_settle (st w) o1 w pending [st w]).
  replace (pending ++ [st w; st w]) with ((pending ++ [st w]) ++ [st w])
    by (rewrite <- app_assoc; reflexivity).
  apply reachable_click; [|exact Hoffer].
  apply reachable_click; assumption.
Qed.

(** ** The audio level *)

Lemma sum_bytes_from (acc : Z) (l : list byte) :
  0 <= acc -> 0 <= fold_left (fun sum value => sum + Z.of_N (Byte.to_N value)) l acc.
Proof.
  revert acc. induction l as [|b l IH]; intros acc Hacc; cbn; [exact Hacc|].
  apply IH. lia.
Qed.

Lemma sum_bytes_nonneg (l : list byte) : 0 <= sum_bytes l.
Proof. apply sum_bytes_from. lia. Qed.

(** On a buffer that is not empty the level is a number between 0 and 100,
    however loud the samples are. *)
Lemma level_of_bounded (dataArray : list byte) :
  dataArray <> [] -> in_range (level_of dataArray).
Proof.
  intros Hne. destruct dataArray as [|b l]; [contradiction|].
  unfold level_of. eexists. split; [reflexivity|]. split.
  - apply Q.min_glb; [discriminate|].
    unfold Qdiv. repeat apply Qmult_le_0_compat; try apply Qinv_le_0_compat;
      try discriminate.
    change 0%Q with (inject_Z 0). rewrite <- Zle_Qle. apply sum_bytes_nonneg.
  - apply Q.le_min_l.
Qed.

Lemma getByteFrequencyData_length (a : AnalyserNode) (o : Outside) :
  length (getByteFrequencyData a o) = N.to_nat (frequencyBinCount a).
Proof.
  unfold getByteFrequencyData. rewrite length_take, length_app, length_replicate. lia.
Qed.

Lemma monitorAudioLevel_audioLevel (o : Outside) (w : World) :
  audioLevel (st (exec (monitorAudioLevel o) w)) =
    match analyserRef (refs w) with
    | Some a => level_of (getByteFrequencyData a o)
    | None => audioLevel (st w)
    end.
Proof. run. destruct (analyserRef (refs w)); reflexivity. Qed.

(** The clamp matters: a buffer of full-scale samples would give 199. *)
Example level_of_loud : level_of (replicate 128 xff) = Lvl 100.
Proof. vm_compute. reflexivity. Qed.

Example level_of_half :
  exists q, level_of (replicate 128 x40) = Lvl q /\ (q == 50)%Q.
Proof. eexists. split; [vm_compute; reflexivity|reflexivity]. Qed.

(** C9. In every state the page can reach, one tick of [monitorAudioLevel]
    on an analyser fills a buffer of 128 byte samples from whatever spectrum
    the platform delivers and sets the level to the mean amplitude over 128
    times 100, capped at 100: a number in the closed interval from 0 to
    100. *)
Theorem monitorAudioLevel_bounded (w : World) (o : Outside) (a : AnalyserNode) :
  reachable w ->
  analyserRef (refs w) = Some a ->
  let dataArray := getByteFrequencyData a o in
  length dataArray = 128%nat
  /\ audioLevel (st (exec (monitorAudioLevel o) w)) = level_of dataArray
  /\ exists q, level_of dataArray = Lvl q /\ (0 <= q)%Q /\ (q <= 100)%Q.
Proof.
  intros Hreach Ha dataArray. subst dataArray.
  destruct (reachable_invariant w Hreach) as (_ & Hsized & _).
  assert (Hlen : length (getByteFrequencyData a o) = 128%nat).
  { rewrite getByteFrequencyData_length. unfold frequencyBinCount.
    rewrite (Hsized a Ha). reflexivity. }
  split; [exact Hlen|]. split.
  - rewrite monitorAudioLevel_audioLevel, Ha. reflexivity.
  - apply level_of_bounded. intros Hnil. rewrite Hnil in Hlen. discriminate.
Qed.

Lemma home_reachable : reachable home.
Proof. apply (reachable_event _ _ reachable_initialWorld). reflexivity. Qed.

Lemma in_session_reachable : reachable in_session.
Proof. apply (reachable_event _ _ home_reachable). reflexivity. Qed.

Lemma monitorAudioLevel_bounded_witness :
  in_range (audioLevel (st (exec (monitorAudioLevel online) in_session))).
Proof.
  destruct (monitorAudioLevel_bounded in_session online {| fftSize := 256 |}
              in_session_reachable eq_refl) as (_ & -> & H).
  exact H.
Defined.

Lemma level_of_sized (a : AnalyserNode) (o : Outside) :
  fftSize a = 256%N -> in_range (level_of (getByteFrequencyData a o)).
Proof.
  intros Ha. apply level_of_bounded. intros Hnil.
  apply (f_equal (@length byte)) in Hnil.
  rewrite getByteFrequencyData_length in Hnil. unfold frequencyBinCount in Hnil.
  rewrite Ha in Hnil. discriminate.
Qed.

Lemma startRecording_level (cl : State) (o : Outside) (w : World) :
  in_range (audioLevel (st w)) ->
  in_range (audioLevel (st (exec (startRecording cl o) w))).
Proof.
  intros IH. run. destruct (microphone o); run; [|exact IH].
  destruct (mimeSupported o); run; apply (level_of_sized {| fftSize := 256 |}); reflexivity.
Qed.

Lemma step_level (e : Event) (w : World) :
  analyser_sized w ->
  in_range (audioLevel (st w)) -> in_range (audioLevel (st (step e w))).
Proof.
  intros Hsized IH. destruct e.
  - unfold step, handler.
    rewrite exec_bind. unfold setUser, modify. cbv beta iota.
    rewrite exec_bind. unfold setLoading, modify. cbv beta iota.
    rewrite exec_latest. unfold onUserChange.
    cbn [st upd_st user set_loading set_user].
    destruct u as [u|]; [|exact IH].
    run. destruct (db_list_ok o); run; [exact IH|].
    destruct (storage_ok o); run; [|exact IH].
    destruct (localStorage (env w) !! storage_key (uid u)) as [text|]; run; [|exact IH].
    destruct (String.eqb text ""); run; [exact IH|].
    destruct (JSON.parse text) as [[| | | |items|]|]; run; try exact IH.
    destruct (sessions_of_JSON items); exact IH.
  - exact IH.
  - exact IH.
  - exact (startRecording_level (st w) o w IH).
  - run. destruct (mediaRecorderRef (refs w)) as [mr|] eqn:Hmr; run_with_eqs;
      [|exact IH].
    destruct (isRecording (st w)) eqn:Hrec; run_with_eqs; [|exact IH].
    destruct (isPaused (st w)) eqn:Hp; run_with_eqs;
      destruct (mr_state mr); run; try exact IH;
      destruct (durationIntervalRef (refs w)); exact IH.
  - run. destruct (mediaRecorderRef (refs w)) as [mr|] eqn:Hmr; run_with_eqs;
      [|exact IH].
    destruct (isRecording (st w)) eqn:Hrec; run_with_eqs; [|exact IH].
    destruct (streamRef (refs w)), (audioContextRef (refs w)),
      (animationFrameRef (refs w)), (durationIntervalRef (refs w)); run;
      exists 0%Q; repeat split; discriminate.
  - unfold step, handler, click_delete. rewrite exec_latest.
    run. destruct (db_delete_ok o); run;
      [|destruct (user (st w)) as [u|]; run; try destruct (storage_ok o)]; exact IH.
  - run. destruct (decide (h ∈ intervals (env w))); exact IH.
  - run. destruct (decide (h ∈ frames (env w))); run; [|exact IH].
    destruct (analyserRef (refs w)) as [a|] eqn:Ha; run; [|exact IH].
    apply level_of_sized, Hsized, Ha.
  - run. destruct (0 <? length data)%nat; exact IH.
  - unfold step, handler, onstop, with_recorder.
    rewrite exec_bind. unfold get_world. cbv beta iota.
    destruct (mediaRecorderRef (refs w)) as [mr|]; [|exact IH].
    run. destruct (audioChunksRef (refs w)) as [|c cs]; cbn [length Nat.eqb]; run;
      [exact IH|].
    destruct (reader o) as [dataUrl|]; run; [|exact IH].
    destruct (transcription o) as [text|]; run; [|exact IH].
    destruct (user (mr_onstop mr)) as [u|]; [destruct (db_create o) as [i|]|];
      run; try destruct (storage_ok o); exact IH.
Qed.

(** The level cell holds a number between 0 and 100 in every reachable
    state. *)
Lemma reachable_level_in_range (w : World) :
  reachable w -> in_range (audioLevel (st w)).
Proof.
  intros [pending H].
  induction H as [|e w pending H IH Hen|w pending _ IH _|cl o w before after _ IH].
  - exists 0%Q. repeat split; discriminate.
  - apply step_level; [|exact IH].
    destruct (reachable_with_invariant pending w H) as (_ & Hsized & _). exact Hsized.
  - exact IH.
  - apply startRecording_level, IH.
Qed.

(** ** Pause and resume *)

Lemma exec_click_pause (w : World) : exec click_pause w = exec (pauseRecording (st w)) w.
Proof. reflexivity. Qed.

Lemma exec_click_stop (w : World) : exec click_stop w = exec (stopRecording (st w)) w.
Proof. reflexivity. Qed.

Lemma exec_click_start (o : Outside) (w : World) :
  exec (click_start o) w = exec (startRecording (st w) o) w.
Proof. reflexivity. Qed.

(** A pause from the recording state, as one equation. *)
Lemma pauseRecording_pauses (w : World) (mr : MediaRecorder) :
  mediaRecorderRef (refs w) = Some mr ->
  mr_state mr = recording ->
  isRecording (st w) = true ->
  isPaused (st w) = false ->
  exec click_pause w =
    {| st := set_isPaused true (st w);
       refs := set_mediaRecorderRef
                 (Some {| mr_state := paused; mr_onstop := mr_onstop mr |}) (refs w);
       env := match durationIntervalRef (refs w) with
              | Some h => set_intervals (intervals (env w) ∖ {[h]}) (env w)
              | None => env w
              end |}.
Proof.
  intros Hmr Hstate Hrec Hp. rewrite exec_click_pause. run_with_eqs.
  destruct (durationIntervalRef (refs w)); reflexivity.
Qed.

(** A resume from the paused state, as one equation. *)
Lemma pauseRecording_resumes (w : World) (mr : MediaRecorder) :
  mediaRecorderRef (refs w) = Some mr ->
  mr_state mr = paused ->
  isRecording (st w) = true ->
  isPaused (st w) = true ->
  exec click_pause w =
    {| st := set_isPaused false (st w);
       refs := set_durationIntervalRef (Some (nextHandle (env w)))
                 (set_mediaRecorderRef
                    (Some {| mr_state := recording; mr_onstop := mr_onstop mr |})
                    (refs w));
       env := set_intervals ({[nextHandle (env w)]} ∪ intervals (env w))
                (set_nextHandle (Pos.succ (nextHandle (env w))) (env w)) |}.
Proof.
  intros Hmr Hstate Hrec Hp. rewrite exec_click_pause. run_with_eqs. reflexivity.
Qed.

Lemma set_isPaused_back (s : State) :
  isPaused s = false -> set_isPaused false (set_isPaused true s) = s.
Proof. destruct s. cbn. intros ->. reflexivity. Qed.

Lemma recorder_back (mr : MediaRecorder) :
  mr_state mr = recording -> {| mr_state := recording; mr_onstop := mr_onstop mr |} = mr.
Proof. destruct mr. cbn. intros ->. reflexivity. Qed.

(** In every state the page can reach, [isRecording] without [isPaused]
    means the Recording state: a recording recorder in the ref, and in the
    ref the handle of a running timer. *)
Lemma recording_state_of_reachable (w : World) :
  reachable w ->
  isRecording (st w) = true ->
  isPaused (st w) = false ->
  exists mr h, mediaRecorderRef (refs w) = Some mr /\ mr_state mr = recording
               /\ durationIntervalRef (refs w) = Some h /\ h ∈ intervals (env w).
Proof.
  intros Hreach Hrec Hp. destruct (reachable_invariant w Hreach) as (Hcons & _ & Ht).
  destruct (Hcons Hrec) as (mr & Hmr & Hstate). rewrite Hp in Hstate.
  unfold ticking in Ht. rewrite Hrec, Hp in Ht. destruct Ht as (h & Hh & Hin).
  exists mr, h. auto.
Qed.

(** C6. In the Recording state ([isRecording] and not [isPaused], a
    recording recorder in the ref and the handle [h] of the duration timer
    in the ref), the first click on the pause button pauses the recorder and
    clears the timer [h], and the second click brings back exactly the
    former state cells (recording, not paused) and the recorder as it was,
    with a new duration timer in the ref in the place of [h], whose tick adds
    one second; no other interval is touched, and the analyser, the pending
    animation frame and the level are the same after either click.  Every
    reachable state with [isRecording] and not [isPaused] is such a state
    ([recording_state_of_reachable]). *)
Theorem pauseRecording_twice (w : World) (mr : MediaRecorder) (h : positive) :
  isRecording (st w) = true ->
  isPaused (st w) = false ->
  mediaRecorderRef (refs w) = Some mr ->
  mr_state mr = recording ->
  durationIntervalRef (refs w) = Some h ->
  let w1 := exec click_pause w in
  let w2 := exec click_pause w1 in
  (isRecording (st w1) = true /\ isPaused (st w1) = true)
  /\ (exists mr1, mediaRecorderRef (refs w1) = Some mr1 /\ mr_state mr1 = paused)
  /\ intervals (env w1) = intervals (env w) ∖ {[h]}
  /\ st w2 = st w
  /\ (isRecording (st w2) = true /\ isPaused (st w2) = false)
  /\ mediaRecorderRef (refs w2) = Some mr
  /\ (exists h', durationIntervalRef (refs w2) = Some h'
                 /\ intervals (env w2) = {[h']} ∪ (intervals (env w) ∖ {[h]})
                 /\ recordingDuration (st (exec (onInterval h') w2))
                    = recordingDuration (st w2) + 1)
  /\ monitoring w1 = monitoring w
  /\ monitoring w2 = monitoring w.
Proof.
  intros Hrec Hp Hmr Hstate Hh. cbv zeta.
  rewrite (pauseRecording_pauses w mr Hmr Hstate Hrec Hp).
  match goal with |- context [exec click_pause ?x] => set (w1 := x) end.
  rewrite (pauseRecording_resumes w1 {| mr_state := paused; mr_onstop := mr_onstop mr |}
             eq_refl eq_refl Hrec eq_refl).
  subst w1. rewrite Hh.
  cbn [st refs env mediaRecorderRef set_mediaRecorderRef mr_onstop
       durationIntervalRef set_durationIntervalRef intervals set_intervals
       nextHandle set_nextHandle].
  assert (Hst : set_isPaused false (set_isPaused true (st w)) = st w)
    by apply set_isPaused_back, Hp.
  split; [cbn; auto|].
  split; [eauto|].
  split; [reflexivity|].
  split; [exact Hst|].
  split; [rewrite Hst; auto|].
  split; [rewrite (recorder_back mr Hstate); reflexivity|].
  split.
  { eexists. split; [reflexivity|]. split; [reflexivity|].
    unfold onInterval, exec, bind, get_world. cbv beta iota.
    cbn [env intervals set_intervals set_nextHandle nextHandle].
    destruct (decide _) as [_|Hn]; [reflexivity|].
    exfalso. apply Hn, in_added. }
  unfold monitoring. split; reflexivity.
Qed.

Lemma pauseRecording_twice_witness :
  st (exec click_pause (exec click_pause in_session)) = st in_session
  /\ intervals (env (exec click_pause in_session)) = ∅
  /\ intervals (env (exec click_pause (exec click_pause in_session))) = {[3%positive]}.
Proof.
  destruct (pauseRecording_twice in_session
              {| mr_state := recording; mr_onstop := st home |} 2%positive
              eq_refl eq_refl eq_refl eq_refl eq_refl)
    as (_ & _ & H1 & H & _ & _ & (h' & Hh' & H2 & _) & _).
  split; [exact H|]. split.
  - rewrite H1. vm_compute. reflexivity.
  - rewrite H2. assert (Href : durationIntervalRef
                                  (refs (exec click_pause (exec click_pause in_session)))
                                = Some 3%positive) by (vm_compute; reflexivity).
    rewrite Href in Hh'. injection Hh' as <-. vm_compute. reflexivity.
Defined.

(** ** Stopping *)

Lemma five_seconds_in_reachable : reachable five_seconds_in.
Proof.
  unfold five_seconds_in. cbn [Nat.iter].
  do 5 (apply reachable_event; [|reflexivity]). exact in_session_reachable.
Qed.

(** C7, as the specification words it: all four transient fields are reset
    by [stopRecording].  The duration is not: five seconds into a recording,
    a click on stop leaves [recordingDuration] at 5. *)
Lemma stopRecording_keeps_duration :
  ~ (forall w,
       reachable w -> isRecording (st w) = true ->
       let w' := exec click_stop w in
       isRecording (st w') = false /\ isPaused (st w') = false
       /\ recordingDuration (st w') = 0 /\ audioLevel (st w') = Lvl 0)
  /\ isRecording (st five_seconds_in) = true
  /\ recordingDuration (st (exec click_stop five_seconds_in)) = 5.
Proof.
  assert (H5 : recordingDuration (st (exec click_stop five_seconds_in)) = 5)
    by (vm_compute; reflexivity).
  split; [|split; [vm_compute; reflexivity|exact H5]].
  intros H.
  destruct (H five_seconds_in five_seconds_in_reachable) as (_ & _ & H0 & _).
  { vm_compute. reflexivity. }
  rewrite H5 in H0. discriminate.
Qed.

(** C7, amended.  While the page is recording, with a recording or paused
    recorder in the ref, a click on stop sets [isRecording] and [isPaused] to false and the audio
    level to 0, leaves the recorder inactive, clears the interval and
    cancels the animation frame whose handles the refs hold, and touches no
    other interval or frame; [recordingDuration] keeps its value.  The
    duration is reset to 0 by the next [startRecording] that gets a
    microphone and a recorder. *)
Theorem stopRecording_resets (w : World) (mr : MediaRecorder) :
  isRecording (st w) = true ->
  mediaRecorderRef (refs w) = Some mr ->
  mr_state mr <> inactive ->
  let w' := exec click_stop w in
  isRecording (st w') = false
  /\ isPaused (st w') = false
  /\ audioLevel (st w') = Lvl 0
  /\ recordingDuration (st w') = recordingDuration (st w)
  /\ mediaRecorderRef (refs w')
     = Some {| mr_state := inactive; mr_onstop := mr_onstop mr |}
  /\ intervals (env w') = match durationIntervalRef (refs w) with
                          | Some h => intervals (env w) ∖ {[h]}
                          | None => intervals (env w)
                          end
  /\ frames (env w') = match animationFrameRef (refs w) with
                       | Some h => frames (env w) ∖ {[h]}
                       | None => frames (env w)
                       end
  /\ (forall o, microphone o = true -> mimeSupported o = true ->
        let w'' := exec (click_start o) w' in
        recordingDuration (st w'') = 0
        /\ isRecording (st w'') = true /\ isPaused (st w'') = false).
Proof.
  intros Hrec Hmr _. cbv zeta.
  assert (Hstart : forall w0 o, microphone o = true -> mimeSupported o = true ->
            recordingDuration (st (exec (click_start o) w0)) = 0
            /\ isRecording (st (exec (click_start o) w0)) = true
            /\ isPaused (st (exec (click_start o) w0)) = false).
  { intros w0 o Hmic Hmime. rewrite exec_click_start. run. rewrite Hmic. run.
    rewrite Hmime. run. repeat split. }
  repeat match goal with
         | |- _ /\ (forall o, _) => split; [|intros o; apply Hstart]
         | |- _ /\ _ => split
         end.
  all: rewrite exec_click_stop; run_with_eqs.
  all: destruct (streamRef (refs w)), (audioContextRef (refs w)),
         (animationFrameRef (refs w)) as [hf|], (durationIntervalRef (refs w)) as [hi|];
       run; reflexivity.
Qed.

Lemma stopRecording_resets_witness :
  audioLevel (st (exec click_stop five_seconds_in)) = Lvl 0
  /\ recordingDuration (st (exec click_stop five_seconds_in)) = 5
  /\ intervals (env (exec click_stop five_seconds_in)) = ∅.
Proof.
  destruct (stopRecording_resets five_seconds_in
              {| mr_state := recording; mr_onstop := st home |} eq_refl eq_refl
              ltac:(discriminate))
    as (_ & _ & Hl & Hd & _ & Hi & _).
  split; [exact Hl|]. split.
  - rewrite Hd. vm_compute. reflexivity.
  - rewrite Hi. vm_compute. reflexivity.
Defined.

(** ** formatDuration *)

Example formatDuration_0 : formatDuration 0 = "0:00".
Proof. vm_compute. reflexivity. Qed.

Example formatDuration_59 : formatDuration 59 = "0:59".
Proof. vm_compute. reflexivity. Qed.

Example formatDuration_3600 : formatDuration 3600 = "60:00".
Proof. vm_compute. reflexivity. Qed.

Example formatDuration_negative : formatDuration (-5) = "-1:-5".
Proof. vm_compute. reflexivity. Qed.

(** Below sixty the padded seconds are exactly the two decimal digits. *)
Lemma padStart_seconds (n : nat) :
  (n < 60)%nat ->
  Js.padStart 2 "0" (Js.Number_toString (Z.of_nat n)) = two_digits (Z.of_nat n).
Proof.
  intros Hn.
  do 60 (destruct n as [|n]; [vm_compute; reflexivity|]).
  lia.
Qed.

(** C8. For every integer number of seconds [D] from 0 to the largest
    integer that the code computes with exactly ([MAX_SAFE_INTEGER]),
    [formatDuration D] is the decimal rendering of [floor (D / 60)], a colon,
    and [D mod 60] written with exactly two digits, padded with a zero;
    [formatDuration 65] is "1:05". *)
Theorem formatDuration_spec (D : Z) :
  0 <= D <= MAX_SAFE_INTEGER ->
  formatDuration D
    = Js.Number_toString (D / 60) +:+ ":" +:+ two_digits (D mod 60)
  /\ String.length (two_digits (D mod 60)) = 2%nat
  /\ formatDuration 65 = "1:05".
Proof.
  intros HD. split; [|split].
  - unfold formatDuration. cbv zeta.
    rewrite Z.rem_mod_nonneg by lia.
    assert (Hr : 0 <= D mod 60 < 60) by (apply Z.mod_pos_bound; lia).
    rewrite <- (Z2Nat.id (D mod 60)) by lia.
    rewrite padStart_seconds by lia.
    reflexivity.
  - reflexivity.
  - vm_compute. reflexivity.
Qed.

Lemma formatDuration_spec_witness :
  0 <= 125 <= MAX_SAFE_INTEGER /\ formatDuration 125 = "2:05".
Proof.
  assert (H125 : 0 <= 125 <= MAX_SAFE_INTEGER) by (unfold MAX_SAFE_INTEGER; lia).
  split; [exact H125|].
  destruct (formatDuration_spec 125 H125) as [H _].
  rewrite H. vm_compute. reflexivity.
Defined.

(** * Part III: further properties of the handlers *)

(** ** Starting a recording *)

(** X1. A start that gets the microphone and a recorder returns normally
    and leaves the page recording and not paused with the duration at 0, the
    chunks of any earlier recording discarded, a live stream, an analyser of
    size 256, a recording recorder whose [onstop] belongs to the render of
    the click, a pending animation frame and a running duration timer with
    different handles, and the toast "Recording started!" as the one
    notification. *)
Theorem startRecording_succeeds (o : Outside) (w : World) :
  microphone o = true ->
  mimeSupported o = true ->
  let w' := exec (click_start o) w in
  fst (click_start o w) = Ok tt
  /\ (isRecording (st w') = true /\ isPaused (st w') = false
      /\ recordingDuration (st w') = 0)
  /\ audioChunksRef (refs w') = []
  /\ streamRef (refs w') = Some {| tracksStopped := false |}
  /\ analyserRef (refs w') = Some {| fftSize := 256 |}
  /\ mediaRecorderRef (refs w') = Some {| mr_state := recording; mr_onstop := st w |}
  /\ (exists hf ht, animationFrameRef (refs w') = Some hf
                    /\ durationIntervalRef (refs w') = Some ht
                    /\ hf <> ht
                    /\ frames (env w') = {[hf]} ∪ frames (env w)
                    /\ intervals (env w') = {[ht]} ∪ intervals (env w))
  /\ toasts (env w') = toasts (env w) ++ [ToastSuccess "Recording started!"]
  /\ sessions (st w') = sessions (st w)
  /\ transcriptionText (st w') = transcriptionText (st w).
Proof.
  intros Hmic Hmime. cbv zeta. rewrite exec_click_start.
  unfold click_start. run. rewrite Hmic. run. rewrite Hmime. run.
  repeat split.
  exists (nextHandle (env w)), (Pos.succ (nextHandle (env w))).
  repeat split. lia.
Qed.

Lemma startRecording_succeeds_witness :
  recordingDuration (st (exec (click_start online) five_seconds_in)) = 0
  /\ audioChunksRef (refs (exec (click_start online) five_seconds_in)) = [].
Proof.
  destruct (startRecording_succeeds online five_seconds_in eq_refl eq_refl)
    as (_ & (_ & _ & Hd) & Hc & _).
  split; assumption.
Defined.

(** X2. When the microphone is refused, [startRecording] returns normally
    and changes nothing but the console and the toasts: the state cells, the
    refs, the timers, the frames and both stores are as before, and the one
    notification is the error toast. *)
Theorem startRecording_without_microphone (o : Outside) (w : World) :
  microphone o = false ->
  let w' := exec (click_start o) w in
  fst (click_start o w) = Ok tt
  /\ st w' = st w
  /\ refs w' = refs w
  /\ intervals (env w') = intervals (env w)
  /\ frames (env w') = frames (env w)
  /\ localStorage (env w') = localStorage (env w)
  /\ remote (env w') = remote (env w)
  /\ calls (env w') = calls (env w)
  /\ toasts (env w') = toasts (env w) ++ [ToastError "Failed to access microphone"]
  /\ console (env w') = console (env w) ++ ["Failed to start recording:"].
Proof.
  intros Hmic. cbv zeta. rewrite exec_click_start.
  unfold click_start. run. rewrite Hmic. run. repeat split.
Qed.

Lemma startRecording_without_microphone_witness :
  st (exec (click_start no_microphone) home) = st home.
Proof.
  destruct (startRecording_without_microphone no_microphone home eq_refl) as (_ & H & _).
  exact H.
Defined.

(** X3. When the microphone is granted but the recorder cannot be created,
    [startRecording] reports "Failed to access microphone" and the page is
    not recording, yet what was set up before the failure stays: the chunks
    of the earlier recording are gone, the stream is live, the analyser is in
    place and an animation frame is pending; when that frame fires, the level
    is computed and the next frame is requested, although nothing is being
    recorded.  No interval is started. *)
Theorem startRecording_without_recorder (o o' : Outside) (w : World) :
  microphone o = true ->
  mimeSupported o = false ->
  let w' := exec (click_start o) w in
  fst (click_start o w) = Ok tt
  /\ isRecording (st w') = isRecording (st w)
  /\ mediaRecorderRef (refs w') = mediaRecorderRef (refs w)
  /\ intervals (env w') = intervals (env w)
  /\ toasts (env w') = toasts (env w) ++ [ToastError "Failed to access microphone"]
  /\ audioChunksRef (refs w') = []
  /\ streamRef (refs w') = Some {| tracksStopped := false |}
  /\ analyserRef (refs w') = Some {| fftSize := 256 |}
  /\ (exists hf, animationFrameRef (refs w') = Some hf
                 /\ hf ∈ frames (env w')
                 /\ let w'' := step (AnimationFrame hf o') w' in
                    audioLevel (st w'')
                    = level_of (getByteFrequencyData {| fftSize := 256 |} o')
                    /\ exists hf', animationFrameRef (refs w'') = Some hf'
                                   /\ hf' ∈ frames (env w'')).
Proof.
  intros Hmic Hmime. cbv zeta. rewrite exec_click_start.
  unfold click_start. run. rewrite Hmic. run. rewrite Hmime. run.
  repeat split.
  exists (nextHandle (env w)).
  assert (Hin : forall (h : positive) (X : gset positive), h ∈ {[h]} ∪ X).
  { intros h X. apply elem_of_union. left. apply elem_of_singleton. reflexivity. }
  split; [reflexivity|]. split; [apply Hin|].
  destruct (decide _) as [_|Hn]; [|exfalso; apply Hn, Hin].
  run. split; [reflexivity|]. eexists. split; [reflexivity|apply Hin].
Qed.

Lemma startRecording_without_recorder_witness :
  streamRef (refs (exec (click_start no_recorder) home))
  = Some {| tracksStopped := false |}.
Proof.
  destruct (startRecording_without_recorder no_recorder online home eq_refl eq_refl)
    as (_ & _ & _ & _ & _ & _ & H & _).
  exact H.
Defined.

(** ** Stopping, ticking, buffering *)

Lemma stopRecording_not_recording (cl : State) (w : World) :
  isRecording cl = false -> stopRecording cl w = (Ok tt, w).
Proof.
  intros H. unfold stopRecording, bind, get_world. rewrite H.
  destruct (mediaRecorderRef (refs w)); reflexivity.
Qed.

Lemma stopRecording_turns_off (w : World) :
  isRecording (st (exec click_stop w)) = false
  \/ exec click_stop w = w.
Proof.
  rewrite exec_click_stop. run.
  destruct (mediaRecorderRef (refs w)) as [mr|] eqn:Hmr; run_with_eqs; [|right; reflexivity].
  destruct (isRecording (st w)) eqn:Hrec; run_with_eqs; [|right; reflexivity].
  left.
  destruct (streamRef (refs w)), (audioContextRef (refs w)), (animationFrameRef (refs w)),
    (durationIntervalRef (refs w)); reflexivity.
Qed.

(** X4. Stopping is idempotent: in any world, a second click on stop changes
    nothing that the first has left, and outside a recording a click on stop
    changes nothing at all. *)
Theorem stopRecording_idempotent (w : World) :
  exec click_stop (exec click_stop w) = exec click_stop w
  /\ (isRecording (st w) = false -> exec click_stop w = w).
Proof.
  split.
  - destruct (stopRecording_turns_off w) as [Hoff|Hsame].
    + rewrite (exec_click_stop (exec click_stop w)). unfold exec at 1.
      rewrite stopRecording_not_recording by exact Hoff. reflexivity.
    + rewrite !Hsame. reflexivity.
  - intros Hrec. rewrite exec_click_stop. unfold exec.
    rewrite stopRecording_not_recording by exact Hrec. reflexivity.
Qed.

Lemma stopRecording_idempotent_witness :
  exec click_stop home = home.
Proof.
  destruct (stopRecording_idempotent home) as [_ H]. apply H. reflexivity.
Defined.

(** ** A start clicked twice *)

(** What a start that gets the microphone and a recorder leaves, in any
    world and for any render of the click. *)
Lemma startRecording_started (cl : State) (o : Outside) (w : World) :
  microphone o = true -> mimeSupported o = true ->
  let w' := exec (startRecording cl o) w in
  (isRecording (st w') = true /\ isPaused (st w') = false)
  /\ mediaRecorderRef (refs w') = Some {| mr_state := recording; mr_onstop := cl |}
  /\ animationFrameRef (refs w') = Some (nextHandle (env w))
  /\ durationIntervalRef (refs w') = Some (Pos.succ (nextHandle (env w)))
  /\ intervals (env w') = {[Pos.succ (nextHandle (env w))]} ∪ intervals (env w)
  /\ frames (env w') = {[nextHandle (env w)]} ∪ frames (env w)
  /\ nextHandle (env w') = Pos.succ (Pos.succ (nextHandle (env w))).
Proof.
  intros Hmic Hmime. cbv zeta. run. rewrite Hmic. run. rewrite Hmime. run.
  repeat split.
Qed.

(** What a click on stop does to the timers and frames while the page is
    recording with a recorder in the ref. *)
Lemma stopRecording_clears (w : World) (mr : MediaRecorder) :
  isRecording (st w) = true ->
  mediaRecorderRef (refs w) = Some mr ->
  let w' := exec click_stop w in
  isRecording (st w') = false
  /\ recordingDuration (st w') = recordingDuration (st w)
  /\ durationIntervalRef (refs w') = durationIntervalRef (refs w)
  /\ intervals (env w') = match durationIntervalRef (refs w) with
                          | Some h => intervals (env w) ∖ {[h]}
                          | None => intervals (env w)
                          end
  /\ frames (env w') = match animationFrameRef (refs w) with
                       | Some h => frames (env w) ∖ {[h]}
                       | None => frames (env w)
                       end
  /\ nextHandle (env w') = nextHandle (env w).
Proof.
  intros Hrec Hmr. cbv zeta. rewrite exec_click_stop. run_with_eqs.
  destruct (streamRef (refs w)), (audioContextRef (refs w)),
    (animationFrameRef (refs w)) as [hf|], (durationIntervalRef (refs w)) as [hi|] eqn:Hd;
    run; rewrite ?Hd; repeat split.
Qed.

(** The tick of a running interval adds one second, whatever the page is
    doing. *)
Lemma tick_of_running (h : positive) (w : World) :
  h ∈ intervals (env w) ->
  step (IntervalTick h) w = upd_st (set_recordingDuration (recordingDuration (st w) + 1)) w.
Proof.
  intros Hin. run. destruct (decide (h ∈ intervals (env w))); [reflexivity|contradiction].
Qed.

Lemma in_kept (X : gset positive) (h h' : positive) : h ∈ X -> h <> h' -> h ∈ X ∖ {[h']}.
Proof.
  intros Hin Hne. apply elem_of_difference. split; [exact Hin|].
  rewrite elem_of_singleton. exact Hne.
Qed.

Lemma in_later (X : gset positive) (h h' : positive) : h ∈ X -> h ∈ {[h']} ∪ X.
Proof. intros Hin. apply elem_of_union. right. exact Hin. Qed.

(** X5. A start button clicked twice before the first microphone request
    has settled starts two recordings, and the first one's duration timer
    and frame loop are out of the page's reach.  From every reachable state
    that offers the start button, two clicks followed by the two requests
    being granted lead to a reachable state in which the page is recording,
    the first timer runs without its handle being in the ref and the first
    frame is pending without its handle being in the ref.  That timer keeps
    counting: its tick adds a second while the recording is paused, and
    after a click on stop, when the page is no longer recording, it still
    runs and still adds a second per tick; the first frame is still pending
    after stop. *)
Theorem second_start_orphans_timer (w : World) (o1 o2 : Outside) :
  reachable w ->
  start_offered w = true ->
  microphone o1 = true -> mimeSupported o1 = true ->
  microphone o2 = true -> mimeSupported o2 = true ->
  let w2 := exec (startRecording (st w) o2) (exec (startRecording (st w) o1) w) in
  let f1 := nextHandle (env w) in
  let h1 := Pos.succ f1 in
  reachable w2
  /\ (isRecording (st w2) = true /\ isPaused (st w2) = false)
  /\ orphan_timer h1 w2
  /\ orphan_frame f1 w2
  /\ (let w3 := exec click_pause w2 in
      isPaused (st w3) = true
      /\ step (IntervalTick h1) w3
         = upd_st (set_recordingDuration (recordingDuration (st w3) + 1)) w3)
  /\ (let w4 := exec click_stop w2 in
      isRecording (st w4) = false
      /\ h1 ∈ intervals (env w4)
      /\ f1 ∈ frames (env w4)
      /\ step (IntervalTick h1) w4
         = upd_st (set_recordingDuration (recordingDuration (st w4) + 1)) w4).
Proof.
  intros Hreach Hoffer Hmic1 Hmime1 Hmic2 Hmime2. cbv zeta.
  set (w1 := exec (startRecording (st w) o1) w).
  set (w2 := exec (startRecording (st w) o2) w1).
  destruct (startRecording_started (st w) o1 w Hmic1 Hmime1)
    as (_ & _ & _ & _ & Hi1 & Hf1 & Hn1).
  fold w1 in Hi1, Hf1, Hn1.
  destruct (startRecording_started (st w) o2 w1 Hmic2 Hmime2)
    as ((Hrec & Hp) & Hmr & Hfr & Hir & Hi2 & Hf2 & Hn2).
  fold w2 in Hrec, Hp, Hmr, Hfr, Hir, Hi2, Hf2, Hn2.
  rewrite Hn1 in Hfr, Hir, Hi2, Hf2, Hn2. rewrite Hi1 in Hi2. rewrite Hf1 in Hf2.
  assert (Hh1 : Pos.succ (nextHandle (env w)) ∈ intervals (env w2)).
  { rewrite Hi2. apply in_later, in_added. }
  assert (Hfr1 : nextHandle (env w) ∈ frames (env w2)).
  { rewrite Hf2. apply in_later, in_added. }
  split; [apply reachable_two_starts; assumption|].
  split; [auto|].
  split; [split; [exact Hh1|split; [rewrite Hn2; lia|rewrite Hir; intros [= Heq]; lia]]|].
  split; [split; [exact Hfr1|split; [rewrite Hn2; lia|rewrite Hfr; intros [= Heq]; lia]]|].
  split.
  - rewrite (pauseRecording_pauses w2 _ Hmr eq_refl Hrec Hp). rewrite Hir.
    split; [reflexivity|]. apply tick_of_running.
    cbn [env intervals set_intervals]. apply in_kept; [exact Hh1|lia].
  - destruct (stopRecording_clears w2 _ Hrec Hmr) as (Hoff & _ & _ & Hi4 & Hf4 & _).
    rewrite Hir in Hi4. rewrite Hfr in Hf4.
    assert (Hh4 : Pos.succ (nextHandle (env w)) ∈ intervals (env (exec click_stop w2))).
    { rewrite Hi4. apply in_kept; [exact Hh1|lia]. }
    split; [exact Hoff|]. split; [exact Hh4|]. split.
    + rewrite Hf4. apply in_kept; [exact Hfr1|lia].
    + apply tick_of_running, Hh4.
Qed.

Lemma second_start_orphans_timer_witness :
  isRecording (st (exec click_stop double_start)) = false
  /\ 2%positive ∈ intervals (env (exec click_stop double_start))
  /\ recordingDuration (st (step (IntervalTick 2) (exec click_stop double_start))) = 1.
Proof.
  destruct (second_start_orphans_timer home online online home_reachable
              eq_refl eq_refl eq_refl eq_refl eq_refl)
    as (_ & _ & _ & _ & _ & Hoff & Hin & _ & Htick).
  assert (Hn : nextHandle (env home) = 1%positive) by (vm_compute; reflexivity).
  rewrite Hn in Hin, Htick. change (Pos.succ 1) with 2%positive in Hin, Htick.
  split; [exact Hoff|]. split; [exact Hin|].
  unfold double_start. rewrite Htick. vm_compute. reflexivity.
Defined.

(** X6. Chunks are buffered in the order of their delivery and empty chunks
    are dropped: after any sequence of [dataavailable] events the buffer is
    the old buffer followed by the non-empty chunks in order, and nothing
    else in the world has changed. *)
Theorem chunks_buffered_in_order (ds : list Blob) (w : World) :
  let w' := run_events (List.map DataAvailable ds) w in
  audioChunksRef (refs w') = audioChunksRef (refs w) ++ kept_chunks ds
  /\ w' = upd_refs (set_audioChunksRef (audioChunksRef (refs w) ++ kept_chunks ds)) w.
Proof.
  cbv zeta. unfold run_events.
  assert (H : forall w0,
             fold_left (fun w e => step e w) (List.map DataAvailable ds) w0
             = upd_refs (set_audioChunksRef (audioChunksRef (refs w0) ++ kept_chunks ds)) w0).
  { induction ds as [|d ds IH]; intros w0.
    - cbn. rewrite app_nil_r. destruct w0 as [s [] e]. reflexivity.
    - cbn [List.map fold_left]. rewrite IH. run. unfold kept_chunks. cbn [List.filter].
      destruct (0 <? length d)%nat; run; [|reflexivity].
      rewrite <- app_assoc. reflexivity. }
  rewrite H. split; reflexivity.
Qed.

(** ** The render that a recording is saved from *)

Lemma onstop_render_control (w w' : World) :
  control w' = control w -> onstop_render w' = onstop_render w.
Proof. unfold control, onstop_render. intros [= _ _ -> _ _ _]. reflexivity. Qed.

(** Only a click on start changes the render that [onstop] will use. *)
Lemma step_onstop_render (e : Event) (w : World) :
  is_start e = false -> onstop_render (step e w) = onstop_render w.
Proof.
  intros Hns. destruct e; try discriminate.
  - apply onstop_render_control.
    unfold step, handler.
    rewrite exec_bind. unfold setUser, modify. cbv beta iota.
    rewrite exec_bind. unfold setLoading, modify. cbv beta iota.
    rewrite exec_latest.
    unfold onUserChange. cbn [st upd_st user set_loading set_user].
    destruct u as [u|]; [rewrite control_loadSessions|]; reflexivity.
  - reflexivity.
  - reflexivity.
  - unfold onstop_render. run.
    destruct (mediaRecorderRef (refs w)) as [mr|] eqn:Hmr; run_with_eqs;
      [|rewrite Hmr; reflexivity].
    destruct (isRecording (st w)); run_with_eqs; [|rewrite Hmr; reflexivity].
    destruct (isPaused (st w)); run_with_eqs;
      destruct (mr_state mr); run; rewrite ?Hmr; try reflexivity;
      destruct (durationIntervalRef (refs w)); reflexivity.
  - unfold onstop_render. run.
    destruct (mediaRecorderRef (refs w)) as [mr|] eqn:Hmr; run_with_eqs;
      [|rewrite Hmr; reflexivity].
    destruct (isRecording (st w)); run_with_eqs; [|rewrite Hmr; reflexivity].
    destruct (streamRef (refs w)), (audioContextRef (refs w)),
      (animationFrameRef (refs w)), (durationIntervalRef (refs w)); reflexivity.
  - apply onstop_render_control. unfold step, handler, click_delete.
    rewrite exec_latest. apply control_deleteSession.
  - apply onstop_render_control. unfold control. run.
    destruct (decide (h ∈ intervals (env w))); reflexivity.
  - apply onstop_render_control. unfold control. run.
    destruct (decide (h ∈ frames (env w))); run; [|reflexivity].
    destruct (analyserRef (refs w)) eqn:Ha; run; rewrite ?Ha; reflexivity.
  - apply onstop_render_control. unfold control. run.
    destruct (0 <? length data)%nat; reflexivity.
  - apply onstop_render_control. unfold step, handler, onstop, with_recorder.
    rewrite exec_bind. unfold get_world. cbv beta iota.
    destruct (mediaRecorderRef (refs w)) as [mr|]; [|reflexivity].
    apply control_processRecording.
Qed.

Lemma run_events_onstop_render (es : list Event) (w : World) :
  forallb (fun e => negb (is_start e)) es = true ->
  onstop_render (run_events es w) = onstop_render w.
Proof.
  unfold run_events. revert w. induction es as [|e es IH]; intros w Hes; [reflexivity|].
  cbn in Hes. apply andb_true_iff in Hes as [He Hes]. cbn [fold_left].
  rewrite (IH _ Hes). apply step_onstop_render. destruct (is_start e); [discriminate|reflexivity].
Qed.

Lemma processRecording_saves (cl : State) (o : Outside) (w : World)
    (dataUrl text : string) :
  audioChunksRef (refs w) <> [] ->
  reader o = Some dataUrl ->
  transcription o = Some text ->
  transcriptionText (st (exec (processRecording cl o) w)) = text
  /\ sessions (st (exec (processRecording cl o) w))
     = match user cl, db_create o with
       | Some _, Some i =>
           Session.with_id i (newSession cl o text (recordingDuration cl))
             :: take 9 (sessions (st w))
       | _, _ => newSession cl o text (recordingDuration cl) :: take 9 (sessions cl)
       end.
Proof.
  intros Hc Hr Ht. run. rewrite Hr, Ht.
  destruct (audioChunksRef (refs w)) as [|c cs]; [contradiction|].
  cbn [length Nat.eqb]. run.
  destruct (user cl) as [u|]; [destruct (db_create o) as [i|]|];
    run; try destruct (storage_ok o); split; reflexivity.
Qed.

(** X7. The session that is saved when a recording ends is built from the
    render in which the recording was started.  After a successful start in
    world [w], whatever events follow short of another start (ticks, pauses,
    language changes, the stop itself), when the recorder's [onstop] runs
    with buffered chunks and the transcription succeeds, the new session
    heads the list with the returned text, but with the duration and the
    language that were on display when start was clicked. *)
Theorem recording_saved_from_start_render (o1 o : Outside) (es : list Event) (w : World)
    (dataUrl text : string) :
  microphone o1 = true ->
  mimeSupported o1 = true ->
  forallb (fun e => negb (is_start e)) es = true ->
  let w2 := run_events es (step (ClickStart o1) w) in
  audioChunksRef (refs w2) <> [] ->
  reader o = Some dataUrl ->
  transcription o = Some text ->
  let w3 := step (RecorderStopped o) w2 in
  transcriptionText (st w3) = text
  /\ exists s, head (sessions (st w3)) = Some s
               /\ Session.text s = text
               /\ Session.duration s = recordingDuration (st w)
               /\ Session.language s = selectedLanguage (st w).
Proof.
  intros Hmic Hmime Hes w2 Hchunks Hr Ht w3.
  assert (Hrender : onstop_render w2 = Some (st w)).
  { unfold w2. rewrite run_events_onstop_render by exact Hes.
    unfold onstop_render, step, handler. rewrite exec_click_start.
    run. rewrite Hmic. run. rewrite Hmime. reflexivity. }
  unfold onstop_render in Hrender.
  destruct (mediaRecorderRef (refs w2)) as [mr|] eqn:Hmr; [|discriminate].
  injection Hrender as Hcl.
  assert (Hw3 : w3 = exec (processRecording (st w) o) w2).
  { unfold w3, step, handler, onstop, with_recorder.
    rewrite exec_bind. unfold get_world. cbv beta iota. rewrite Hmr, Hcl. reflexivity. }
  destruct (processRecording_saves (st w) o w2 dataUrl text Hchunks Hr Ht) as [Htext Hsess].
  rewrite Hw3. split; [exact Htext|]. rewrite Hsess.
  destruct (user (st w)); [destruct (db_create o)|]; eexists; (split; [reflexivity|]);
    repeat split.
Qed.

Lemma recording_saved_from_start_render_witness :
  let es := [IntervalTick 2; IntervalTick 2; IntervalTick 2;
             DataAvailable [x1a; x45; xdf; xa3]; ClickStop] in
  let w3 := step (RecorderStopped online) (run_events es (step (ClickStart online) home)) in
  recordingDuration (st w3) = 3
  /\ exists s, head (sessions (st w3)) = Some s /\ Session.duration s = 0.
Proof.
  cbv zeta. split; [vm_compute; reflexivity|].
  destruct (recording_saved_from_start_render online online
              [IntervalTick 2; IntervalTick 2; IntervalTick 2;
               DataAvailable [x1a; x45; xdf; xa3]; ClickStop]
              home "data:audio/webm;base64,GkXfo59C" "hello world"
              eq_refl eq_refl eq_refl)
    as (_ & s & Hhead & _ & Hd & _).
  - vm_compute. discriminate.
  - reflexivity.
  - reflexivity.
  - exists s. split; [exact Hhead|]. rewrite Hd. vm_compute. reflexivity.
Defined.

(** ** Saving and loading *)

Lemma saveSession_calls (cl : State) (o : Outside) (text : string) (duration : Z)
    (w : World) :
  calls (env (exec (saveSession cl o text duration) w)) =
    match user cl with
    | Some u =>
        calls (env w) ++ [CallCreate (uid u) text (selectedLanguage cl) duration
                            (JsDate.toISOString (now_createdAt o))]
    | None => calls (env w)
    end.
Proof.
  run. destruct (user cl) as [u|]; [destruct (db_create o) as [i|]|];
    run; try destruct (storage_ok o); reflexivity.
Qed.

(** X8. When the remote create succeeds for a signed-in user, exactly one
    create request goes out, the row with the given text, duration, selected
    language and the ISO form of the clock is appended to the remote table,
    the session shown in front carries the id that the backend assigned (not
    the locally generated one), the toast is "Session saved!", and the local
    fallback storage is not written. *)
Theorem saveSession_remote_path (cl : State) (o : Outside) (text : string) (duration : Z)
    (w : World) (u : User) (i : string) :
  user cl = Some u ->
  db_create o = Some i ->
  let w' := exec (saveSession cl o text duration) w in
  let createdAt := JsDate.toISOString (now_createdAt o) in
  fst (saveSession cl o text duration w) = Ok tt
  /\ calls (env w')
     = calls (env w) ++ [CallCreate (uid u) text (selectedLanguage cl) duration createdAt]
  /\ remote (env w')
     = remote (env w) ++ [{| row_id := i; row_userId := uid u; row_text := text;
                             row_language := selectedLanguage cl;
                             row_duration := duration; row_createdAt := createdAt |}]
  /\ (exists s, sessions (st w') = s :: take 9 (sessions (st w))
                /\ Session.id s = i /\ Session.text s = text
                /\ Session.duration s = duration
                /\ Session.language s = selectedLanguage cl
                /\ Session.timestamp s = ValidDate (now_timestamp o))
  /\ toasts (env w') = toasts (env w) ++ [ToastSuccess "Session saved!"]
  /\ localStorage (env w') = localStorage (env w).
Proof.
  intros Hu Hc. cbv zeta.
  rewrite saveSession_returns, saveSession_calls, saveSession_remote,
    saveSession_sessions, saveSession_toasts, saveSession_localStorage, Hu, Hc.
  repeat split. eexists. split; [reflexivity|]. repeat split.
Qed.

Lemma saveSession_remote_path_witness :
  ids (sessions (st (exec (saveSession signedIn online "hello" 5) home))) = ["row_1"]
  /\ localStorage (env (exec (saveSession signedIn online "hello" 5) home)) = ∅.
Proof.
  destruct (saveSession_remote_path signedIn online "hello" 5 home alice "row_1"
              eq_refl eq_refl) as (_ & _ & _ & (s & Hs & Hid & _) & _ & Hls).
  split.
  - rewrite Hs. cbn. rewrite Hid. reflexivity.
  - rewrite Hls. reflexivity.
Defined.

Lemma loadSessions_remote_run (cl : State) (o : Outside) (w : World) (u : User) :
  user cl = Some u ->
  db_list_ok o = true ->
  loadSessions cl o w =
    (Ok tt,
     upd_st (set_sessions (List.map session_of_row (query (uid u) (remote (env w)))))
       (upd_env (fun b => set_calls (calls b ++ [CallList (uid u)]) b) w)).
Proof. intros Hu Hl. run. rewrite Hu. run. rewrite Hl. reflexivity. Qed.

(** What a load can do to the state cells: only the session list changes. *)
Lemma loadSessions_st (cl : State) (o : Outside) (w : World) :
  st (exec (loadSessions cl o) w)
  = set_sessions (sessions (st (exec (loadSessions cl o) w))) (st w).
Proof.
  assert (Hid : set_sessions (sessions (st w)) (st w) = st w) by (destruct (st w); reflexivity).
  run. destruct (user cl) as [u|]; run; [|rewrite Hid; reflexivity].
  destruct (db_list_ok o); run; [reflexivity|].
  destruct (storage_ok o); run; [|rewrite Hid; reflexivity].
  destruct (localStorage (env w) !! storage_key (uid u)) as [text|]; run;
    [|rewrite Hid; reflexivity].
  destruct (String.eqb text ""); run; [rewrite Hid; reflexivity|].
  destruct (JSON.parse text) as [[| | | |items|]|]; run; try (rewrite Hid; reflexivity).
  destruct (sessions_of_JSON items); run; [reflexivity|rewrite Hid; reflexivity].
Qed.

Lemma loadSessions_quiet (cl : State) (o : Outside) (w : World) :
  fst (loadSessions cl o w) = Ok tt
  /\ toasts (env (exec (loadSessions cl o) w)) = toasts (env w)
  /\ remote (env (exec (loadSessions cl o) w)) = remote (env w)
  /\ refs (exec (loadSessions cl o) w) = refs w.
Proof.
  run. destruct (user cl) as [u|]; run; [|auto].
  destruct (db_list_ok o); run; [auto|].
  destruct (storage_ok o); run; [|auto].
  destruct (localStorage (env w) !! storage_key (uid u)) as [text|]; run; [|auto].
  destruct (String.eqb text ""); run; [auto|].
  destruct (JSON.parse text) as [[| | | |items|]|]; run; auto.
  destruct (sessions_of_JSON items); run; auto.
Qed.

Lemma loadSessions_fallback_sessions (cl : State) (o : Outside) (w : World) :
  db_list_ok o = false ->
  sessions (st (exec (loadSessions cl o) w))
  = sessions (st (exec (loadSessionsFromLocalStorage cl o) w)).
Proof.
  intros Hl. run. rewrite Hl. destruct (user cl) as [u|]; run; [|reflexivity].
  destruct (storage_ok o); run; [|reflexivity].
  destruct (localStorage (env w) !! storage_key (uid u)) as [text|]; run; [|reflexivity].
  destruct (String.eqb text ""); run; [reflexivity|].
  destruct (JSON.parse text) as [[| | | |items|]|]; run; try reflexivity.
  destruct (sessions_of_JSON items); reflexivity.
Qed.

Lemma loadSessionsFromLocalStorage_sessions (cl : State) (o : Outside) (w : World) :
  sessions (st (exec (loadSessionsFromLocalStorage cl o) w)) =
    match user cl with
    | Some u =>
        if storage_ok o then
          match localStorage (env w) !! storage_key (uid u) with
          | Some text =>
              if String.eqb text "" then sessions (st w)
              else match JSON.parse text with
                   | Some (JSON.Arr items) =>
                       match sessions_of_JSON items with
                       | Some l => l
                       | None => sessions (st w)
                       end
                   | _ => sessions (st w)
                   end
          | None => sessions (st w)
          end
        else sessions (st w)
    | None => sessions (st w)
    end.
Proof.
  run. destruct (user cl) as [u|]; run; [|reflexivity].
  destruct (storage_ok o); run; [|reflexivity].
  destruct (localStorage (env w) !! storage_key (uid u)) as [text|]; run; [|reflexivity].
  destruct (String.eqb text ""); run; [reflexivity|].
  destruct (JSON.parse text) as [[| | | |items|]|]; run; try reflexivity.
  destruct (sessions_of_JSON items); reflexivity.
Qed.

(** X10. Loading never fails towards the user and never writes: for every
    render, outside and world, [loadSessions] returns normally, shows no
    toast, leaves the remote table, the local storage, the refs and every
    state cell other than the session list as they were.  And when neither
    source delivers (no user; or the list call fails and reading the storage
    throws, or the user's local entry is missing or is the empty string), the
    list that was displayed stays displayed. *)
Theorem loadSessions_never_fails (cl : State) (o : Outside) (w : World) :
  let w' := exec (loadSessions cl o) w in
  fst (loadSessions cl o w) = Ok tt
  /\ toasts (env w') = toasts (env w)
  /\ remote (env w') = remote (env w)
  /\ localStorage (env w') = localStorage (env w)
  /\ refs w' = refs w
  /\ st w' = set_sessions (sessions (st w')) (st w)
  /\ (user cl = None -> sessions (st w') = sessions (st w))
  /\ (forall u, user cl = Some u -> db_list_ok o = false ->
        storage_ok o = false
        \/ localStorage (env w) !! storage_key (uid u) = None
        \/ localStorage (env w) !! storage_key (uid u) = Some "" ->
        sessions (st w') = sessions (st w)).
Proof.
  cbv zeta. destruct (loadSessions_quiet cl o w) as (Hok & Ht & Hr & Hrefs).
  split; [exact Hok|]. split; [exact Ht|]. split; [exact Hr|].
  split; [apply loadSessions_localStorage|]. split; [exact Hrefs|].
  split; [apply loadSessions_st|]. split.
  - intros Hu. run. rewrite Hu. reflexivity.
  - intros u Hu Hl Hcases.
    rewrite (loadSessions_fallback_sessions cl o w Hl),
      loadSessionsFromLocalStorage_sessions, Hu.
    destruct Hcases as [->|[->| ->]]; try reflexivity.
    + destruct (storage_ok o); reflexivity.
    + destruct (storage_ok o); reflexivity.
Qed.

Lemma loadSessions_never_fails_witness :
  sessions (st (exec (loadSessions signedIn offline_full) home_with_history)) = [older].
Proof.
  destruct (loadSessions_never_fails signedIn offline_full home_with_history)
    as (_ & _ & _ & _ & _ & _ & _ & H).
  rewrite (H alice eq_refl eq_refl); [reflexivity|]. left. reflexivity.
Defined.

(** ** One entry per user *)

Lemma storage_key_inj (a b : string) : storage_key a = storage_key b -> a = b.
Proof. unfold storage_key. cbn. intros [= H]. exact H. Qed.

Lemma writes_at_other (key other : string) (before after : gmap string string) :
  other <> key -> writes_at key before after -> after !! other = before !! other.
Proof.
  intros Hne [->|[l ->]]; [reflexivity|]. apply lookup_insert_ne. congruence.
Qed.

Lemma processRecording_localStorage (cl : State) (o : Outside) (w : World) (u : User) :
  user cl = Some u ->
  writes_at (storage_key (uid u)) (localStorage (env w))
    (localStorage (env (exec (processRecording cl o) w))).
Proof.
  intros Hu. run. rewrite Hu.
  destruct (audioChunksRef (refs w)) as [|c cs]; cbn [length Nat.eqb]; run;
    [left; reflexivity|].
  destruct (reader o) as [dataUrl|]; run; [|left; reflexivity].
  destruct (transcription o) as [text|]; run; [|left; reflexivity].
  destruct (db_create o) as [i|]; run; [left; reflexivity|].
  destruct (storage_ok o); run; [right; eexists; reflexivity|left; reflexivity].
Qed.

(** X11. The local fallback storage keeps one entry per user.  Whatever a
    handler of a render with user [u] does (saving, deleting, processing a
    recording, writing a list), the entry of every other user identity is
    untouched; and what a load for [u] returns is the same when the entries
    of other users are changed. *)
Theorem local_entries_are_per_user (cl : State) (o : Outside) (w : World) (u : User)
    (other : string) :
  user cl = Some u ->
  other <> uid u ->
  let unchanged (w' : World) :=
    localStorage (env w') !! storage_key other
    = localStorage (env w) !! storage_key other in
  (forall l, unchanged (exec (saveSessionsToLocalStorage cl o l) w))
  /\ (forall text duration, unchanged (exec (saveSession cl o text duration) w))
  /\ (forall sessionId, unchanged (exec (deleteSession cl o sessionId) w))
  /\ unchanged (exec (processRecording cl o) w)
  /\ (forall value,
        sessions (st (exec (loadSessionsFromLocalStorage cl o)
                        (with_localStorage
                           (<[storage_key other := value]> (localStorage (env w))) w)))
        = sessions (st (exec (loadSessionsFromLocalStorage cl o) w))).
Proof.
  intros Hu Hne. cbv zeta.
  assert (Hkey : storage_key other <> storage_key (uid u)).
  { intros H. apply Hne, storage_key_inj, H. }
  split; [|split; [|split; [|split]]].
  - intros l. rewrite saveSessionsToLocalStorage_localStorage, Hu.
    destruct (storage_ok o); [|reflexivity]. apply lookup_insert_ne. congruence.
  - intros text duration. rewrite saveSession_localStorage, Hu.
    destruct (db_create o), (storage_ok o); try reflexivity.
    apply lookup_insert_ne. congruence.
  - intros sessionId. rewrite deleteSession_localStorage, Hu.
    destruct (db_delete_ok o), (storage_ok o); try reflexivity.
    apply lookup_insert_ne. congruence.
  - apply (writes_at_other (storage_key (uid u))); [exact Hkey|].
    apply processRecording_localStorage, Hu.
  - intros value. unfold exec at 1.
    rewrite (loadSessionsFromLocalStorage_reads_key cl o w _ u Hu).
    + reflexivity.
    + apply lookup_insert_ne. exact Hkey.
Qed.

Lemma local_entries_are_per_user_witness :
  localStorage (env (exec (saveSession signedIn offline "hello" 5) home_with_history))
    !! storage_key "u2"
  = localStorage (env home_with_history) !! storage_key "u2".
Proof.
  destruct (local_entries_are_per_user signedIn offline home_with_history alice "u2"
              eq_refl) as (_ & H & _).
  - discriminate.
  - apply H.
Defined.

(** ** Deleting *)

Lemma without_absent (sessionId : string) (l : list TranscriptionSession) :
  ~ In sessionId (ids l) -> without sessionId l = l.
Proof.
  unfold without, ids. induction l as [|s l IH]; cbn; [reflexivity|].
  intros Hn. destruct (String.eqb_spec (Session.id s) sessionId) as [Heq|Hne]; cbn.
  - exfalso. apply Hn. left. exact Heq.
  - rewrite IH; [reflexivity|]. intros H. apply Hn. right. exact H.
Qed.

Lemma deleteSession_calls (cl : State) (o : Outside) (sessionId : string) (w : World) :
  calls (env (exec (deleteSession cl o sessionId) w))
  = calls (env w) ++ [CallDelete sessionId].
Proof.
  run. destruct (db_delete_ok o); run;
    [|destruct (user cl) as [u|]; run; try destruct (storage_ok o)]; reflexivity.
Qed.

(** X12. Deleting an id that is not in the list of the calling render leaves
    the displayed list as that render had it, but is otherwise carried out
    like any delete: the request goes out, a success toast appears, and when
    the request fails the user's local entry is overwritten with the
    in-memory list. *)
Theorem deleteSession_unknown_id (cl : State) (o : Outside) (sessionId : string)
    (w : World) :
  ~ In sessionId (ids (sessions cl)) ->
  let w' := exec (deleteSession cl o sessionId) w in
  sessions (st w') = sessions cl
  /\ calls (env w') = calls (env w) ++ [CallDelete sessionId]
  /\ toasts (env w')
     = toasts (env w) ++ [ToastSuccess (if db_delete_ok o then "Session deleted!"
                                        else "Session deleted locally!")]
  /\ (forall u, user cl = Some u -> db_delete_ok o = false -> storage_ok o = true ->
        localStorage (env w')
        = <[storage_key (uid u) := JSON_stringify_sessions (sessions cl)]>
            (localStorage (env w))).
Proof.
  intros Hn. cbv zeta.
  rewrite deleteSession_sessions, deleteSession_calls, deleteSession_toasts,
    deleteSession_localStorage, (without_absent _ _ Hn).
  repeat split. intros u -> -> ->. reflexivity.
Qed.

Lemma deleteSession_unknown_id_witness :
  sessions (st (exec (deleteSession (st home_with_history) online "nope")
                  home_with_history)) = [older].
Proof.
  destruct (deleteSession_unknown_id (st home_with_history) online "nope"
              home_with_history) as [H _].
  - cbn. intros [H|[]]. discriminate.
  - exact H.
Defined.

(** ** Changing the user *)

(** X13. The session list is never cleared when the user changes.  A
    sign-out changes the user and loading cells only; and when another user
    signs in while the list call fails and that user has no local entry (or
    the storage throws), the sessions on display are still the ones that
    were there before. *)
Theorem sessions_survive_user_change (w : World) (o o' : Outside) (isLoading isLoading' : bool)
    (u : User) :
  let w1 := step (AuthChanged None isLoading o) w in
  let w2 := step (AuthChanged (Some u) isLoading' o') w1 in
  w1 = upd_st (fun s => set_loading isLoading (set_user None s)) w
  /\ (db_list_ok o' = false ->
      storage_ok o' = false \/ localStorage (env w) !! storage_key (uid u) = None ->
      user (st w2) = Some u /\ sessions (st w2) = sessions (st w)).
Proof.
  cbv zeta. split; [reflexivity|].
  intros Hl Hcases. run. rewrite Hl. run.
  destruct (storage_ok o'); run; [|split; reflexivity].
  destruct Hcases as [Hs|Hnone]; [discriminate|]. rewrite Hnone. split; reflexivity.
Qed.

Lemma sessions_survive_user_change_witness :
  sessions (st (step (AuthChanged (Some {| uid := "u2"; email := "bob@example.org" |})
                        false offline)
                  (step (AuthChanged None false offline) home_with_history)))
  = [older].
Proof.
  destruct (sessions_survive_user_change home_with_history offline offline false false
              {| uid := "u2"; email := "bob@example.org" |}) as [_ H].
  destruct (H eq_refl) as [_ Hs].
  - right. vm_compute. reflexivity.
  - exact Hs.
Defined.

(** ** Invariants of the page *)

(** X14. In every state the page can reach, with any number of starts
    clicked while a microphone request was pending: when [isRecording] is
    set, the ref holds a recorder that is paused exactly when [isPaused] is
    set (the recorder changing state through the calls of the page only);
    every analyser in the ref has 128 frequency bins; and the timer whose
    handle the ref holds runs exactly while the page is recording and not
    paused.  (It need not be the only timer: see X5.) *)
Theorem recording_controls_consistent (w : World) :
  reachable w ->
  (isRecording (st w) = true ->
   exists mr, mediaRecorderRef (refs w) = Some mr
              /\ mr_state mr = if isPaused (st w) then paused else recording)
  /\ (forall a, analyserRef (refs w) = Some a -> frequencyBinCount a = 128%N)
  /\ (if isRecording (st w) && negb (isPaused (st w))
      then exists h, durationIntervalRef (refs w) = Some h /\ h ∈ intervals (env w)
      else forall h, durationIntervalRef (refs w) = Some h -> h ∉ intervals (env w)).
Proof.
  intros Hreach. destruct (reachable_invariant w Hreach) as (Hr & Ha & Ht).
  split; [exact Hr|]. split; [|exact Ht].
  intros a Hsome. unfold frequencyBinCount. rewrite (Ha a Hsome). reflexivity.
Qed.

Lemma double_start_reachable : reachable double_start.
Proof. apply reachable_two_starts; [exact home_reachable|reflexivity]. Qed.

Lemma recording_controls_consistent_witness :
  durationIntervalRef (refs double_start) = Some 4%positive
  /\ 4%positive ∈ intervals (env double_start).
Proof.
  destruct (recording_controls_consistent double_start double_start_reachable)
    as (_ & _ & H).
  assert (Hrec : isRecording (st double_start) && negb (isPaused (st double_start))
                 = true) by (vm_compute; reflexivity).
  rewrite Hrec in H. destruct H as (h & Hh & Hin).
  assert (Href : durationIntervalRef (refs double_start) = Some 4%positive)
    by (vm_compute; reflexivity).
  split; [exact Href|]. rewrite Href in Hh. injection Hh as <-. exact Hin.
Defined.

(** *** Timers out of reach *)

Lemma timers_loadSessions (cl : State) (o : Outside) (w : World) :
  timers (exec (loadSessions cl o) w) = timers w.
Proof.
  unfold timers. run. destruct (user cl) as [u|]; run; [|reflexivity].
  destruct (db_list_ok o); run; [reflexivity|].
  destruct (storage_ok o); run; [|reflexivity].
  destruct (localStorage (env w) !! storage_key (uid u)) as [text|]; run; [|reflexivity].
  destruct (String.eqb text ""); run; [reflexivity|].
  destruct (JSON.parse text) as [[| | | |items|]|]; run; try reflexivity.
  destruct (sessions_of_JSON items); reflexivity.
Qed.

Lemma timers_deleteSession (cl : State) (o : Outside) (sessionId : string) (w : World) :
  timers (exec (deleteSession cl o sessionId) w) = timers w.
Proof.
  unfold timers. run. destruct (db_delete_ok o); run;
    [|destruct (user cl) as [u|]; run; try destruct (storage_ok o)]; reflexivity.
Qed.

Lemma timers_processRecording (cl : State) (o : Outside) (w : World) :
  timers (exec (processRecording cl o) w) = timers w.
Proof.
  unfold timers. run.
  destruct (audioChunksRef (refs w)) as [|c cs]; cbn [length Nat.eqb]; run;
    [reflexivity|].
  destruct (reader o) as [dataUrl|]; run; [|reflexivity].
  destruct (transcription o) as [text|]; run; [|reflexivity].
  destruct (user cl) as [u|]; [destruct (db_create o) as [i|]|];
    run; try destruct (storage_ok o); reflexivity.
Qed.

Lemma orphan_timer_same (h : positive) (w w' : World) :
  timers w' = timers w -> orphan_timer h w -> orphan_timer h w'.
Proof.
  unfold timers, orphan_timer. intros [= H1 H2 H3]. rewrite H1, H2, H3. tauto.
Qed.

Lemma startRecording_orphan (h : positive) (cl : State) (o : Outside) (w : World) :
  orphan_timer h w -> orphan_timer h (exec (startRecording cl o) w).
Proof.
  unfold orphan_timer. intros (Hin & Hlt & Hne). run.
  destruct (microphone o); run; [|auto].
  destruct (mimeSupported o); run.
  - split; [apply in_later, Hin|]. split; [lia|]. intros [= Heq]. lia.
  - split; [exact Hin|]. split; [lia|exact Hne].
Qed.

Lemma pauseRecording_orphan (h : positive) (w : World) :
  orphan_timer h w -> orphan_timer h (exec click_pause w).
Proof.
  unfold orphan_timer. intros (Hin & Hlt & Hne). run.
  destruct (mediaRecorderRef (refs w)) as [mr|] eqn:Hmr; run_with_eqs; [|auto].
  destruct (isRecording (st w)) eqn:Hrec; run_with_eqs; [|auto].
  destruct (isPaused (st w)) eqn:Hp; run_with_eqs; destruct (mr_state mr); run; auto.
  all: try (split; [apply in_later, Hin|split; [lia|intros [= Heq]; lia]]).
  all: destruct (durationIntervalRef (refs w)) as [hi|] eqn:Hd; run; rewrite ?Hd; auto.
  all: split; [apply in_kept; [exact Hin|congruence]|auto].
Qed.

Lemma stopRecording_orphan (h : positive) (w : World) :
  orphan_timer h w -> orphan_timer h (exec click_stop w).
Proof.
  unfold orphan_timer. intros (Hin & Hlt & Hne). run.
  destruct (mediaRecorderRef (refs w)) as [mr|] eqn:Hmr; run_with_eqs; [|auto].
  destruct (isRecording (st w)) eqn:Hrec; run_with_eqs; [|auto].
  destruct (streamRef (refs w)), (audioContextRef (refs w)), (animationFrameRef (refs w)),
    (durationIntervalRef (refs w)) as [hi|] eqn:Hd; run; rewrite ?Hd; auto.
  all: split; [apply in_kept; [exact Hin|congruence]|auto].
Qed.

Lemma step_orphan (h : positive) (e : Event) (w : World) :
  orphan_timer h w -> orphan_timer h (step e w).
Proof.
  intros Horphan. destruct e.
  - revert Horphan. apply orphan_timer_same.
    unfold step, handler.
    rewrite exec_bind. unfold setUser, modify. cbv beta iota.
    rewrite exec_bind. unfold setLoading, modify. cbv beta iota.
    rewrite exec_latest.
    unfold onUserChange. cbn [st upd_st user set_loading set_user].
    destruct u as [u|]; [rewrite timers_loadSessions|]; reflexivity.
  - revert Horphan. apply orphan_timer_same. unfold timers. run. reflexivity.
  - revert Horphan. apply orphan_timer_same. unfold timers. run. reflexivity.
  - exact (startRecording_orphan h (st w) o w Horphan).
  - apply pauseRecording_orphan, Horphan.
  - apply stopRecording_orphan, Horphan.
  - revert Horphan. apply orphan_timer_same.
    unfold step, handler, click_delete. rewrite exec_latest.
    apply timers_deleteSession.
  - revert Horphan. apply orphan_timer_same. unfold timers. run.
    destruct (decide (h0 ∈ intervals (env w))); reflexivity.
  - destruct Horphan as (Hin & Hlt & Hne). unfold orphan_timer. run.
    destruct (decide (h0 ∈ frames (env w))); run; [|auto].
    destruct (analyserRef (refs w)) eqn:Ha; run; rewrite ?Ha; run;
      (split; [exact Hin|split; [try lia; exact Hlt|exact Hne]]).
  - revert Horphan. apply orphan_timer_same. unfold timers. run.
    destruct (0 <? length data)%nat; reflexivity.
  - revert Horphan. apply orphan_timer_same. unfold step, handler, onstop, with_recorder.
    rewrite exec_bind. unfold get_world. cbv beta iota.
    destruct (mediaRecorderRef (refs w)) as [mr|]; [|reflexivity].
    apply timers_processRecording.
Qed.

Lemma follows_run_events (es : list Event) (w : World) : follows w (run_events es w).
Proof.
  unfold run_events. rewrite <- (rev_involutive es).
  induction (rev es) as [|e l IH]; [apply follows_here|].
  cbn [rev]. rewrite fold_left_app. cbn [fold_left]. apply follows_step, IH.
Qed.

(** X24. A timer out of reach is never cleared.  Once an interval runs
    whose handle the ref does not hold, no event of the page (no click, tick,
    frame, recorder or sign-in event, enabled or not) and no start that
    settles later clears it or brings its handle back into the ref: in
    every state that follows it still runs out of reach, and its tick there
    adds one second to the duration on display.  [clearInterval] is only
    ever called on the handle in the ref, and new handles are fresh. *)
Theorem orphan_timer_never_cleared (h : positive) (w w' : World) :
  orphan_timer h w ->
  follows w w' ->
  orphan_timer h w'
  /\ step (IntervalTick h) w'
     = upd_st (set_recordingDuration (recordingDuration (st w') + 1)) w'.
Proof.
  intros Horphan Hfollows.
  assert (H : orphan_timer h w').
  { induction Hfollows as [|e w' _ IH|cl o w' _ IH].
    - exact Horphan.
    - apply step_orphan, IH.
    - apply startRecording_orphan, IH. }
  split; [exact H|]. apply tick_of_running. destruct H as [Hin _]. exact Hin.
Qed.

Lemma orphan_timer_never_cleared_witness :
  orphan_timer 2 double_start
  /\ 2%positive ∈ intervals (env (run_events [ClickPause; ClickPause; ClickStop;
                                               ClickStart online; ClickStop]
                                    double_start)).
Proof.
  assert (Horphan : orphan_timer 2 double_start).
  { split; [vm_compute; reflexivity|]. split; [vm_compute; reflexivity|].
    vm_compute. discriminate. }
  split; [exact Horphan|].
  destruct (orphan_timer_never_cleared 2 double_start _ Horphan
              (follows_run_events [ClickPause; ClickPause; ClickStop; ClickStart online;
                                   ClickStop] double_start))
    as [[Hin _] _].
  exact Hin.
Defined.

(** X15. In every state the page can reach, the audio level on display is a
    number between 0 and 100: never NaN, never negative, never above 100,
    whichever events and spectra led there. *)
Theorem audio_level_always_in_range (w : World) :
  reachable w ->
  exists q, audioLevel (st w) = Lvl q /\ (0 <= q)%Q /\ (q <= 100)%Q.
Proof. intros Hreach. exact (reachable_level_in_range w Hreach). Qed.

Lemma audio_level_always_in_range_witness :
  exists q, audioLevel (st five_seconds_in) = Lvl q /\ (0 <= q)%Q /\ (q <= 100)%Q.
Proof. exact (audio_level_always_in_range five_seconds_in five_seconds_in_reachable). Defined.

Lemma step_selectedLanguage (e : Event) (w : World) :
  selectedLanguage (st (step e w))
  = match e with
    | SelectLanguage code => code
    | _ => selectedLanguage (st w)
    end.
Proof.
  destruct e.
  - unfold step, handler.
    rewrite exec_bind. unfold setUser, modify. cbv beta iota.
    rewrite exec_bind. unfold setLoading, modify. cbv beta iota.
    rewrite exec_latest. unfold onUserChange.
    cbn [st upd_st user set_loading set_user].
    destruct u as [u|]; [|reflexivity].
    rewrite loadSessions_st. reflexivity.
  - reflexivity.
  - reflexivity.
  - run. destruct (microphone o); run; [|reflexivity].
    destruct (mimeSupported o); reflexivity.
  - run. destruct (mediaRecorderRef (refs w)) as [mr|] eqn:Hmr; run_with_eqs;
      [|reflexivity].
    destruct (isRecording (st w)); run_with_eqs; [|reflexivity].
    destruct (isPaused (st w)); run_with_eqs;
      destruct (mr_state mr); run; try reflexivity;
      destruct (durationIntervalRef (refs w)); reflexivity.
  - run. destruct (mediaRecorderRef (refs w)) as [mr|] eqn:Hmr; run_with_eqs;
      [|reflexivity].
    destruct (isRecording (st w)); run_with_eqs; [|reflexivity].
    destruct (streamRef (refs w)), (audioContextRef (refs w)),
      (animationFrameRef (refs w)), (durationIntervalRef (refs w)); reflexivity.
  - unfold step, handler, click_delete. rewrite exec_latest.
    run. destruct (db_delete_ok o); run;
      [|destruct (user (st w)) as [u|]; run; try destruct (storage_ok o)]; reflexivity.
  - run. destruct (decide (h ∈ intervals (env w))); reflexivity.
  - run. destruct (decide (h ∈ frames (env w))); run; [|reflexivity].
    destruct (analyserRef (refs w)); reflexivity.
  - run. destruct (0 <? length data)%nat; reflexivity.
  - unfold step, handler, onstop, with_recorder.
    rewrite exec_bind. unfold get_world. cbv beta iota.
    destruct (mediaRecorderRef (refs w)) as [mr|]; [|reflexivity].
    run. destruct (audioChunksRef (refs w)) as [|c cs]; cbn [length Nat.eqb]; run;
      [reflexivity|].
    destruct (reader o) as [dataUrl|]; run; [|reflexivity].
    destruct (transcription o) as [text|]; run; [|reflexivity].
    destruct (user (mr_onstop mr)) as [u|]; [destruct (db_create o) as [i|]|];
      run; try destruct (storage_ok o); reflexivity.
Qed.

Lemma startRecording_selectedLanguage (cl : State) (o : Outside) (w : World) :
  selectedLanguage (st (exec (startRecording cl o) w)) = selectedLanguage (st w).
Proof.
  run. destruct (microphone o); run; [|reflexivity].
  destruct (mimeSupported o); reflexivity.
Qed.

(** X16. The selected language is always one of the ten supported codes:
    it starts as "en", only the language selector changes it, and the
    selector offers the supported codes only.  So the language of every
    session that [saveSession] builds from a render of a reachable state is
    a supported code. *)
Theorem selected_language_is_supported (w : World) :
  reachable w ->
  In (selectedLanguage (st w)) (List.map fst SUPPORTED_LANGUAGES)
  /\ forall o text duration,
       In (Session.language (newSession (st w) o text duration))
          (List.map fst SUPPORTED_LANGUAGES).
Proof.
  intros [pending Hreach].
  assert (H : In (selectedLanguage (st w)) (List.map fst SUPPORTED_LANGUAGES)).
  { induction Hreach as [|e w pending Hreach IH Hen|w pending _ IH _
                        |cl o w before after _ IH].
    - left. reflexivity.
    - rewrite step_selectedLanguage. destruct e; try exact IH.
      cbn [enabled] in Hen. apply andb_true_iff in Hen as [_ Hen].
      apply existsb_exists in Hen as (c & Hin & Heq).
      apply String.eqb_eq in Heq. subst c. exact Hin.
    - exact IH.
    - rewrite startRecording_selectedLanguage. exact IH. }
  split; [exact H|]. intros o text duration. exact H.
Qed.

Lemma selected_language_is_supported_witness :
  In (selectedLanguage (st five_seconds_in)) (List.map fst SUPPORTED_LANGUAGES).
Proof.
  destruct (selected_language_is_supported five_seconds_in five_seconds_in_reachable)
    as [H _].
  exact H.
Defined.

(** ** The display of durations and levels *)

Lemma length_append (s t : string) :
  String.length (s +:+ t) = (String.length s + String.length t)%nat.
Proof.
  induction s as [|c s IH]; [reflexivity|].
  change (String c s +:+ t) with (String c (s +:+ t)). cbn [String.length].
  rewrite IH. reflexivity.
Qed.

Lemma append_inj_same_length (s1 s2 t1 t2 : string) :
  String.length s1 = String.length s2 ->
  s1 +:+ t1 = s2 +:+ t2 -> s1 = s2 /\ t1 = t2.
Proof.
  revert s2. induction s1 as [|c s1 IH]; intros [|d s2]; cbn [String.length];
    try discriminate.
  - auto.
  - change (String c s1 +:+ t1) with (String c (s1 +:+ t1)).
    change (String d s2 +:+ t2) with (String d (s2 +:+ t2)).
    intros [= Hlen] [= -> Happ]. destruct (IH s2 Hlen Happ) as [-> ->]. auto.
Qed.

Lemma two_digits_inj (a b : Z) :
  0 <= a < 100 -> 0 <= b < 100 -> two_digits a = two_digits b -> a = b.
Proof.
  intros Ha Hb. unfold two_digits, digit. intros [= H1 H2].
  assert (Hd : forall x y, 0 <= x < 10 -> 0 <= y < 10 ->
                 ascii_of_nat (48 + Z.to_nat x) = ascii_of_nat (48 + Z.to_nat y) -> x = y).
  { intros x y Hx Hy H. apply (f_equal nat_of_ascii) in H.
    rewrite !nat_ascii_embedding in H by lia. lia. }
  assert (Ha1 : 0 <= a / 10 < 10)
    by (split; [apply Z.div_pos; lia|apply Z.div_lt_upper_bound; lia]).
  assert (Hb1 : 0 <= b / 10 < 10)
    by (split; [apply Z.div_pos; lia|apply Z.div_lt_upper_bound; lia]).
  assert (Ha2 : 0 <= a mod 10 < 10) by (apply Z.mod_pos_bound; lia).
  assert (Hb2 : 0 <= b mod 10 < 10) by (apply Z.mod_pos_bound; lia).
  apply Hd in H1; [|assumption|assumption].
  apply Hd in H2; [|assumption|assumption].
  rewrite (Z.div_mod a 10), (Z.div_mod b 10) by lia. lia.
Qed.

Lemma formatDuration_shape (D : Z) :
  0 <= D ->
  formatDuration D = Js.Number_toString (D / 60) +:+ ":" +:+ two_digits (D mod 60).
Proof.
  intros HD. unfold formatDuration. cbv zeta.
  rewrite Z.rem_mod_nonneg by lia.
  assert (Hr : 0 <= D mod 60 < 60) by (apply Z.mod_pos_bound; lia).
  rewrite <- (Z2Nat.id (D mod 60)) by lia.
  rewrite padStart_seconds by lia. reflexivity.
Qed.

(** X17. Different durations are displayed differently: on the non-negative
    integers [formatDuration] is injective. *)
Theorem formatDuration_injective (D1 D2 : Z) :
  0 <= D1 -> 0 <= D2 ->
  formatDuration D1 = formatDuration D2 -> D1 = D2.
Proof.
  intros H1 H2.
  rewrite (formatDuration_shape D1 H1), (formatDuration_shape D2 H2).
  intros Heq.
  assert (Hlen := f_equal String.length Heq).
  rewrite !length_append in Hlen. unfold two_digits in Hlen.
  cbn [String.length] in Hlen.
  apply append_inj_same_length in Heq as [Hm Hs]; [|lia].
  unfold Js.Number_toString in Hm. apply (inj pretty) in Hm.
  apply (String.app_inj ":") in Hs.
  apply two_digits_inj in Hs; try (apply Z.mod_pos_bound; lia).
  - rewrite (Z.div_mod D1 60), (Z.div_mod D2 60) by lia. lia.
  - assert (0 <= D1 mod 60 < 60) by (apply Z.mod_pos_bound; lia). lia.
  - assert (0 <= D2 mod 60 < 60) by (apply Z.mod_pos_bound; lia). lia.
Qed.

Lemma formatDuration_injective_witness :
  formatDuration 61 <> formatDuration 121.
Proof.
  intros H. apply (formatDuration_injective 61 121) in H; lia.
Defined.

Lemma level_of_raw (b : byte) (l : list byte) :
  let d := b :: l in
  (inject_Z (sum_bytes d) / inject_Z (Z.of_nat (length d)) / 128 * 100
   == inject_Z (100 * sum_bytes d) / inject_Z (128 * Z.of_nat (length d)))%Q.
Proof.
  cbv zeta. rewrite !inject_Z_mult.
  assert (Hlen : ~ (inject_Z (Z.of_nat (length (b :: l))) == 0)%Q).
  { change 0%Q with (inject_Z 0). rewrite inject_Z_injective. cbn [length]. lia. }
  field. exact Hlen.
Qed.

(** X18. The level bar saturates at half scale.  On a buffer that is not
    empty the level is 100 exactly when the mean amplitude is at least 128,
    and otherwise it is 100 times the sum of the samples over 128 times their
    number, which is below 100; on silence it is 0. *)
Theorem level_saturates_at_half_scale (dataArray : list byte) :
  dataArray <> [] ->
  exists q, level_of dataArray = Lvl q
    /\ (if 128 * Z.of_nat (length dataArray) <=? sum_bytes dataArray
        then (q == 100)%Q
        else (q == inject_Z (100 * sum_bytes dataArray)
                   / inject_Z (128 * Z.of_nat (length dataArray)))%Q
             /\ (q < 100)%Q)
    /\ (sum_bytes dataArray = 0 -> (q == 0)%Q).
Proof.
  intros Hne. destruct dataArray as [|b l]; [contradiction|].
  unfold level_of. eexists. split; [reflexivity|].
  set (n := Z.of_nat (length (b :: l))). set (s := sum_bytes (b :: l)).
  assert (Hq : (Qmin 100 (inject_Z s / inject_Z n / 128 * 100)
                == Qmin 100 (inject_Z (100 * s) / inject_Z (128 * n)))%Q).
  { assert (Hraw := level_of_raw b l). cbv zeta in Hraw. fold n s in Hraw.
    rewrite Hraw. reflexivity. }
  assert (Hn : 0 < n) by (unfold n; cbn [length]; lia).
  assert (Hpos : (0 < inject_Z (128 * n))%Q).
  { change 0%Q with (inject_Z 0). rewrite <- Zlt_Qlt. lia. }
  assert (Hcmp : forall a, (100 <= inject_Z (100 * a) / inject_Z (128 * n))%Q
                           <-> 128 * n <= a).
  { intros a. split.
    - intros H. destruct (Z.le_gt_cases (128 * n) a) as [Hle|Hgt]; [exact Hle|].
      exfalso. apply (Qle_not_lt _ _ H). apply Qlt_shift_div_r; [exact Hpos|].
      change 100%Q with (inject_Z 100).
      rewrite <- inject_Z_mult, <- Zlt_Qlt. lia.
    - intros H. apply Qle_shift_div_l; [exact Hpos|].
      change 100%Q with (inject_Z 100).
      rewrite <- inject_Z_mult, <- Zle_Qle. lia. }
  split.
  - destruct (Z.leb_spec (128 * n) s) as [Hle|Hlt].
    + rewrite Hq. apply Q.min_l, Hcmp, Hle.
    + assert (Hbelow : (inject_Z (100 * s) / inject_Z (128 * n) < 100)%Q).
      { apply Qnot_le_lt. intros H. apply Hcmp in H. lia. }
      rewrite Hq, Q.min_r by apply Qlt_le_weak, Hbelow.
      split; [reflexivity|exact Hbelow].
  - intros Hs. rewrite Hq, Hs. 
    assert (Hzero : (inject_Z (100 * 0) / inject_Z (128 * n) == 0)%Q).
    { unfold Qdiv. cbn [Z.mul inject_Z]. apply Qmult_0_l. }
    rewrite Hzero. reflexivity.
Qed.

Lemma level_saturates_at_half_scale_witness :
  exists q, level_of (replicate 128 x80) = Lvl q /\ (q == 100)%Q.
Proof.
  destruct (level_saturates_at_half_scale (replicate 128 x80)) as (q & Hq & Hif & _).
  - discriminate.
  - exists q. split; [exact Hq|].
    assert (Hc : (128 * Z.of_nat (length (replicate 128 x80))
                  <=? sum_bytes (replicate 128 x80)) = true) by (vm_compute; reflexivity).
    rewrite Hc in Hif. exact Hif.
Defined.


(** * Part IV: round trips *)

(** ** Dates as ISO text *)

Lemma all_below_spec (n : N) (f : Z -> bool) (v : Z) :
  all_below n f = true -> 0 <= v < Z.of_N n -> f v = true.
Proof.
  unfold all_below.
  assert (H : forall n,
            let r := N.iter n (fun p => (fst p && f (snd p), snd p + 1)) (true, 0) in
            snd r = Z.of_N n
            /\ (fst r = true -> forall v, 0 <= v < Z.of_N n -> f v = true)).
  { clear n v. intros n. induction n as [|n IH] using N.peano_ind.
    - cbn. split; [reflexivity|]. intros _ v Hv. lia.
    - cbv zeta in *. rewrite N.iter_succ. cbn [fst snd].
      destruct IH as [Hsnd Hfst]. split; [rewrite Hsnd; lia|].
      intros Hand v Hv. apply andb_true_iff in Hand as [Hall Hlast].
      destruct (Z.eq_dec v (Z.of_N n)) as [->|Hne].
      + rewrite <- Hsnd. exact Hlast.
      + apply Hfst; [exact Hall|lia]. }
  intros Hall. exact (proj2 (H n) Hall v).
Qed.

Lemma pad2_fixed (v : Z) : 0 <= v < 100 -> JsDate.pad 2 v = fixed2 v.
Proof.
  intros Hv.
  assert (H : all_below 100 (fun v => String.eqb (JsDate.pad 2 v) (fixed2 v)) = true)
    by (vm_compute; reflexivity).
  apply String.eqb_eq. exact (all_below_spec _ _ v H Hv).
Qed.

Lemma pad3_fixed (v : Z) : 0 <= v < 1000 -> JsDate.pad 3 v = fixed3 v.
Proof.
  intros Hv.
  assert (H : all_below 1000 (fun v => String.eqb (JsDate.pad 3 v) (fixed3 v)) = true)
    by (vm_compute; reflexivity).
  apply String.eqb_eq. exact (all_below_spec _ _ v H Hv).
Qed.

Lemma pad4_fixed (v : Z) : 0 <= v < 10000 -> JsDate.pad 4 v = fixed4 v.
Proof.
  intros Hv.
  assert (H : all_below 10000 (fun v => String.eqb (JsDate.pad 4 v) (fixed4 v)) = true)
    by (vm_compute; reflexivity).
  apply String.eqb_eq. exact (all_below_spec _ _ v H Hv).
Qed.

Lemma era_days_ok (doe : Z) : 0 <= doe < 146097 -> era_day_ok doe = true.
Proof.
  assert (H : all_below 146097 era_day_ok = true) by (vm_compute; reflexivity).
  exact (all_below_spec _ _ doe H).
Qed.

Lemma digit_val_digit (a : Z) : 0 <= a < 10 -> JsDate.digit_val (digit a) = Some a.
Proof.
  intros Ha.
  assert (H : a = 0 \/ a = 1 \/ a = 2 \/ a = 3 \/ a = 4 \/ a = 5 \/ a = 6 \/ a = 7
              \/ a = 8 \/ a = 9) by lia.
  repeat (destruct H as [->|H]; [reflexivity|]). subst a. reflexivity.
Qed.

(** [civil_from_days] and [days_from_civil] are inverse, and between the
    years 0 and 9999 the year stays in that range. *)
Lemma civil_round_trip (days : Z) :
  match JsDate.civil_from_days days with
  | (y, m, d) =>
      JsDate.days_from_civil y m d = days
      /\ 1 <= m <= 12 /\ 1 <= d <= 31
      /\ (-719528 <= days <= 2932896 -> 0 <= y <= 9999)
  end.
Proof.
  unfold JsDate.civil_from_days. cbv zeta.
  set (z0 := days + 719468). set (era := z0 / 146097).
  set (doe := z0 - era * 146097).
  assert (Hera : era * 146097 <= z0 < (era + 1) * 146097).
  { unfold era. pose proof (Z.div_mod z0 146097 ltac:(lia)) as Hdm.
    pose proof (Z.mod_pos_bound z0 146097 ltac:(lia)). lia. }
  assert (Hdoe : 0 <= doe < 146097) by (unfold doe; lia).
  pose proof (era_days_ok doe Hdoe) as Hok. unfold era_day_ok in Hok. cbv zeta in Hok.
  set (yoe := (doe - doe / 1460 + doe / 36524 - doe / 146096) / 365) in *.
  set (doy := doe - (365 * yoe + yoe / 4 - yoe / 100)) in *.
  set (mp := (5 * doy + 2) / 153) in *.
  set (d := doy - (153 * mp + 2) / 5 + 1) in *.
  set (m := if mp <? 10 then mp + 3 else mp - 9) in *.
  repeat (apply andb_true_iff in Hok as [Hok ?]).
  repeat match goal with
         | H : (_ <=? _) = true |- _ => apply Z.leb_le in H
         | H : (_ <? _) = true |- _ => apply Z.ltb_lt in H
         | H : (_ =? _) = true |- _ => apply Z.eqb_eq in H
         end.
  match goal with H : Bool.eqb _ _ = true |- _ => apply Bool.eqb_prop in H; rename H into Hcarry end.
  unfold JsDate.days_from_civil. cbv zeta.
  assert (Hy : (if m <=? 2
                then (if m <=? 2 then yoe + era * 400 + 1 else yoe + era * 400) - 1
                else (if m <=? 2 then yoe + era * 400 + 1 else yoe + era * 400))
               = yoe + era * 400) by (destruct (m <=? 2); lia).
  rewrite Hy.
  assert (Hera' : (yoe + era * 400) / 400 = era).
  { rewrite Z.div_add by lia. rewrite Z.div_small by lia. lia. }
  rewrite Hera'.
  replace (yoe + era * 400 - era * 400) with yoe by lia.
  split; [unfold doe in *; lia|]. split; [lia|]. split; [lia|].
  intros Hdays.
  assert (Hrange : -1 <= era <= 24) by (unfold z0 in *; lia).
  destruct (m <=? 2) eqn:Hm.
  - destruct (Z.eq_dec yoe 399) as [Hy399|Hy399].
    + rewrite Hy399, Z.eqb_refl in Hcarry. cbn in Hcarry. symmetry in Hcarry.
      apply Z.leb_le in Hcarry. unfold doe, z0 in *. lia.
    + lia.
  - assert (Hnc : (146037 <=? doe) = false).
    { rewrite <- Hcarry. apply andb_false_r. }
    apply Z.leb_gt in Hnc. unfold doe, z0 in *. lia.
Qed.

(** Parsing a text of the ISO shape whose fields are written in fixed
    width. *)
Lemma parse_fixed (y m d hh mi ss mmm : Z) :
  0 <= y < 10000 -> 0 <= m < 100 -> 0 <= d < 100 -> 0 <= hh < 100 ->
  0 <= mi < 100 -> 0 <= ss < 100 -> 0 <= mmm < 1000 ->
  JsDate.parse (fixed4 y +:+ "-" +:+ fixed2 m +:+ "-" +:+ fixed2 d +:+ "T"
                +:+ fixed2 hh +:+ ":" +:+ fixed2 mi +:+ ":" +:+ fixed2 ss +:+ "."
                +:+ fixed3 mmm +:+ "Z")
  = if (1 <=? m) && (m <=? 12) && (1 <=? d) && (d <=? 31)
       && ((hh <=? 23) || ((hh =? 24) && (mi =? 0) && (ss =? 0) && (mmm =? 0)))
       && (mi <=? 59) && (ss <=? 59)
    then ValidDate (JsDate.days_from_civil y m d * JsDate.msPerDay
                    + hh * 3600000 + mi * 60000 + ss * 1000 + mmm)
    else InvalidDate.
Proof.
  intros Hy Hm Hd Hhh Hmi Hss Hmmm.
  assert (D2 : forall v, 0 <= v < 100 -> 0 <= v / 10 < 10 /\ 0 <= v mod 10 < 10).
  { intros v Hv. split; [|apply Z.mod_pos_bound; lia].
    split; [apply Z.div_pos; lia|apply Z.div_lt_upper_bound; lia]. }
  assert (D3 : forall v, 0 <= v < 1000 -> 0 <= v / 100 < 10 /\ 0 <= v mod 100 < 100).
  { intros v Hv. split; [|apply Z.mod_pos_bound; lia].
    split; [apply Z.div_pos; lia|apply Z.div_lt_upper_bound; lia]. }
  assert (D4 : forall v, 0 <= v < 10000 -> 0 <= v / 1000 < 10 /\ 0 <= v mod 1000 < 1000).
  { intros v Hv. split; [|apply Z.mod_pos_bound; lia].
    split; [apply Z.div_pos; lia|apply Z.div_lt_upper_bound; lia]. }
  destruct (D4 y Hy) as [Hy1 Hy']. destruct (D3 _ Hy') as [Hy2 Hy''].
  destruct (D2 _ Hy'') as [Hy3 Hy4].
  destruct (D2 m Hm) as [Hm1 Hm2]. destruct (D2 d Hd) as [Hd1 Hd2].
  destruct (D2 hh Hhh) as [Hh1 Hh2]. destruct (D2 mi Hmi) as [Hi1 Hi2].
  destruct (D2 ss Hss) as [Hs1 Hs2].
  destruct (D3 mmm Hmmm) as [Hf1 Hf']. destruct (D2 _ Hf') as [Hf2 Hf3].
  unfold fixed4, fixed3, fixed2.
  cbv beta iota delta [String.append].
  unfold JsDate.parse, JsDate.char_at, JsDate.number_at.
  cbn [String.length String.get String.substring Nat.eqb andb JsDate.digits_val].
  repeat (rewrite digit_val_digit by assumption; cbn [JsDate.digits_val]).
  cbn [Ascii.eqb Bool.eqb andb].
  assert (E2 : forall v, 10 * (10 * 0 + v / 10) + v mod 10 = v).
  { intros v. pose proof (Z.div_mod v 10 ltac:(lia)). lia. }
  assert (E3 : forall v, 10 * (10 * (10 * 0 + v / 100) + (v mod 100) / 10)
                         + (v mod 100) mod 10 = v).
  { intros v. pose proof (Z.div_mod v 100 ltac:(lia)).
    pose proof (Z.div_mod (v mod 100) 10 ltac:(lia)). lia. }
  assert (E4 : 10 * (10 * (10 * (10 * 0 + y / 1000) + (y mod 1000) / 100)
                     + ((y mod 1000) mod 100) / 10) + ((y mod 1000) mod 100) mod 10 = y).
  { pose proof (Z.div_mod y 1000 ltac:(lia)).
    pose proof (Z.div_mod (y mod 1000) 100 ltac:(lia)).
    pose proof (Z.div_mod ((y mod 1000) mod 100) 10 ltac:(lia)). lia. }
  rewrite E4, !E2, E3. reflexivity.
Qed.

(** [new Date(d.toISOString())] for a time value of a four-digit year. *)
Lemma parse_toISOString (ms : Z) :
  min_four_digit_year <= ms <= max_four_digit_year ->
  JsDate.parse (JsDate.toISOString ms) = ValidDate ms.
Proof.
  unfold min_four_digit_year, max_four_digit_year. intros Hms.
  unfold JsDate.toISOString. cbv zeta. unfold JsDate.msPerDay.
  set (days := ms / 86400000). set (t := ms mod 86400000).
  assert (Ht : 0 <= t < 86400000) by (apply Z.mod_pos_bound; lia).
  assert (Hsplit : ms = 86400000 * days + t) by (apply Z.div_mod; lia).
  assert (Hdays : -719528 <= days <= 2932896) by lia.
  pose proof (civil_round_trip days) as Hcivil.
  destruct (JsDate.civil_from_days days) as [[y m] d].
  destruct Hcivil as (Hback & Hm & Hd & Hy). specialize (Hy Hdays).
  assert (Hyb : (0 <=? y) && (y <=? 9999) = true).
  { apply andb_true_iff. split; apply Z.leb_le; lia. }
  rewrite Hyb.
  assert (Hhh : 0 <= t / 3600000 < 24).
  { split; [apply Z.div_pos; lia|apply Z.div_lt_upper_bound; lia]. }
  assert (Hmi : 0 <= t / 60000 mod 60 < 60) by (apply Z.mod_pos_bound; lia).
  assert (Hss : 0 <= t / 1000 mod 60 < 60) by (apply Z.mod_pos_bound; lia).
  assert (Hmmm : 0 <= t mod 1000 < 1000) by (apply Z.mod_pos_bound; lia).
  rewrite (pad4_fixed y) by lia.
  rewrite (pad2_fixed m), (pad2_fixed d), (pad2_fixed (t / 3600000)),
    (pad2_fixed (t / 60000 mod 60)), (pad2_fixed (t / 1000 mod 60)) by lia.
  rewrite (pad3_fixed (t mod 1000)) by lia.
  rewrite parse_fixed by lia.
  assert (Hhour : (t / 3600000 <=? 23) = true) by (apply Z.leb_le; lia).
  assert (Hvalid : (1 <=? m) && (m <=? 12) && (1 <=? d) && (d <=? 31)
                   && ((t / 3600000 <=? 23)
                       || ((t / 3600000 =? 24) && (t / 60000 mod 60 =? 0)
                           && (t / 1000 mod 60 =? 0) && (t mod 1000 =? 0)))
                   && (t / 60000 mod 60 <=? 59)
                   && (t / 1000 mod 60 <=? 59) = true).
  { rewrite Hhour, orb_true_l.
    repeat (apply andb_true_iff; split); try reflexivity; apply Z.leb_le; lia. }
  rewrite Hvalid, Hback. f_equal. unfold JsDate.msPerDay.
  pose proof (Z.div_mod t 3600000 ltac:(lia)).
  pose proof (Z.div_mod t 60000 ltac:(lia)).
  pose proof (Z.div_mod t 1000 ltac:(lia)).
  pose proof (Z.div_mod (t / 60000) 60 ltac:(lia)).
  pose proof (Z.div_mod (t / 1000) 60 ltac:(lia)).
  assert (Hh60 : t / 60000 / 60 = t / 3600000) by (rewrite Z.div_div by lia; reflexivity).
  assert (Hm60 : t / 1000 / 60 = t / 60000) by (rewrite Z.div_div by lia; reflexivity).
  lia.
Qed.

(** X19. Dates survive the ISO text: for every time value whose year has
    four digits (from 0000-01-01T00:00:00.000Z to 9999-12-31T23:59:59.999Z),
    [new Date(d.toISOString())] is the same instant.  This is what the
    [createdAt] of a saved row and the [timestamp] of a locally stored
    session go through. *)
Theorem Date_ISO_round_trip (ms : Z) :
  min_four_digit_year <= ms <= max_four_digit_year ->
  JsDate.parse (JsDate.toISOString ms) = ValidDate ms.
Proof. exact (parse_toISOString ms). Qed.

Lemma Date_ISO_round_trip_witness :
  JsDate.parse (JsDate.toISOString 1730543021123) = ValidDate 1730543021123.
Proof.
  apply Date_ISO_round_trip.
  unfold min_four_digit_year, max_four_digit_year. lia.
Defined.

(** ** JSON text *)

Lemma append_assoc (a b c : string) : (a +:+ b) +:+ c = a +:+ (b +:+ c).
Proof.
  induction a as [|x a IH]; [reflexivity|].
  change (String x a +:+ b) with (String x (a +:+ b)).
  change (String x (a +:+ b) +:+ c) with (String x ((a +:+ b) +:+ c)).
  rewrite IH. reflexivity.
Qed.

Lemma append_cons (x : ascii) (a b : string) : String x a +:+ b = String x (a +:+ b).
Proof. reflexivity. Qed.

Lemma append_nil_l (b : string) : "" +:+ b = b.
Proof. reflexivity. Qed.

(** One escaped character is read back as that character. *)
Lemma parse_chars_escape_char (c : ascii) (t : string) :
  JSON.parse_chars (JSON.escape_char c +:+ t)
  = match JSON.parse_chars t with
    | Some (u, r) => Some (String c u, r)
    | None => None
    end.
Proof.
  destruct c as [[] [] [] [] [] [] [] []]; reflexivity.
Qed.

Lemma parse_chars_escape (s rest : string) :
  JSON.parse_chars (JSON.escape s +:+ String Js.dquote rest) = Some (s, rest).
Proof.
  induction s as [|c s IH].
  - reflexivity.
  - change (JSON.escape (String c s)) with (JSON.escape_char c +:+ JSON.escape s).
    rewrite append_assoc, parse_chars_escape_char, IH. reflexivity.
Qed.

Lemma parse_quote (s rest : string) :
  JSON.quote s +:+ rest = String Js.dquote (JSON.escape s +:+ String Js.dquote rest).
Proof.
  unfold JSON.quote. rewrite append_assoc, append_cons. reflexivity.
Qed.

(** *** Numbers *)

Lemma digit_val_char (d : N) :
  (d < 10)%N -> JsDate.digit_val (pretty_N_char d) = Some (Z.of_N d).
Proof.
  intros Hd.
  assert (H : (d = 0 \/ d = 1 \/ d = 2 \/ d = 3 \/ d = 4 \/ d = 5 \/ d = 6 \/ d = 7
               \/ d = 8 \/ d = 9)%N) by lia.
  repeat (destruct H as [->|H]; [reflexivity|]). subst d. reflexivity.
Qed.

(** The digits that [pretty] writes for a positive number are read back,
    whatever has been read before and whatever follows. *)
Lemma parse_digits_pretty (x : N) :
  (0 < x)%N ->
  exists k, (0 < k)%nat /\ forall acc count s,
    JSON.parse_digits acc count (pretty_N_go x s)
    = JSON.parse_digits (acc * 10 ^ Z.of_nat k + Z.of_N x) (count + k) s.
Proof.
  induction (N.lt_wf_0 x) as [x _ IH]. intros Hx.
  assert (Hmod : (x `mod` 10 < 10)%N) by (apply N.mod_lt; lia).
  assert (Hstep : forall acc count s,
            JSON.parse_digits acc count (String (pretty_N_char (x `mod` 10)) s)
            = JSON.parse_digits (10 * acc + Z.of_N (x `mod` 10)) (S count) s).
  { intros acc count s. cbn [JSON.parse_digits]. rewrite digit_val_char by exact Hmod.
    reflexivity. }
  destruct (N.eq_dec (x `div` 10)%N 0%N) as [Hz|Hnz].
  - exists 1%nat. split; [lia|]. intros acc count s.
    rewrite pretty_N_go_step by exact Hx. rewrite Hz, pretty_N_go_0, Hstep.
    f_equal; [|lia].
    assert ((x `mod` 10)%N = x) by (apply N.mod_small, N.div_small_iff; lia). lia.
  - destruct (IH (x `div` 10)%N) as (k & Hk & Hrec).
    + apply N.div_lt; lia.
    + apply N.neq_0_lt_0; exact Hnz.
    + exists (S k). split; [lia|]. intros acc count s.
      rewrite pretty_N_go_step by exact Hx. rewrite Hrec, Hstep.
      f_equal; [|lia].
      rewrite Nat2Z.inj_succ, Z.pow_succ_r by lia.
      pose proof (N.div_mod x 10 ltac:(lia)). lia.
Qed.

(** The first character that [pretty] writes for a positive number is a
    digit from 1 to 9. *)
Lemma pretty_first_digit (x : N) (s : string) :
  (0 < x)%N ->
  exists d t, (1 <= d <= 9)%N /\ pretty_N_go x s = String (pretty_N_char d) t.
Proof.
  revert s. induction (N.lt_wf_0 x) as [x _ IH]. intros s Hx.
  rewrite pretty_N_go_step by exact Hx.
  destruct (N.eq_dec (x `div` 10)%N 0%N) as [Hz|Hnz].
  - rewrite Hz, pretty_N_go_0. exists (x `mod` 10)%N, s. split; [|reflexivity].
    assert ((x `mod` 10)%N = x) by (apply N.mod_small, N.div_small_iff; lia).
    assert (x < 10)%N by (apply N.div_small_iff; lia). lia.
  - apply IH; [apply N.div_lt; lia|apply N.neq_0_lt_0; exact Hnz].
Qed.

Lemma pretty_N_go_append (x : N) (s rest : string) :
  pretty_N_go x s +:+ rest = pretty_N_go x (s +:+ rest).
Proof.
  revert s. induction (N.lt_wf_0 x) as [x _ IH]. intros s.
  destruct (N.eq_dec x 0%N) as [->|Hx].
  - rewrite !pretty_N_go_0. reflexivity.
  - rewrite (pretty_N_go_step x s), (pretty_N_go_step x (s +:+ rest)) by lia.
    rewrite IH by (apply N.div_lt; lia).
    reflexivity.
Qed.

Lemma at_delimiter_cases (rest : string) :
  at_delimiter rest = true ->
  rest = "" \/ exists r, rest = String "," r \/ rest = String "]" r \/ rest = String "}" r.
Proof.
  destruct rest as [|c r]; [left; reflexivity|]. intros H. right. exists r.
  cbn in H. apply orb_true_iff in H as [H|H]; [apply orb_true_iff in H as [H|H]|];
    apply Ascii.eqb_eq in H; subst c; auto.
Qed.

Lemma parse_digits_stop (acc : Z) (count : nat) (rest : string) :
  at_delimiter rest = true -> JSON.parse_digits acc count rest = (acc, count, rest).
Proof.
  intros H. destruct (at_delimiter_cases rest H) as [->|(r & [->|[->| ->]])]; reflexivity.
Qed.

Lemma parse_number_digits (d : N) (t : string) (n : Z) (k : nat) (rest : string) :
  (1 <= d <= 9)%N ->
  JSON.parse_digits 0 0 (String (pretty_N_char d) t) = (n, k, rest) ->
  (0 < k)%nat ->
  at_delimiter rest = true ->
  JSON.parse_number (String (pretty_N_char d) t) = Some (n, rest)
  /\ JSON.parse_number (String "-" (String (pretty_N_char d) t)) = Some (- n, rest).
Proof.
  intros Hd Hp Hk Hrest.
  assert (Hzero : (k =? 0)%nat = false) by (apply Nat.eqb_neq; lia).
  assert (H : (d = 1 \/ d = 2 \/ d = 3 \/ d = 4 \/ d = 5 \/ d = 6 \/ d = 7
               \/ d = 8 \/ d = 9)%N) by lia.
  unfold JSON.parse_number.
  destruct (at_delimiter_cases rest Hrest) as [->|(r & [->|[->| ->]])];
    repeat (destruct H as [->|H]; [cbv beta iota zeta delta [pretty_N_char] in *;
      rewrite Hp, Hzero; split; reflexivity|]);
    subst d; cbv beta iota zeta delta [pretty_N_char] in *;
      rewrite Hp, Hzero; split; reflexivity.
Qed.

(** A number written by [Number_toString] is read back by the parser. *)
Lemma parse_number_pretty (n : Z) (rest : string) :
  at_delimiter rest = true ->
  JSON.parse_number (Js.Number_toString n +:+ rest) = Some (n, rest).
Proof.
  intros Hrest. unfold Js.Number_toString.
  assert (Hpos : forall p : positive,
            JSON.parse_number (pretty (Npos p) +:+ rest) = Some (Z.pos p, rest)
            /\ JSON.parse_number (String "-" (pretty (Npos p) +:+ rest))
               = Some (Z.neg p, rest)).
  { intros p. change (pretty (N.pos p)) with (pretty_N_go (N.pos p) "").
    rewrite pretty_N_go_append. change ("" +:+ rest) with rest.
    destruct (pretty_first_digit (N.pos p) rest ltac:(lia)) as (d & t & Hd & Ht).
    destruct (parse_digits_pretty (N.pos p) ltac:(lia)) as (k & Hk & Hdigits).
    specialize (Hdigits 0 0%nat rest).
    rewrite (parse_digits_stop _ _ rest Hrest) in Hdigits.
    rewrite Ht in *.
    exact (parse_number_digits d t _ _ rest Hd Hdigits Hk Hrest). }
  destruct n as [|p|p].
  - change (pretty 0 +:+ rest) with (String "0" rest). unfold JSON.parse_number.
    destruct (at_delimiter_cases rest Hrest) as [->|(r & [->|[->| ->]])]; reflexivity.
  - exact (proj1 (Hpos p)).
  - exact (proj2 (Hpos p)).
Qed.

(** *** Values *)

(** Induction on a JSON value that reaches the items of an array and the
    members of an object. *)
Lemma value_nested_ind (P : JSON.value -> Prop) :
  P JSON.Null ->
  (forall b, P (JSON.Bool b)) ->
  (forall n, P (JSON.Num n)) ->
  (forall s, P (JSON.Str s)) ->
  (forall items, Forall P items -> P (JSON.Arr items)) ->
  (forall members, Forall (fun kv => P (snd kv)) members -> P (JSON.Obj members)) ->
  forall v, P v.
Proof.
  intros HNull HBool HNum HStr HArr HObj.
  fix IH 1. intros [ |b|n|s|items|members].
  - exact HNull.
  - apply HBool.
  - apply HNum.
  - apply HStr.
  - apply HArr. induction items as [|v items IHitems]; constructor.
    + apply IH.
    + exact IHitems.
  - apply HObj. induction members as [|[k v] members IHmembers]; constructor.
    + apply IH.
    + exact IHmembers.
Qed.

Lemma substring_all (s : string) (m : nat) :
  (String.length s <= m)%nat -> String.substring 0 m s = s.
Proof.
  revert m. induction s as [|c s IH]; intros [|m] Hm; cbn in *; try reflexivity; try lia.
  rewrite IH by lia. reflexivity.
Qed.

Lemma append_nil_r (s : string) : s +:+ "" = s.
Proof.
  induction s as [|c s IH]; [reflexivity|].
  change (String c s +:+ "") with (String c (s +:+ "")). rewrite IH. reflexivity.
Qed.

Lemma starts_value_digit (d : N) : (1 <= d <= 9)%N -> starts_value (pretty_N_char d) = true.
Proof.
  intros Hd.
  assert (H : (d = 1 \/ d = 2 \/ d = 3 \/ d = 4 \/ d = 5 \/ d = 6 \/ d = 7
               \/ d = 8 \/ d = 9)%N) by lia.
  repeat (destruct H as [->|H]; [reflexivity|]). subst d. reflexivity.
Qed.

(** The text of a number starts with a digit or a minus sign. *)
Lemma Number_toString_first (n : Z) (rest : string) :
  exists c t, Js.Number_toString n +:+ rest = String c t /\ starts_value c = true
              /\ Ascii.eqb c "[" = false /\ Ascii.eqb c "{" = false
              /\ Ascii.eqb c Js.dquote = false /\ Ascii.eqb c "n" = false
              /\ Ascii.eqb c "t" = false /\ Ascii.eqb c "f" = false.
Proof.
  unfold Js.Number_toString. destruct n as [|p|p].
  - exists "0"%char, rest. repeat split; reflexivity.
  - change (pretty (Z.pos p)) with (pretty_N_go (N.pos p) "").
    rewrite pretty_N_go_append. change ("" +:+ rest) with rest.
    destruct (pretty_first_digit (N.pos p) rest ltac:(lia)) as (d & t & Hd & Ht).
    exists (pretty_N_char d), t. split; [exact Ht|].
    assert (H : (d = 1 \/ d = 2 \/ d = 3 \/ d = 4 \/ d = 5 \/ d = 6 \/ d = 7
                 \/ d = 8 \/ d = 9)%N) by lia.
    repeat (destruct H as [->|H]; [repeat split; reflexivity|]).
    subst d. repeat split; reflexivity.
  - exists "-"%char, (pretty (N.pos p) +:+ rest). repeat split; reflexivity.
Qed.

(** The text of a value starts with one of the characters of [starts_value]. *)
Lemma stringify_first (v : JSON.value) (rest : string) :
  exists c t, JSON.stringify v +:+ rest = String c t /\ starts_value c = true.
Proof.
  destruct v as [ |[|]|n|s|items|members].
  - exists "n"%char, ("ull" +:+ rest). split; reflexivity.
  - exists "t"%char, ("rue" +:+ rest). split; reflexivity.
  - exists "f"%char, ("alse" +:+ rest). split; reflexivity.
  - destruct (Number_toString_first n rest) as (c & t & H1 & H2 & _). exists c, t. auto.
  - exists Js.dquote, (JSON.escape s +:+ String Js.dquote rest).
    split; [apply parse_quote|reflexivity].
  - eexists "["%char, _. split; reflexivity.
  - eexists "{"%char, _. split; reflexivity.
Qed.

(** *** One step of the parser on each kind of text *)

Lemma prefix_append (lit rest : string) : String.prefix lit (lit +:+ rest) = true.
Proof.
  induction lit as [|a lit IH]; [destruct rest; reflexivity|].
  change (String a lit +:+ rest) with (String a (lit +:+ rest)). cbn [String.prefix].
  destruct (ascii_dec a a) as [_|Hne]; [exact IH|contradiction].
Qed.

Lemma substring_append (lit rest : string) (m : nat) :
  (String.length rest <= m)%nat ->
  String.substring (String.length lit) m (lit +:+ rest) = rest.
Proof.
  intros Hm. induction lit as [|a lit IH]; [apply substring_all, Hm|].
  change (String a lit +:+ rest) with (String a (lit +:+ rest)). exact IH.
Qed.

Lemma expect_append (lit : string) (v : JSON.value) (rest : string) :
  JSON.expect lit v (lit +:+ rest) = Some (v, rest).
Proof.
  unfold JSON.expect. rewrite prefix_append, substring_append; [reflexivity|].
  rewrite length_append. lia.
Qed.

Lemma parse_value_null (f : nat) (rest : string) :
  JSON.parse_value (S f) ("null" +:+ rest) = Some (JSON.Null, rest).
Proof.
  transitivity (JSON.expect "null" JSON.Null ("null" +:+ rest)); [reflexivity|apply expect_append].
Qed.

Lemma parse_value_true (f : nat) (rest : string) :
  JSON.parse_value (S f) ("true" +:+ rest) = Some (JSON.Bool true, rest).
Proof.
  transitivity (JSON.expect "true" (JSON.Bool true) ("true" +:+ rest)); [reflexivity|apply expect_append].
Qed.

Lemma parse_value_false (f : nat) (rest : string) :
  JSON.parse_value (S f) ("false" +:+ rest) = Some (JSON.Bool false, rest).
Proof.
  transitivity (JSON.expect "false" (JSON.Bool false) ("false" +:+ rest)); [reflexivity|apply expect_append].
Qed.

Lemma parse_value_number (f : nat) (c : ascii) (t : string) :
  starts_value c = true ->
  Ascii.eqb c "[" = false -> Ascii.eqb c "{" = false -> Ascii.eqb c Js.dquote = false ->
  Ascii.eqb c "n" = false -> Ascii.eqb c "t" = false -> Ascii.eqb c "f" = false ->
  JSON.parse_value (S f) (String c t)
  = match JSON.parse_number (String c t) with
    | Some (n, r) => Some (JSON.Num n, r)
    | None => None
    end.
Proof.
  destruct c as [[] [] [] [] [] [] [] []]; intros H0 H1 H2 H3 H4 H5 H6;
    try discriminate; reflexivity.
Qed.

Lemma parse_value_string (f : nat) (t : string) :
  JSON.parse_value (S f) (String Js.dquote t)
  = match JSON.parse_chars t with
    | Some (u, r) => Some (JSON.Str u, r)
    | None => None
    end.
Proof. reflexivity. Qed.

Lemma parse_value_array (f : nat) (c : ascii) (t : string) :
  starts_value c = true ->
  JSON.parse_value (S f) (String "[" (String c t))
  = match JSON.parse_elements f (String c t) with
    | Some (items, r) => Some (JSON.Arr items, r)
    | None => None
    end.
Proof.
  destruct c as [[] [] [] [] [] [] [] []]; intros H; try discriminate H; reflexivity.
Qed.

Lemma parse_value_object (f : nat) (t : string) :
  JSON.parse_value (S f) (String "{" (String Js.dquote t))
  = match JSON.parse_members f (String Js.dquote t) with
    | Some (members, r) => Some (JSON.Obj members, r)
    | None => None
    end.
Proof. reflexivity. Qed.

Lemma parse_elements_more (f : nat) (s : string) (v : JSON.value) (r : string) :
  JSON.parse_value f s = Some (v, String "," r) ->
  JSON.parse_elements (S f) s
  = match JSON.parse_elements f r with
    | Some (vs, r') => Some (v :: vs, r')
    | None => None
    end.
Proof. intros H. cbn [JSON.parse_elements]. rewrite H. reflexivity. Qed.

Lemma parse_elements_last (f : nat) (s : string) (v : JSON.value) (r : string) :
  JSON.parse_value f s = Some (v, String "]" r) ->
  JSON.parse_elements (S f) s = Some ([v], r).
Proof. intros H. cbn [JSON.parse_elements]. rewrite H. reflexivity. Qed.

Lemma parse_members_more (f : nat) (t : string) (k : string) (v : JSON.value)
    (r1 r3 : string) :
  JSON.parse_chars t = Some (k, String ":" r1) ->
  JSON.parse_value f r1 = Some (v, String "," r3) ->
  JSON.parse_members (S f) (String Js.dquote t)
  = match JSON.parse_members f r3 with
    | Some (ms, r4) => Some ((k, v) :: ms, r4)
    | None => None
    end.
Proof.
  intros Hk Hv.
  change (JSON.parse_members (S f) (String Js.dquote t))
    with (match JSON.parse_chars t with
          | Some (k, r) =>
              match JSON.skip_ws r with
              | String ":" r1 =>
                  match JSON.parse_value f r1 with
                  | Some (v, r2) =>
                      match JSON.skip_ws r2 with
                      | String "," r3 =>
                          match JSON.parse_members f r3 with
                          | Some (ms, r4) => Some ((k, v) :: ms, r4)
                          | None => None
                          end
                      | String "}" r3 => Some ([(k, v)], r3)
                      | _ => None
                      end
                  | None => None
                  end
              | _ => None
              end
          | None => None
          end).
  rewrite Hk. change (JSON.skip_ws (String ":" r1)) with (String ":" r1). cbv beta iota.
  rewrite Hv. reflexivity.
Qed.

Lemma parse_members_last (f : nat) (t : string) (k : string) (v : JSON.value)
    (r1 r3 : string) :
  JSON.parse_chars t = Some (k, String ":" r1) ->
  JSON.parse_value f r1 = Some (v, String "}" r3) ->
  JSON.parse_members (S f) (String Js.dquote t) = Some ([(k, v)], r3).
Proof.
  intros Hk Hv.
  change (JSON.parse_members (S f) (String Js.dquote t))
    with (match JSON.parse_chars t with
          | Some (k, r) =>
              match JSON.skip_ws r with
              | String ":" r1 =>
                  match JSON.parse_value f r1 with
                  | Some (v, r2) =>
                      match JSON.skip_ws r2 with
                      | String "," r3 =>
                          match JSON.parse_members f r3 with
                          | Some (ms, r4) => Some ((k, v) :: ms, r4)
                          | None => None
                          end
                      | String "}" r3 => Some ([(k, v)], r3)
                      | _ => None
                      end
                  | None => None
                  end
              | _ => None
              end
          | None => None
          end).
  rewrite Hk. change (JSON.skip_ws (String ":" r1)) with (String ":" r1). cbv beta iota.
  rewrite Hv. reflexivity.
Qed.

(** *** The round trip *)

Lemma join_more (sep x y : string) (l : list string) :
  JSON.join sep (x :: y :: l) = x +:+ sep +:+ JSON.join sep (y :: l).
Proof. reflexivity. Qed.

Lemma parse_elements_stringify (items : list JSON.value) :
  Forall reads_back items ->
  items <> [] ->
  forall fuel rest,
    (String.length (JSON.join "," (List.map JSON.stringify items)) + 1 < fuel)%nat ->
    JSON.parse_elements fuel
      (JSON.join "," (List.map JSON.stringify items) +:+ String "]" rest)
    = Some (items, rest).
Proof.
  induction 1 as [|v items Hv Hitems IH]; [congruence|]. intros _ fuel rest Hfuel.
  destruct fuel as [|f]; [lia|].
  destruct items as [|v' items'].
  - change (JSON.join "," (List.map JSON.stringify [v])) with (JSON.stringify v) in *.
    apply parse_elements_last, Hv; [lia|reflexivity].
  - change (List.map JSON.stringify (v :: v' :: items'))
      with (JSON.stringify v :: JSON.stringify v' :: List.map JSON.stringify items') in *.
    rewrite join_more in *. rewrite !length_append in Hfuel.
    change (String.length ",") with 1%nat in Hfuel.
    rewrite !append_assoc. rewrite append_cons, append_nil_l.
    rewrite (parse_elements_more f _ v
               (JSON.join "," (JSON.stringify v' :: List.map JSON.stringify items')
                +:+ String "]" rest)).
    + change (JSON.stringify v' :: List.map JSON.stringify items')
        with (List.map JSON.stringify (v' :: items')).
      rewrite IH; [reflexivity|discriminate|].
      change (List.map JSON.stringify (v' :: items'))
        with (JSON.stringify v' :: List.map JSON.stringify items'). lia.
    + apply Hv; [lia|reflexivity].
Qed.

Lemma member_text_append (k : string) (v : JSON.value) (rest : string) :
  member_text (k, v) +:+ rest
  = String Js.dquote
      (JSON.escape k +:+ String Js.dquote (String ":" (JSON.stringify v +:+ rest))).
Proof.
  unfold member_text. cbn [fst snd]. rewrite !append_assoc, parse_quote.
  rewrite append_cons, append_nil_l. reflexivity.
Qed.

Lemma length_member_text (k : string) (v : JSON.value) :
  (String.length (JSON.stringify v) < String.length (member_text (k, v)))%nat.
Proof.
  unfold member_text. cbn [fst snd]. rewrite !length_append. cbn [String.length]. lia.
Qed.

Lemma parse_members_stringify (members : list (string * JSON.value)) :
  Forall (fun kv => reads_back (snd kv)) members ->
  members <> [] ->
  forall fuel rest,
    (String.length (JSON.join "," (List.map member_text members)) + 1 < fuel)%nat ->
    JSON.parse_members fuel
      (JSON.join "," (List.map member_text members) +:+ String "}" rest)
    = Some (members, rest).
Proof.
  induction 1 as [|[k v] members Hv Hmembers IH]; [congruence|]. intros _ fuel rest Hfuel.
  destruct fuel as [|f]; [lia|]. cbn [snd] in Hv.
  pose proof (length_member_text k v) as Hlen.
  destruct members as [|kv' members'].
  - change (JSON.join "," (List.map member_text [(k, v)])) with (member_text (k, v)) in *.
    rewrite member_text_append.
    apply (parse_members_last f _ k v (JSON.stringify v +:+ String "}" rest) rest).
    + apply parse_chars_escape.
    + apply Hv; [lia|reflexivity].
  - change (List.map member_text ((k, v) :: kv' :: members'))
      with (member_text (k, v) :: member_text kv' :: List.map member_text members') in *.
    rewrite join_more in *. rewrite !length_append in Hfuel.
    change (String.length ",") with 1%nat in Hfuel.
    rewrite append_assoc, member_text_append.
    rewrite (parse_members_more f _ k v
               (JSON.stringify v +:+ ("," +:+ JSON.join ","
                  (member_text kv' :: List.map member_text members')) +:+ String "}" rest)
               (JSON.join "," (member_text kv' :: List.map member_text members')
                +:+ String "}" rest)).
    + change (member_text kv' :: List.map member_text members')
        with (List.map member_text (kv' :: members')).
      rewrite IH; [reflexivity|discriminate|].
      change (List.map member_text (kv' :: members'))
        with (member_text kv' :: List.map member_text members'). lia.
    + apply parse_chars_escape.
    + rewrite !append_assoc, append_cons, append_nil_l. apply Hv; [lia|reflexivity].
Qed.

Lemma elements_first (items : list JSON.value) (rest : string) :
  items <> [] ->
  exists c t, JSON.join "," (List.map JSON.stringify items) +:+ rest = String c t
              /\ starts_value c = true.
Proof.
  destruct items as [|v [|v' items']]; [congruence| |]; intros _.
  - apply stringify_first.
  - change (List.map JSON.stringify (v :: v' :: items'))
      with (JSON.stringify v :: JSON.stringify v' :: List.map JSON.stringify items').
    rewrite join_more, append_assoc. apply stringify_first.
Qed.

Lemma members_first (members : list (string * JSON.value)) (rest : string) :
  members <> [] ->
  exists t, JSON.join "," (List.map member_text members) +:+ rest = String Js.dquote t.
Proof.
  destruct members as [|[k v] [|kv' members']]; [congruence| |]; intros _.
  - eexists. apply member_text_append.
  - change (List.map member_text ((k, v) :: kv' :: members'))
      with (member_text (k, v) :: member_text kv' :: List.map member_text members').
    rewrite join_more, append_assoc. eexists. apply member_text_append.
Qed.

(** Every value is read back from its text. *)
Lemma parse_value_stringify (v : JSON.value) : reads_back v.
Proof.
  induction v as [ |b|n|s|items IH|members IH] using value_nested_ind;
    intros fuel rest Hfuel Hrest; (destruct fuel as [|f]; [lia|]).
  - apply parse_value_null.
  - destruct b; [apply parse_value_true|apply parse_value_false].
  - cbn [JSON.stringify].
    destruct (Number_toString_first n rest)
      as (c & t & Heq & H0 & H1 & H2 & H3 & H4 & H5 & H6).
    rewrite Heq, parse_value_number by assumption.
    rewrite <- Heq, parse_number_pretty by exact Hrest. reflexivity.
  - cbn [JSON.stringify].
    rewrite parse_quote, parse_value_string, parse_chars_escape. reflexivity.
  - destruct items as [|v items']; [reflexivity|].
    assert (Hne : v :: items' <> []) by discriminate.
    cbn [JSON.stringify] in *. rewrite !length_append in Hfuel. cbn [String.length] in Hfuel.
    rewrite !append_assoc.
    change ("[" +:+ ?x +:+ "]" +:+ rest) with (String "[" (x +:+ String "]" rest)).
    destruct (elements_first (v :: items') (String "]" rest) Hne) as (c & t & Heq & Hc).
    rewrite Heq, parse_value_array by exact Hc.
    rewrite <- Heq, parse_elements_stringify; [reflexivity|exact IH|exact Hne|lia].
  - destruct members as [|kv members']; [reflexivity|].
    assert (Hne : kv :: members' <> []) by discriminate.
    cbn [JSON.stringify] in *. fold member_text in Hfuel. fold member_text.
    rewrite !length_append in Hfuel. cbn [String.length] in Hfuel.
    rewrite !append_assoc.
    change ("{" +:+ ?x +:+ "}" +:+ rest) with (String "{" (x +:+ String "}" rest)).
    destruct (members_first (kv :: members') (String "}" rest) Hne) as (t & Heq).
    rewrite Heq, parse_value_object.
    rewrite <- Heq, parse_members_stringify; [reflexivity|exact IH|exact Hne|lia].
Qed.

(** [JSON.parse] undoes [JSON.stringify]: every value is read back from
    the text written for it. *)
Lemma parse_stringify (v : JSON.value) : JSON.parse (JSON.stringify v) = Some v.
Proof.
  unfold JSON.parse.
  rewrite <- (append_nil_r (JSON.stringify v)) at 2.
  rewrite parse_value_stringify; [reflexivity|lia|reflexivity].
Qed.

(** X20. [JSON.parse] undoes [JSON.stringify]: every value (null, booleans,
    integers, strings with any characters to escape, arrays and objects of
    any nesting) is read back from the text written for it, within the fuel
    that [JSON.parse] allows for a text of that length. *)
Theorem JSON_parse_after_stringify (v : JSON.value) :
  JSON.parse (JSON.stringify v) = Some v.
Proof. exact (parse_stringify v). Qed.

(** ** Sessions through the local storage *)

Lemma session_round_trip (s : TranscriptionSession) :
  in_four_digit_years s = true ->
  session_of_JSON (session_toJSON s) = Some (after_reload s).
Proof.
  destruct s as [i t [ms|] l d]; unfold in_four_digit_years, after_reload;
    cbn [Session.timestamp Session.id Session.text Session.language Session.duration];
    intros Hs.
  - apply andb_true_iff in Hs as [Hlo Hhi]. apply Z.leb_le in Hlo, Hhi.
    transitivity (Some {| Session.id := i; Session.text := t;
                          Session.timestamp := JsDate.parse (JsDate.toISOString ms);
                          Session.language := l; Session.duration := d |});
      [reflexivity|].
    rewrite parse_toISOString by lia. reflexivity.
  - reflexivity.
Qed.

Lemma sessions_round_trip (l : list TranscriptionSession) :
  forallb in_four_digit_years l = true ->
  sessions_of_JSON (List.map session_toJSON l) = Some (List.map after_reload l).
Proof.
  induction l as [|s l IH]; [reflexivity|]. intros H.
  cbn [forallb] in H. apply andb_true_iff in H as [Hs Hl].
  cbn [List.map sessions_of_JSON]. rewrite (session_round_trip s Hs), (IH Hl).
  reflexivity.
Qed.

Lemma after_reload_valid (l : list TranscriptionSession) :
  Forall (fun s => Session.timestamp s <> InvalidDate) l -> List.map after_reload l = l.
Proof.
  induction 1 as [|s l Hs Hl IH]; [reflexivity|]. cbn [List.map]. rewrite IH. f_equal.
  unfold after_reload. destruct (Session.timestamp s); [reflexivity|congruence].
Qed.

Lemma stringify_sessions_not_empty (l : list TranscriptionSession) :
  String.eqb (JSON_stringify_sessions l) "" = false.
Proof. reflexivity. Qed.

(** What a load shows when the user's entry holds a saved list. *)
Lemma loadSessionsFromLocalStorage_saved (cl : State) (o : Outside) (w : World) (u : User)
    (l : list TranscriptionSession) :
  user cl = Some u ->
  storage_ok o = true ->
  localStorage (env w) !! storage_key (uid u) = Some (JSON_stringify_sessions l) ->
  forallb in_four_digit_years l = true ->
  sessions (st (exec (loadSessionsFromLocalStorage cl o) w)) = List.map after_reload l.
Proof.
  intros Hu Hs Hentry Hl.
  rewrite loadSessionsFromLocalStorage_sessions, Hu, Hs, Hentry,
    stringify_sessions_not_empty.
  unfold JSON_stringify_sessions. rewrite parse_stringify, (sessions_round_trip l Hl).
  reflexivity.
Qed.

(** X21. What is saved locally is what is loaded locally.  When a render
    with a signed-in user writes a list of sessions with
    [saveSessionsToLocalStorage] and the storage accepts it, then
    [loadSessionsFromLocalStorage] of any render with a user of the same id
    (the storage still readable, the entry not overwritten since) displays
    that list again: the same sessions in the same order, with every text,
    id, language, duration and valid timestamp unchanged.  Only a session
    whose timestamp is an invalid date comes back changed: its timestamp is
    the epoch.  Timestamps are taken in the years 0000 to 9999. *)
Theorem local_storage_round_trip (cl cl' : State) (o o' : Outside) (u u' : User)
    (l : list TranscriptionSession) (w : World) :
  user cl = Some u -> user cl' = Some u' -> uid u' = uid u ->
  storage_ok o = true -> storage_ok o' = true ->
  forallb in_four_digit_years l = true ->
  let w' := exec (saveSessionsToLocalStorage cl o l) w in
  sessions (st (exec (loadSessionsFromLocalStorage cl' o') w')) = List.map after_reload l
  /\ (Forall (fun s => Session.timestamp s <> InvalidDate) l ->
      sessions (st (exec (loadSessionsFromLocalStorage cl' o') w')) = l).
Proof.
  intros Hu Hu' Hid Hs Hs' Hl. cbv zeta.
  assert (Hload : sessions (st (exec (loadSessionsFromLocalStorage cl' o')
                                  (exec (saveSessionsToLocalStorage cl o l) w)))
                  = List.map after_reload l).
  { apply (loadSessionsFromLocalStorage_saved cl' o' _ u' l Hu' Hs'); [|exact Hl].
    rewrite saveSessionsToLocalStorage_localStorage, Hu, Hs, Hid.
    apply lookup_insert_eq. }
  split; [exact Hload|]. intros Hvalid. rewrite Hload. apply after_reload_valid, Hvalid.
Qed.

Lemma local_storage_round_trip_witness :
  sessions (st (exec (loadSessionsFromLocalStorage signedIn offline)
                  (exec (saveSessionsToLocalStorage signedIn offline [older]) home)))
  = [older].
Proof.
  refine (proj2 (local_storage_round_trip signedIn signedIn offline offline alice alice
                   [older] home eq_refl eq_refl eq_refl eq_refl eq_refl _) _).
  - vm_compute. reflexivity.
  - repeat constructor; discriminate.
Defined.

Lemma forallb_take {A} (f : A -> bool) (n : nat) (l : list A) :
  forallb f l = true -> forallb f (take n l) = true.
Proof.
  revert n. induction l as [|x l IH]; intros [|n] H; try reflexivity.
  cbn [forallb take] in *. apply andb_true_iff in H as [Hx Hl].
  rewrite Hx, (IH n Hl). reflexivity.
Qed.

(** X22. A session saved while the backend is down is back after a reload
    while the backend is still down.  When the create request fails and the
    local write succeeds, the page shows the new session in front of the
    first nine of the render's list; and a later [loadSessions] of a user
    with the same id (fresh page or not) whose list request fails, reading
    the storage as the save left it, shows exactly that list again, every
    session unchanged except that an invalid timestamp has become the
    epoch.  Timestamps are taken in the years 0000 to 9999. *)
Theorem offline_save_survives_reload (cl cl' : State) (o o' : Outside) (u u' : User)
    (text : string) (duration : Z) (w w2 : World) :
  user cl = Some u -> user cl' = Some u' -> uid u' = uid u ->
  db_create o = None -> storage_ok o = true ->
  db_list_ok o' = false -> storage_ok o' = true ->
  min_four_digit_year <= now_timestamp o <= max_four_digit_year ->
  forallb in_four_digit_years (sessions cl) = true ->
  let w1 := exec (saveSession cl o text duration) w in
  localStorage (env w2) = localStorage (env w1) ->
  sessions (st w1) = newSession cl o text duration :: take 9 (sessions cl)
  /\ sessions (st (exec (loadSessions cl' o') w2)) = List.map after_reload (sessions (st w1)).
Proof.
  intros Hu Hu' Hid Hc Hs Hl' Hs' Hnow Hold. cbv zeta. intros Hsame.
  rewrite saveSession_sessions, Hu, Hc. split; [reflexivity|].
  rewrite (loadSessions_fallback_sessions cl' o' w2 Hl').
  apply (loadSessionsFromLocalStorage_saved cl' o' w2 u' _ Hu' Hs').
  - rewrite Hsame, saveSession_localStorage, Hu, Hc, Hs, Hid. apply lookup_insert_eq.
  - cbn [forallb]. apply andb_true_iff. split; [|apply forallb_take, Hold].
    unfold in_four_digit_years, newSession. cbn [Session.timestamp].
    apply andb_true_iff. split; apply Z.leb_le; lia.
Qed.

Lemma offline_save_survives_reload_witness :
  let cl := st home_with_history in
  let w1 := exec (saveSession cl offline "hello" 5) home_with_history in
  sessions (st (exec (loadSessions cl offline) w1)) = sessions (st w1).
Proof.
  cbv zeta.
  assert (Hnow : min_four_digit_year <= now_timestamp offline <= max_four_digit_year)
    by (unfold min_four_digit_year, max_four_digit_year; cbn; lia).
  assert (Hold : forallb in_four_digit_years (sessions (st home_with_history)) = true)
    by (vm_compute; reflexivity).
  destruct (offline_save_survives_reload (st home_with_history) (st home_with_history)
              offline offline alice alice "hello" 5 home_with_history
              (exec (saveSession (st home_with_history) offline "hello" 5)
                 home_with_history)
              eq_refl eq_refl eq_refl eq_refl eq_refl eq_refl eq_refl Hnow Hold eq_refl)
    as [Hshown Hloaded].
  rewrite Hloaded, Hshown. reflexivity.
Defined.

Lemma query_first_row (userId : string) (rows : list DbRow) (r : DbRow) :
  Forall (fun x => row_userId x <> userId) rows ->
  row_userId r = userId ->
  query userId (rows ++ [r]) = [r].
Proof.
  intros Hrows Hr. unfold query. rewrite List.filter_app.
  assert (Hnone : List.filter (fun x => String.eqb (row_userId x) userId) rows = []).
  { induction Hrows as [|x rows Hx _ IH]; [reflexivity|]. cbn [List.filter].
    apply String.eqb_neq in Hx. rewrite Hx. exact IH. }
  rewrite Hnone. cbn [List.filter app]. apply String.eqb_eq in Hr. rewrite Hr.
  reflexivity.
Qed.

(** X23. The first session a user saves remotely comes back on reload with
    the time of the row, not the time on display.  After a successful create
    the page shows the session with the timestamp of one clock reading
    ([new Date()] of the object literal); the row carries the ISO text of a
    second reading ([createdAt]).  A later successful [loadSessions] of the
    same user on that table, which held no row of the user before, shows one
    session: the id of the row, the same text, language and duration, and as
    timestamp the second reading ([createdAt] in the years 0000 to 9999). *)
Theorem remote_save_reload (cl cl' : State) (o o' : Outside) (u u' : User) (i : string)
    (text : string) (duration : Z) (w w2 : World) :
  user cl = Some u -> user cl' = Some u' -> uid u' = uid u ->
  db_create o = Some i -> db_list_ok o' = true ->
  Forall (fun r => row_userId r <> uid u) (remote (env w)) ->
  min_four_digit_year <= now_createdAt o <= max_four_digit_year ->
  let w1 := exec (saveSession cl o text duration) w in
  remote (env w2) = remote (env w1) ->
  sessions (st w1)
  = Session.with_id i (newSession cl o text duration) :: take 9 (sessions (st w))
  /\ Session.timestamp (Session.with_id i (newSession cl o text duration))
     = ValidDate (now_timestamp o)
  /\ sessions (st (exec (loadSessions cl' o') w2))
     = [as_reloaded_row i (now_createdAt o) (newSession cl o text duration)].
Proof.
  intros Hu Hu' Hid Hc Hl' Hrows Hnow. cbv zeta. intros Hsame.
  rewrite saveSession_sessions, Hu, Hc. split; [reflexivity|]. split; [reflexivity|].
  unfold exec. rewrite (loadSessions_remote_run cl' o' w2 u' Hu' Hl').
  cbn [snd st upd_st upd_env sessions set_sessions].
  rewrite Hsame, saveSession_remote, Hu, Hc, Hid.
  rewrite query_first_row; [|exact Hrows|reflexivity].
  cbn [List.map]. unfold session_of_row, as_reloaded_row, newSession.
  cbn [row_id row_text row_createdAt row_language row_duration
       Session.text Session.language Session.duration].
  rewrite parse_toISOString by exact Hnow. reflexivity.
Qed.

Lemma remote_save_reload_witness :
  let w1 := exec (saveSession signedIn online "hello" 5) home in
  Session.timestamp <$> sessions (st w1) = [ValidDate 1730543021123]
  /\ Session.timestamp <$> sessions (st (exec (loadSessions signedIn online) w1))
     = [ValidDate 1730543021124].
Proof.
  cbv zeta.
  assert (Hrows : Forall (fun r => row_userId r <> uid alice) (remote (env home)))
    by (vm_compute; constructor).
  assert (Hnow : min_four_digit_year <= now_createdAt online <= max_four_digit_year)
    by (unfold min_four_digit_year, max_four_digit_year; cbn; lia).
  destruct (remote_save_reload signedIn signedIn online online alice alice "row_1"
              "hello" 5 home (exec (saveSession signedIn online "hello" 5) home)
              eq_refl eq_refl eq_refl eq_refl eq_refl Hrows Hnow eq_refl)
    as (Hshown & _ & Hloaded).
  rewrite Hloaded, Hshown. split; reflexivity.
Defined.


(** ** Loading from the remote table *)

(** X9. When the remote list call succeeds for a signed-in user, the
    displayed list is replaced (not merged, whatever it was) by one session
    per row that the call returns, in the order returned: the session has the
    id, text, language and duration of its row and, for a [createdAt] that
    [toISOString] wrote (as [saveSession] writes it), that instant as its
    timestamp.  One list request for the user's id goes out; nothing else in
    the world changes: no toast, no write to either store. *)
Theorem loadSessions_remote_path (cl : State) (o : Outside) (w : World) (u : User) :
  user cl = Some u ->
  db_list_ok o = true ->
  let rows := query (uid u) (remote (env w)) in
  let w' := exec (loadSessions cl o) w in
  w' = upd_st (set_sessions (sessions (st w')))
         (upd_env (fun b => set_calls (calls b ++ [CallList (uid u)]) b) w)
  /\ length (sessions (st w')) = length rows
  /\ forall k r, rows !! k = Some r ->
       exists s, sessions (st w') !! k = Some s
                 /\ Session.id s = row_id r
                 /\ Session.text s = row_text r
                 /\ Session.language s = row_language r
                 /\ Session.duration s = row_duration r
                 /\ forall ms, createdAt_time r ms -> Session.timestamp s = ValidDate ms.
Proof.
  intros Hu Hl. cbv zeta. unfold exec.
  rewrite (loadSessions_remote_run cl o w u Hu Hl).
  cbn [snd st upd_st upd_env sessions set_sessions].
  split; [reflexivity|]. split; [apply length_map|].
  intros k r Hk. exists (session_of_row r). split.
  - rewrite list_lookup_fmap, Hk. reflexivity.
  - repeat split. intros ms [Htext Hms]. unfold session_of_row.
    cbn [Session.timestamp]. rewrite Htext. apply parse_toISOString, Hms.
Qed.

Lemma loadSessions_remote_path_witness :
  let w := upd_st (set_sessions ten_sessions)
             (exec (saveSession signedIn online "hello" 5) home) in
  sessions (st (exec (loadSessions signedIn online) w))
  = [as_reloaded_row "row_1" 1730543021124 (newSession signedIn online "hello" 5)].
Proof.
  cbv zeta.
  destruct (loadSessions_remote_path signedIn online
              (upd_st (set_sessions ten_sessions)
                 (exec (saveSession signedIn online "hello" 5) home))
              alice eq_refl eq_refl) as (_ & Hlen & Hrows).
  destruct (Hrows 0%nat
              {| row_id := "row_1"; row_userId := "u1"; row_text := "hello";
                 row_language := "en"; row_duration := 5;
                 row_createdAt := JsDate.toISOString 1730543021124 |})
    as (s & Hs & Hid & Htext & Hlang & Hdur & Htime); [vm_compute; reflexivity|].
  assert (Hone : length (query (uid alice)
                           (remote (env (upd_st (set_sessions ten_sessions)
                                           (exec (saveSession signedIn online "hello" 5)
                                              home))))) = 1%nat)
    by (vm_compute; reflexivity).
  rewrite Hone in Hlen.
  destruct (sessions (st (exec (loadSessions signedIn online)
                            (upd_st (set_sessions ten_sessions)
                               (exec (saveSession signedIn online "hello" 5) home)))))
    as [|s0 [|s1 l]]; try discriminate Hlen.
  cbn in Hs. injection Hs as ->.
  specialize (Htime 1730543021124).
  destruct s as [i t ts l d]. cbn in Hid, Htext, Hlang, Hdur, Htime.
  rewrite Htime; [subst; reflexivity|].
  split; [reflexivity|]. unfold min_four_digit_year, max_four_digit_year. lia.
Defined.
